(** * CanDIG metadata service: the query and filtering engine

    A shallow embedding of the request-handling core of
    [candig/metadata/backend.py] and of the compound identifiers of
    [candig/metadata/datamodel/__init__.py], with the properties the
    specification states about them; and, with further properties read
    off the code, of the registries of [candig/metadata/datarepo.py] and
    [candig/metadata/datamodel/datasets.py], the datasets search, the get
    end points, the attribute tiers and the components of a query.

    Conventions of the embedding.
    - A Python [str] is a Rocq [string] holding the UTF-8 bytes of the
      text; an ASCII character is one byte, so [len], slicing and
      [replace] on ASCII text coincide with the byte-level operations.
    - A computation that may raise is a [result]: [Ok v] is a normal
      return, [Raise e] an exception of class [e] leaving the function.
    - A [dict] whose keys are fixed by the protocol is a record of
      optional fields; a [dict] with free keys is a [gmap] or, where the
      insertion order is observable, an association list; a [set] is a
      [gset].
    - A generator is a state machine ([next] on an explicit state); loops
      that consume one are given fuel and return [None] when it runs out. *)

From Stdlib Require Import ZArith String Ascii List Bool Lia DecimalString DecimalZ.
From stdpp Require Import base option list list_numbers gmap sets strings sorting.

Local Open Scope string_scope.
Local Open Scope Z_scope.
Local Open Scope list_scope.

(** ** Python values, exceptions and results *)

Module Py.

(** The built-in exception classes that occur in the modelled code. *)
Inductive builtin :=
| TypeError | KeyError | AttributeError | IndexError | NameError
| RecursionError
| ValueError            (* ValueError proper *)
| BinasciiError         (* binascii.Error, a subclass of ValueError *)
| UnicodeDecodeError    (* subclass of ValueError *)
| UnicodeEncodeError    (* subclass of ValueError *)
| JSONDecodeError.      (* json.JSONDecodeError, subclass of ValueError *)

(** The server's own exception classes ([candig.metadata.exceptions]),
    by name; none of them derives from a built-in class other than
    [Exception]. *)
Inductive exn :=
| Builtin (b : builtin)
| BadRequestException (msg : string)
| BadInputTypeException
| BadFilterKeyException
| BadFieldNameException (field closeMatch : string)
| BadFieldNameNoCloseMatchException (field : string)
| NotAuthorizedException (msg : string)
| DatasetNotFoundException (id : string)
| MissingFieldNameException (msg : string)
| InvalidLogicException (msg : string)
| MissingResultVariantKeysException
| BadPageSizeException (size : Z)
| BadPageTokenException
| BadIdentifierException (id : string)
| BadIdentifierNotStringException
| ObjectWithIdNotFoundException (id : string).

(** [isinstance(e, ValueError)] for a built-in class. *)
Definition is_ValueError (b : builtin) : bool :=
  match b with
  | ValueError | BinasciiError | UnicodeDecodeError
  | UnicodeEncodeError | JSONDecodeError => true
  | _ => false
  end.

Inductive result (A : Type) :=
| Ok (a : A)
| Raise (e : exn).
Arguments Ok {A} a.
Arguments Raise {A} e.

Definition bind {A B} (r : result A) (k : A -> result B) : result B :=
  match r with
  | Ok a => k a
  | Raise e => Raise e
  end.

(** [try: r  except <classes>: raise h(e)]: exceptions are re-mapped by
    [h], which is the identity on the classes no clause catches. *)
Definition try_except {A} (r : result A) (h : exn -> exn) : result A :=
  match r with
  | Ok a => Ok a
  | Raise e => Raise (h e)
  end.

(** [d[k]] on an optional entry of a dict: a missing key is a KeyError. *)
Definition getitem {A} (o : option A) : result A :=
  match o with
  | Some a => Ok a
  | None => Raise (Builtin KeyError)
  end.

(** The scalar values a field getter or a filter carries. *)
Inductive pyval :=
| VNone
| VInt (z : Z)
| VStr (s : string).

Global Instance pyval_eq_dec : EqDecision pyval.
Proof. solve_decision. Defined.

Definition pyval_enc (v : pyval) : unit + (Z + string) :=
  match v with
  | VNone => inl tt
  | VInt z => inr (inl z)
  | VStr s => inr (inr s)
  end.

Definition pyval_dec (x : unit + (Z + string)) : pyval :=
  match x with
  | inl _ => VNone
  | inr (inl z) => VInt z
  | inr (inr s) => VStr s
  end.

Global Instance pyval_countable : Countable pyval.
Proof.
  refine (inj_countable' pyval_enc pyval_dec _).
  intros []; reflexivity.
Defined.

(** The objects [json.loads] and [MessageToDict] produce. A dict is the
    list of its items in insertion order, with distinct keys; numbers
    are the integers. *)
#[warnings="-register-all"]
Inductive json :=
| JNull
| JBool (b : bool)
| JNum (z : Z)
| JStr (s : string)
| JList (l : list json)
| JDict (d : list (string * json)).

(** Truth value of an object. *)
Definition truthy (v : json) : bool :=
  match v with
  | JNull => false
  | JBool b => b
  | JNum z => negb (z =? 0)
  | JStr s => negb (String.eqb s EmptyString)
  | JList l => negb (Nat.eqb (length l) 0)
  | JDict d => negb (Nat.eqb (length d) 0)
  end.

(** [d.get(k)] and [k in d] on the items of a dict. *)
Fixpoint dict_get {A} (k : string) (d : list (string * A)) : option A :=
  match d with
  | [] => None
  | (k', v) :: d' => if String.eqb k k' then Some v else dict_get k d'
  end.

(** [d[k] = x] on the items of a dict. *)
Fixpoint dict_set {A} (k : string) (x : A) (d : list (string * A)) : list (string * A) :=
  match d with
  | [] => [(k, x)]
  | (k', y) :: d' =>
      if String.eqb k k' then (k', x) :: d' else (k', y) :: dict_set k x d'
  end.

(** [hash(v)]: lists and dicts are unhashable; the other values are
    identified as set members and dict keys up to [==], under which
    [True] is [1] and [False] is [0]. *)
Definition hashable (v : json) : result pyval :=
  match v with
  | JNull => Ok VNone
  | JBool b => Ok (VInt (if b then 1 else 0))
  | JNum z => Ok (VInt z)
  | JStr s => Ok (VStr s)
  | JList _ | JDict _ => Raise (Builtin TypeError)
  end.

(** [str.lower()] on the ASCII letters; bytes of non-ASCII characters are
    left as they are. *)
Definition lower_ascii (c : ascii) : ascii :=
  let n := N_of_ascii c in
  if ((65 <=? n) && (n <=? 90))%N then ascii_of_N (n + 32) else c.

Fixpoint lower (s : string) : string :=
  match s with
  | EmptyString => EmptyString
  | String c s' => String (lower_ascii c) (lower s')
  end.

(** [len(s)]: the number of characters, which is the number of bytes
    that are not UTF-8 continuation bytes. *)
Fixpoint py_len (s : string) : nat :=
  match s with
  | EmptyString => 0%nat
  | String c s' =>
      let n := N_of_ascii c in
      if ((128 <=? n) && (n <? 192))%N then py_len s' else S (py_len s')
  end.

(** [needle in hay] on strings. *)
Fixpoint is_substring (needle hay : string) : bool :=
  String.prefix needle hay ||
  match hay with
  | EmptyString => false
  | String _ hay' => is_substring needle hay'
  end.

(** [str(i)], and [int(s)] on the decimal notation [str] writes: digits
    with a minus sign for a negative number. [int] also reads a plus
    sign, white space around the number and underscores between digits;
    such text is a ValueError here. *)
Definition str_of_int (z : Z) : string := NilZero.string_of_int (Z.to_int z).

Definition int_of_str (s : string) : result Z :=
  match NilZero.int_of_string s with
  | Some d => Ok (Z.of_int d)
  | None => Raise (Builtin ValueError)
  end.

(** [l[i]] on a list: negative indices count from the end, anything out
    of range is an IndexError. *)
Definition list_getitem {A} (l : list A) (i : Z) : result A :=
  let n := Z.of_nat (length l) in
  let j := if i <? 0 then i + n else i in
  if (0 <=? j) && (j <? n) then
    match l !! Z.to_nat j with
    | Some a => Ok a
    | None => Raise (Builtin IndexError)
    end
  else Raise (Builtin IndexError).

(** Truthiness of an optional string ([None] and the empty string are false). *)
Definition truthy_token (t : option string) : bool :=
  match t with
  | Some (String _ _) => true
  | _ => false
  end.

End Py.

Import Py.

Notation "'let*' x ':=' c1 'in' c2" := (Py.bind c1 (fun x => c2))
  (at level 10, x pattern, c1 at level 100, c2 at level 200,
   format "'[v' 'let*'  x  ':='  c1  'in' '/' c2 ']'").

(** ** The data model: objects, datasets, requests *)

Module Datamodel.

(** A datamodel object: its local name and the registry [_objectAttr]
    from field names to the values its getters return. *)
Record DatamodelObject := {
  _localId : string;
  _objectAttr : gmap string pyval
}.

Section Mapper.
  (** [difflib.get_close_matches(word, possibilities)]. *)
Variable get_close_matches : string -> list string -> list string.

  (** [DatamodelObject.mapper] *)
Definition mapper (self : DatamodelObject) (field : string) : result pyval :=
    match _objectAttr self !! field with
    | Some v => Ok v
    | None =>
        match get_close_matches field (fst <$> map_to_list (_objectAttr self)) with
        | closeMatch :: _ => Raise (BadFieldNameException field closeMatch)
        | [] => Raise (BadFieldNameNoCloseMatchException field)
        end
    end.
End Mapper.

(** The entity collections a dataset holds, one per search end point. *)
Inductive entity :=
| Patients | Enrollments | Consents | Diagnoses | Samples | Treatments
| Outcomes | Complications | Tumourboards | Chemotherapies
| Radiotherapies | Surgeries | Immunotherapies | Celltransplants
| Slides | Studies | Labtests | Extractions | Sequencings | Alignments
| VariantCallings | FusionDetections | ExpressionAnalyses.

Record Dataset := {
  ds_localId : string;
  ds_entities : entity -> list DatamodelObject
}.

Definition getLocalId (d : Dataset) : string := ds_localId d.

Record DataRepository := {
  _datasetIdMap : gmap string Dataset
}.

(** [AbstractDataRepository.getDataset] *)
Definition getDataset (repo : DataRepository) (id_ : string) : result Dataset :=
  match _datasetIdMap repo !! id_ with
  | None => Raise (DatasetNotFoundException id_)
  | Some d => Ok d
  end.

(** A filter as the request carries it: a dict with the optional keys
    [field], [operator], [value] and [values]; [V] is the container of
    [values], a list on the wire and a set after validation. *)
Record filter_dict (V : Type) := {
  f_field : option string;
  f_operator : option string;
  f_value : option pyval;
  f_values : option V
}.
Arguments f_field {V} _.
Arguments f_operator {V} _.
Arguments f_value {V} _.
Arguments f_values {V} _.

Definition raw_filter := filter_dict (list pyval).
Definition valid_filter := filter_dict (gset pyval).

(** A search request message. *)
Record SearchRequest := {
  dataset_id : string;
  page_size : Z;
  page_token : string;
  filters : list raw_filter
}.

Definition set_page_token (r : SearchRequest) (t : string) : SearchRequest :=
  {| dataset_id := dataset_id r; page_size := page_size r;
     page_token := t; filters := filters r |}.

Definition set_page_size (r : SearchRequest) (n : Z) : SearchRequest :=
  {| dataset_id := dataset_id r; page_size := n;
     page_token := page_token r; filters := filters r |}.

End Datamodel.

Import Datamodel.

(** ** Paging: resumable generators and the page loop *)

Module Paging.

Fixpoint split_on (sep : ascii) (s : string) : list string :=
  match s with
  | EmptyString => [EmptyString]
  | String c s' =>
      if Ascii.eqb c sep then EmptyString :: split_on sep s'
      else match split_on sep s' with
           | w :: ws => String c w :: ws
           | [] => [String c EmptyString]
           end
  end.

Fixpoint parse_ints (tokens : list string) : result (list Z) :=
  match tokens with
  | [] => Ok []
  | t :: ts =>
      let* v := try_except (int_of_str t) (fun _ => BadPageTokenException) in
      let* vs := parse_ints ts in
      Ok (v :: vs)
  end.

(** Modelled from the spec: [paging._parsePageToken] is not part of the
    sources at hand. A token decodes to [numValues] integer cursor
    components, colon-separated in the wire form; anything else is a bad
    page token. *)
Definition _parsePageToken (pageToken : string) (numValues : nat) : result (list Z) :=
  let tokens := split_on ":" pageToken in
  if negb (length tokens =? numValues)%nat then Raise BadPageTokenException
  else parse_ints tokens.

Section Generators.
Context {Obj Elt : Type}.

  (** The state of a generator object: its body has not run yet, or it
      is suspended at the [yield] with the given [currentIndex]. *)
Inductive gen_state :=
  | NotStarted
  | Suspended (currentIndex : Z).

Record generator := MkGen {
    gen_page_token : string;
    gen_numObjects : Z;
    gen_getByIndexMethod : Z -> result Obj;
    gen_emit : Obj -> Elt;
    gen_state_of : gen_state
  }.

Definition resume (g : generator) (currentIndex : Z) : generator :=
    {| gen_page_token := gen_page_token g;
       gen_numObjects := gen_numObjects g;
       gen_getByIndexMethod := gen_getByIndexMethod g;
       gen_emit := gen_emit g;
       gen_state_of := Suspended currentIndex |}.

  (** The code before the [while]: [currentIndex] is 0, or the single
      component of the request's page token when that is not empty. *)
Definition start_index (g : generator) : result Z :=
    match gen_state_of g with
    | Suspended currentIndex => Ok currentIndex
    | NotStarted =>
        match gen_page_token g with
        | EmptyString => Ok 0
        | tok =>
            let* parsed := _parsePageToken tok 1 in
            match parsed with
            | [currentIndex] => Ok currentIndex
            | _ => Raise (Builtin ValueError)
            end
        end
    end.

  (** One [next()] on the generator: [Ok None] is StopIteration, and
      [Ok (Some (pair, g'))] a yielded (object, nextPageToken) pair with
      the generator suspended after it. *)
Definition next (g : generator)
    : result (option ((Elt * option string) * generator)) :=
    let* currentIndex := start_index g in
    if currentIndex <? gen_numObjects g then
      let* object_ := gen_getByIndexMethod g currentIndex in
      let currentIndex := currentIndex + 1 in
      let nextPageToken :=
        if currentIndex <? gen_numObjects g
        then Some (str_of_int currentIndex) else None in
      Ok (Some ((gen_emit g object_, nextPageToken), resume g currentIndex))
    else Ok None.

  (** [list(generator)] *)
Fixpoint drain (fuel : nat) (g : generator)
    : option (result (list (Elt * option string))) :=
    match fuel with
    | O => None
    | S fuel' =>
        match next g with
        | Raise e => Some (Raise e)
        | Ok None => Some (Ok [])
        | Ok (Some (y, g')) =>
            match drain fuel' g' with
            | Some (Ok ys) => Some (Ok (y :: ys))
            | r => r
            end
        end
    end.

  (** [Backend._topLevelObjectGenerator]; [toProtocolElement] is the
      conversion of a native object to its wire form at a tier. *)
Definition _topLevelObjectGenerator (toProtocolElement : Obj -> Z -> Elt)
      (request : SearchRequest) (numObjects : Z)
      (getByIndexMethod : Z -> result Obj) (tier : Z) : generator :=
    MkGen (page_token request) numObjects getByIndexMethod
          (fun object_ => toProtocolElement object_ tier) NotStarted.

  (** [Backend._objectListGenerator] *)
Definition _objectListGenerator (toProtocolElement : Obj -> Z -> Elt)
      (request : SearchRequest) (objectList : list Obj) (tier : Z) : generator :=
    _topLevelObjectGenerator toProtocolElement request
      (Z.of_nat (length objectList))
      (fun index => list_getitem objectList index) tier.

  (** The response of a search: the page and its continuation token. *)
Record SearchResponse := {
    resp_values : list Elt;
    resp_nextPageToken : option string
  }.

Section PageLoop.
(** [SearchResponseBuilder.isFull] after a value was added, as a function
    of the page size the builder was made with and of the values added
    so far; the builder is not part of the sources at hand. *)
Variable isFull : Z -> list Elt -> bool.
Variable defaultPageSize : Z.

(** The [for obj, nextPageToken in objectGenerator(...)] loop of
        [runSearchRequest]. *)
Fixpoint fill (fuel : nat) (pageSize : Z) (g : generator)
        (values : list Elt) (nextPageToken : option string)
      : option (result SearchResponse) :=
      match fuel with
      | O => None
      | S fuel' =>
          match next g with
          | Raise e => Some (Raise e)
          | Ok None =>
              Some (Ok {| resp_values := values; resp_nextPageToken := nextPageToken |})
          | Ok (Some ((obj, nextPageToken), g')) =>
              let values := (values ++ [obj])%list in
              if isFull pageSize values
              then Some (Ok {| resp_values := values; resp_nextPageToken := nextPageToken |})
              else fill fuel' pageSize g' values nextPageToken
          end
      end.

    (** [Backend.runSearchRequest] on a parsed request. *)
Definition runSearchRequest (fuel : nat) (request : SearchRequest)
        (objectGenerator : SearchRequest -> result generator)
      : option (result SearchResponse) :=
      let request :=
        if page_size request =? 0
        then set_page_size request defaultPageSize else request in
      if page_size request <? 0
      then Some (Raise (BadPageSizeException (page_size request)))
      else
        match objectGenerator request with
        | Raise e => Some (Raise e)
        | Ok g => fill fuel (page_size request) g [] None
        end.

    (** The client side of the protocol, as [Backend.endpointCaller] runs
        it: call once, then re-invoke with each returned token while it
        is truthy, appending the pages. *)
Fixpoint follow (fuel : nat) (request : SearchRequest)
        (objectGenerator : SearchRequest -> result generator)
        (responses : list Elt) (nextToken : option string)
      : option (result (list Elt)) :=
      match fuel with
      | O => None
      | S fuel' =>
          match nextToken with
          | Some (String c t) =>
              let request := set_page_token request (String c t) in
              match runSearchRequest fuel' request objectGenerator with
              | None => None
              | Some (Raise e) => Some (Raise e)
              | Some (Ok nextPageRequest) =>
                  follow fuel' request objectGenerator
                    (responses ++ resp_values nextPageRequest)%list
                    (resp_nextPageToken nextPageRequest)
              end
          | _ => Some (Ok responses)
          end
      end.

Definition all_pages (fuel : nat) (request : SearchRequest)
        (objectGenerator : SearchRequest -> result generator)
      : option (result (list Elt)) :=
      match runSearchRequest fuel request objectGenerator with
      | None => None
      | Some (Raise e) => Some (Raise e)
      | Some (Ok responseObj) =>
          follow fuel request objectGenerator
            (resp_values responseObj) (resp_nextPageToken responseObj)
      end.
End PageLoop.
End Generators.

Arguments generator : clear implicits.
Arguments SearchResponse : clear implicits.

(** [Backend._protocolObjectGenerator]: the objects are already in their
    wire form and are yielded as they are. *)
Definition _protocolObjectGenerator {P : Type}
    (request : SearchRequest) (numObjects : Z)
    (getByIndexMethod : Z -> result P) : generator P P :=
  MkGen (page_token request) numObjects getByIndexMethod
        (fun object_ => object_) NotStarted.

(** [Backend._protocolListGenerator] *)
Definition _protocolListGenerator {P : Type}
    (request : SearchRequest) (objectList : list P) : generator P P :=
  _protocolObjectGenerator request (Z.of_nat (length objectList))
    (fun index => list_getitem objectList index).

End Paging.

(** ** The filter engine *)

Module FilterEngine.

Definition op_lt (a b : pyval) : result bool :=
  match a, b with
  | VInt x, VInt y => Ok (x <? y)
  | VStr x, VStr y => Ok (String.ltb x y)
  | _, _ => Raise (Builtin TypeError)
  end.

Definition op_le (a b : pyval) : result bool :=
  match a, b with
  | VInt x, VInt y => Ok (x <=? y)
  | VStr x, VStr y => Ok (String.leb x y)
  | _, _ => Raise (Builtin TypeError)
  end.

Definition op_gt (a b : pyval) : result bool := op_lt b a.
Definition op_ge (a b : pyval) : result bool := op_le b a.

Definition op_eq (a b : pyval) : result bool := Ok (bool_decide (a = b)).
Definition op_ne (a b : pyval) : result bool := Ok (negb (bool_decide (a = b))).

(** [operator.contains(a, b)] is [b in a]. *)
Definition op_contains (a b : pyval) : result bool :=
  match a, b with
  | VStr hay, VStr needle => Ok (is_substring needle hay)
  | _, _ => Raise (Builtin TypeError)
  end.

(** [Backend.ops] *)
Definition ops : list (string * (pyval -> pyval -> result bool)) :=
  [ (">", op_gt); ("gt", op_gt);
    ("<", op_lt); ("lt", op_lt);
    (">=", op_ge); ("ge", op_ge);
    ("<=", op_le); ("le", op_le);
    ("eq", op_eq); ("=", op_eq); ("==", op_eq);
    ("!=", op_ne); ("ne", op_ne);
    ("contains", op_contains) ].

Section Engine.
Variable get_close_matches : string -> list string -> list string.

Local Abbreviation mapper := (Datamodel.mapper get_close_matches).

  (** One iteration of the loop of [comparisonGenerator]: [Ok true] when
      the loop goes on to the next filter, [Ok false] when it sets
      [qualified = False] and breaks. *)
Definition check_filter (obj : DatamodelObject) (filt : valid_filter) : result bool :=
    match f_value filt with
    | None =>
        match f_values filt with
        | None => Ok false
        | Some values =>
            let* field := getitem (f_field filt) in
            let* v := mapper obj field in
            Ok (bool_decide (v ∈ values))
        end
    | Some value =>
        let* operator := getitem (f_operator filt) in
        let* op := getitem (dict_get (lower operator) ops) in
        let* field := getitem (f_field filt) in
        let* v := mapper obj field in
        op v value
    end.

Fixpoint comparison_loop (obj : DatamodelObject) (filters : list valid_filter)
    : result bool :=
    match filters with
    | [] => Ok true
    | filt :: filters' =>
        let* passed := check_filter obj filt in
        if passed then comparison_loop obj filters' else Ok false
    end.

  (** The two [except] clauses of [comparisonGenerator]. *)
Definition comparison_except (e : exn) : exn :=
    match e with
    | Builtin TypeError => BadInputTypeException
    | Builtin KeyError | Builtin AttributeError => BadFilterKeyException
    | _ => e
    end.

  (** [Backend.comparisonGenerator] *)
Definition comparisonGenerator (obj : DatamodelObject) (filters : list valid_filter)
    : result bool :=
    try_except (comparison_loop obj filters) comparison_except.

  (** The body of the loop of [filtersValidator] for one filter. *)
Definition validate (filt : raw_filter) : result valid_filter :=
    match f_field filt, f_operator filt with
    | Some field, Some operator =>
        match f_value filt, f_values filt with
        | Some _, Some _ =>
            Raise (BadRequestException
              "You can only specify one of value or values in one filter.")
        | Some value, None =>
            if String.eqb operator "in" then
              Raise (BadRequestException
                "You can only use the in operator when you supply a list of values in your filter, specify 'values' instead of 'value'.")
            else
              Ok {| f_field := Some field; f_operator := Some operator;
                    f_value := Some value; f_values := None |}
        | None, Some values =>
            if negb (String.eqb operator "in") then
              Raise (BadRequestException
                "If you specify a list of values in your filter, the operator has to be in.")
            else
              Ok {| f_field := Some field; f_operator := Some operator;
                    f_value := None; f_values := Some (list_to_set values) |}
        | None, None =>
            Raise (BadRequestException
              "You need to specify one of value or values in one filter.")
        end
    | _, _ =>
        Raise (BadRequestException
          "Please specify field and/or operator in your filters.")
    end.

Fixpoint validate_all (filters : list raw_filter) : result (list valid_filter) :=
    match filters with
    | [] => Ok []
    | filt :: filters' =>
        let* filt := validate filt in
        let* filters' := validate_all filters' in
        Ok (filt :: filters')
    end.

  (** [Backend.filtersValidator] *)
Definition filtersValidator (request : SearchRequest) : result (list valid_filter) :=
    validate_all (filters request).

  (** [Backend.getUserAccessTier] *)
Definition getUserAccessTier (dataset : Dataset) (access_map : gmap string Z)
    : result Z :=
    let dataset_name := getLocalId dataset in
    match access_map !! dataset_name with
    | Some tier => Ok tier
    | None => Raise (NotAuthorizedException "Not authorized to access this dataset")
    end.

  (** The scan [for obj in dataset.get...(): ...] of a search generator.
      The second component records, in order, the objects that were
      handed to [comparisonGenerator]. *)
Fixpoint scan (filters : list valid_filter) (objs results scanned : list DatamodelObject)
    : result (list DatamodelObject) * list DatamodelObject :=
    match objs with
    | [] => (Ok results, scanned)
    | obj :: objs' =>
        let scanned := (scanned ++ [obj])%list in
        match comparisonGenerator obj filters with
        | Raise e => (Raise e, scanned)
        | Ok qualified =>
            scan filters objs'
              (if qualified then (results ++ [obj])%list else results) scanned
        end
    end.

Section SearchGenerators.
Context {Elt : Type}.
Variable toProtocolElement : DatamodelObject -> Z -> Elt.
Variable repo : DataRepository.

    (** The common body of [patientsGenerator], [enrollmentsGenerator], ...
        which differ in the collection they read from the dataset only.
        Returns the generator (or the exception raised) together with the
        objects scanned against the filters. *)
Definition searchGenerator (collection : entity)
        (request : SearchRequest) (access_map : gmap string Z)
      : result (Paging.generator DatamodelObject Elt) * list DatamodelObject :=
      match getDataset repo (dataset_id request) with
      | Raise e => (Raise e, [])
      | Ok dataset =>
          match getUserAccessTier dataset access_map with
          | Raise e => (Raise e, [])
          | Ok tier =>
              match filtersValidator request with
              | Raise e => (Raise e, [])
              | Ok filters =>
                  match scan filters (ds_entities dataset collection) [] [] with
                  | (Raise e, scanned) => (Raise e, scanned)
                  | (Ok results, scanned) =>
                      (Ok (Paging._objectListGenerator toProtocolElement
                             request results tier), scanned)
                  end
              end
          end
      end.

Definition patientsGenerator := searchGenerator Patients.
Definition enrollmentsGenerator := searchGenerator Enrollments.
Definition consentsGenerator := searchGenerator Consents.
Definition diagnosesGenerator := searchGenerator Diagnoses.
Definition samplesGenerator := searchGenerator Samples.
Definition treatmentsGenerator := searchGenerator Treatments.
Definition outcomesGenerator := searchGenerator Outcomes.
Definition complicationsGenerator := searchGenerator Complications.
Definition tumourboardsGenerator := searchGenerator Tumourboards.
Definition chemotherapiesGenerator := searchGenerator Chemotherapies.
Definition radiotherapiesGenerator := searchGenerator Radiotherapies.
Definition surgeriesGenerator := searchGenerator Surgeries.
Definition immunotherapiesGenerator := searchGenerator Immunotherapies.
Definition celltransplantsGenerator := searchGenerator Celltransplants.
Definition slidesGenerator := searchGenerator Slides.
Definition studiesGenerator := searchGenerator Studies.
Definition labtestsGenerator := searchGenerator Labtests.
Definition extractionsGenerator := searchGenerator Extractions.
Definition sequencingGenerator := searchGenerator Sequencings.
Definition alignmentsGenerator := searchGenerator Alignments.
Definition variantCallingGenerator := searchGenerator VariantCallings.
Definition fusionDetectionGenerator := searchGenerator FusionDetections.
Definition expressionAnalysisGenerator := searchGenerator ExpressionAnalyses.
End SearchGenerators.
End Engine.

End FilterEngine.

(** ** The advanced query: logic, results, aggregation *)

Module Query.

(** The keys of [Backend.endpointMapper]. *)
Definition endpointMapper_keys : list string :=
  [ "patients"; "enrollments"; "consents"; "diagnoses"; "samples";
    "treatments"; "outcomes"; "complications"; "tumourboards"; "slides";
    "studies"; "labtests"; "surgeries"; "chemotherapies";
    "immunotherapies"; "radiotherapies"; "celltransplants" ].

(** [results_arr.sort(key=len)]: a stable sort by size. *)
Fixpoint insert_by_len (x : gset pyval) (l : list (gset pyval)) : list (gset pyval) :=
  match l with
  | [] => [x]
  | y :: l' =>
      if (size x <? size y)%nat then x :: y :: l' else y :: insert_by_len x l'
  end.

Definition sort_by_len (l : list (gset pyval)) : list (gset pyval) :=
  foldl (fun sorted x => insert_by_len x sorted) [] l.

(** The ['or'] branch: every id of every child set is added. *)
Definition or_branch (results_arr : list (gset pyval)) : gset pyval :=
  foldl (fun patient_set id_set => patient_set ∪ id_set) ∅ results_arr.

(** The ['and'] branch: the children are sorted by size, and an id of
    the first one is kept when it is in every other one;
    [results_arr[0]] on no children is an IndexError. *)
Definition and_branch (results_arr : list (gset pyval)) : result (gset pyval) :=
  match sort_by_len results_arr with
  | [] => Raise (Builtin IndexError)
  | first :: others =>
      Ok (filter (fun patient_id =>
                    forallb (fun s => bool_decide (patient_id ∈ s)) others = true)
                 first)
  end.

(** [logicHandler] on a string, which has a length and no keys. *)
Definition logic_of_str (s : string) : result (gset pyval) :=
  if (py_len s =? 1)%nat || (py_len s =? 2)%nat
  then Raise (Builtin AttributeError)
  else Raise (InvalidLogicException "Invalid number of keys").

(** What iterating over [logic[logic_key]] gives when it is not a list:
    a string yields its characters and a dict its keys, and the first
    of them is handed to [logicHandler]. *)
Definition iterate_scalar (v : json) : result (list (gset pyval)) :=
  match v with
  | JStr EmptyString | JDict [] => Ok []
  | JStr _ => Raise (Builtin AttributeError)
  | JDict ((k, _) :: _) => let* r := logic_of_str k in Ok [r]
  | _ => Raise (Builtin TypeError)
  end.

(** [sorted] strings and [','.join]. *)
Fixpoint insert_sorted (x : string) (l : list string) : list string :=
  match l with
  | [] => [x]
  | y :: l' => if String.leb x y then x :: y :: l' else y :: insert_sorted x l'
  end.

Definition sort_strings (l : list string) : list string :=
  foldr insert_sorted [] l.

Fixpoint strings_of (l : list json) : option (list string) :=
  match l with
  | [] => Some []
  | JStr s :: l' => cons s <$> strings_of l'
  | _ :: _ => None
  end.

(** The value a row contributes as a key of the counts: a list is
    sorted and comma-joined, which needs strings; a dict cannot be a
    key. *)
Definition bucket_key (v : json) : result json :=
  match v with
  | JList l =>
      match strings_of l with
      | Some strs => Ok (JStr (String.concat "," (sort_strings strs)))
      | None => Raise (Builtin TypeError)
      end
  | JDict _ => Raise (Builtin TypeError)
  | _ => Ok v
  end.

(** Equality of two scalar keys of a dict. *)
Definition key_eqb (a b : json) : bool :=
  match hashable a, hashable b with
  | Ok x, Ok y => bool_decide (x = y)
  | _, _ => false
  end.

(** [d[v] = 1] for a new key, [d[v] += 1] for one that is there. *)
Fixpoint bump (v : json) (d : list (json * Z)) : list (json * Z) :=
  match d with
  | [] => [(v, 1)]
  | (v', n) :: d' =>
      if key_eqb v v' then (v', n + 1) :: d' else (v', n) :: bump v d'
  end.

Definition counts := list (string * list (json * Z)).

(** A row of a response: the items of a JSON object. *)
Definition row := list (string * json).

(** The object a search, query or count response denotes: the rows
    under each table key, and the [nextPageToken] when the key is
    there. *)
Record response := {
  resp_tables : list (string * list row);
  resp_nextPageToken : option string
}.

(** An entry of the [results] list of a query. *)
Record results_spec := {
  rs_table : option string;
  rs_fields : option (list string)
}.

Definition count_item (field : list string) (field_value_counts : counts)
    (item : string * json) : result counts :=
  let '(k, v) := item in
  if bool_decide (k ∈ field) then
    let* v := bucket_key v in
    Ok (dict_set k (bump v (default [] (dict_get k field_value_counts)))
          field_value_counts)
  else Ok field_value_counts.

Fixpoint count_items (field : list string) (field_value_counts : counts)
    (items : row) : result counts :=
  match items with
  | [] => Ok field_value_counts
  | item :: items' =>
      let* field_value_counts := count_item field field_value_counts item in
      count_items field field_value_counts items'
  end.

Fixpoint count_entries (field : list string) (field_value_counts : counts)
    (entries : list row) : result counts :=
  match entries with
  | [] => Ok field_value_counts
  | entry :: entries' =>
      let* field_value_counts := count_items field field_value_counts entry in
      count_entries field field_value_counts entries'
  end.

(** The [try] block of [aggregationHandler]: the counts of the rows
    under [table], empty when the results have no such key. *)
Definition field_value_counts_of (table : string)
    (json_results : response) (field : list string) : result counts :=
  match
    (let* entries := getitem (dict_get table (resp_tables json_results)) in
     count_entries field [] entries)
  with
  | Raise (Builtin KeyError) => Ok []
  | r => r
  end.

(** The key [json.dumps] writes for a scalar key of a dict. *)
Definition dumps_key (v : json) : string :=
  match v with
  | JStr s => s
  | JNum z => str_of_int z
  | JBool true => "true"
  | JBool false => "false"
  | _ => "null"
  end.

(** The counts as the single row of a count response. *)
Definition row_of_counts (c : counts) : row :=
  (fun kv => (kv.1, JDict ((fun vn => (dumps_key vn.1, JNum vn.2)) <$> kv.2))) <$> c.

Section Handlers.
(** The differential-privacy parameter of the backend; only its truth
    value is looked at here. *)
Variable _dpEpsilon : option Z.

(** The search end points behind [endpointMapper]: from the name, the
    request and the access map to the response. *)
Variable runSearch : string -> SearchRequest -> gmap string Z -> result response.

Variable repo : DataRepository.

Definition dpEpsilon_set : bool :=
  match _dpEpsilon with
  | Some eps => negb (eps =? 0)
  | None => false
  end.

(** [Backend.countHelper]; the name [DP] it refers to when an epsilon is
    set is bound nowhere in the module. *)
Definition countHelper (table : string) (fv_counts : counts)
  : result (list (string * list row)) :=
  match fv_counts with
  | [] => Ok [(table, [])]
  | _ =>
      if dpEpsilon_set then Raise (Builtin NameError)
      else Ok [(table, [row_of_counts fv_counts])]
  end.

(** [Backend.aggregationHandler], on the parsed results. *)
Definition aggregationHandler (table : string)
    (json_results : response) (field : list string) : result response :=
  let table := if String.eqb table "variantsByGene" then "variants" else table in
  let* field_value_counts := field_value_counts_of table json_results field in
  let* agg_results := countHelper table field_value_counts in
  Ok {| resp_tables := agg_results;
        resp_nextPageToken := resp_nextPageToken json_results |}.

(** [{k: entry[k] for k in field if k in entry}] *)
Definition project (field : list string) (entry : row) : row :=
  foldl (fun field_obj k =>
           match dict_get k entry with
           | Some v => dict_set k v field_obj
           | None => field_obj
           end) [] field.

(** [Backend.fieldHandler], on the parsed results. *)
Definition fieldHandler (table : string)
    (json_results : response) (field : list string) : response :=
  let json_array := default [] (dict_get table (resp_tables json_results)) in
  let filtered_results :=
    List.filter (fun field_obj => negb (Nat.eqb (length field_obj) 0))
                (project field <$> json_array) in
  {| resp_tables :=
       match filtered_results with
       | [] => []
       | _ => [(table, filtered_results)]
       end;
     resp_nextPageToken :=
       if truthy_token (resp_nextPageToken json_results)
       then resp_nextPageToken json_results else None |}.

(** [Backend.resultsHandler]. The join keys [patient_list] are the
    elements of a set, in no particular order. The value returned is the
    object whose JSON text the method returns. *)
Definition resultsHandler (results : list results_spec)
    (patient_list : gset pyval) (dataset_id : string)
    (access_map : gmap string Z) (page_token : option string) (count : bool)
  : result response :=
  let* results0 := list_getitem results 0 in
  let table := rs_table results0 in
  let field := rs_fields results0 in
  if count && negb (from_option (fun l => negb (Nat.eqb (length l) 0)) false field) then
    Raise (MissingFieldNameException "Fields list required for count query")
  else
  match table with
  | None => Raise (MissingFieldNameException "table")
  | Some table =>
      if negb (bool_decide (table ∈ endpointMapper_keys)) then
        Raise (MissingFieldNameException "Invalid results table specified")
      else if bool_decide (size patient_list = 0%nat) then
        let table := if String.eqb table "variantsByGene" then "variants" else table in
        Ok {| resp_tables := [(table, [])]; resp_nextPageToken := None |}
      else
        let* results :=
          if String.eqb table "variantsByGene" || String.eqb table "variants" then
            (* [self.variantsResultsHandler] is defined nowhere *)
            Raise (Builtin AttributeError)
          else
            let request :=
              {| dataset_id := dataset_id;
                 page_size := 0;
                 page_token := if truthy_token page_token
                               then default EmptyString page_token
                               else EmptyString;
                 filters := [ {| f_field := Some "patientId";
                                 f_operator := Some "in";
                                 f_value := None;
                                 f_values := Some (elements patient_list) |} ] |} in
            runSearch table request access_map in
        let table := if String.eqb table "variantsByGene" then "variants" else table in
        let* results :=
          if count then aggregationHandler table results (default [] field)
          else if from_option (fun l => negb (Nat.eqb (length l) 0)) false field
          then Ok (fieldHandler table results (default [] field))
          else Ok results in
        match resp_tables results, resp_nextPageToken results with
        | [], None => Ok {| resp_tables := [(table, [])]; resp_nextPageToken := None |}
        | _, _ => Ok results
        end
  end.

(** [Backend.getAllPatientId] *)
Definition getAllPatientId (dataset_id : string) (access_map : gmap string Z)
  : result (list json) :=
  let request :=
    {| dataset_id := dataset_id; page_size := 0;
       page_token := EmptyString; filters := [] |} in
  let* all_pt := runSearch "patients" request access_map in
  let* patients := getitem (dict_get "patients" (resp_tables all_pt)) in
  (fix ids (pts : list row) : result (list json) :=
     match pts with
     | [] => Ok []
     | pt :: pts' =>
         let* id := getitem (dict_get "patientId" pt) in
         let* rest := ids pts' in
         Ok (id :: rest)
     end) patients.

(** [Backend.getResponsePatientId]; [Dataset] has no [getVariantSet]. *)
Definition getResponsePatientId (response : row) (dataset_id : string)
  : result json :=
  match dict_get "patientId" response with
  | Some patient_id => Ok patient_id
  | None =>
      match dict_get "variantSetId" response with
      | Some _ =>
          let* dataset := getDataset repo dataset_id in
          Raise (Builtin AttributeError)
      | None => Raise (BadRequestException EmptyString)
      end
  end.

(** [set(l)] for a list of objects. *)
Fixpoint set_of (l : list json) : result (gset pyval) :=
  match l with
  | [] => Ok ∅
  | v :: l' =>
      let* x := hashable v in
      let* s := set_of l' in
      Ok ({[x]} ∪ s)
  end.

(** The ['id'] branch of [logicHandler]. *)
Definition id_branch (responses : list (string * list row))
    (dataset_id : string) (access_map : gmap string Z)
    (id : json) (logic_negate : bool) : result (gset pyval) :=
  try_except
    (let* key := match id with
                 | JStr s => Ok s
                 | JList _ | JDict _ => Raise (Builtin TypeError)
                 | _ => Raise (Builtin KeyError)
                 end in
     let* rows := getitem (dict_get key responses) in
     let* id_set :=
       (fix collect (rows : list row) (id_set : gset pyval)
          : result (gset pyval) :=
          match rows with
          | [] => Ok id_set
          | response :: rows' =>
              let* patient_id := getResponsePatientId response dataset_id in
              let* x := hashable patient_id in
              collect rows' (id_set ∪ {[x]})
          end) rows ∅ in
     if logic_negate then
       let* id_list_all := getAllPatientId dataset_id access_map in
       let* all := set_of id_list_all in
       Ok (all ∖ id_set)
     else Ok id_set)
    (fun e => match e with
              | Builtin KeyError =>
                  InvalidLogicException "Given id does not match a component"
              | _ => e
              end).

(** The part of [logicHandler] after the keys have been looked at;
    [children] is the evaluation of the nodes under an operator key. *)
Definition logic_node (responses : list (string * list row))
    (dataset_id : string) (access_map : gmap string Z)
    (logic_key : string) (v : json) (logic_negate : bool)
    (children : result (list (gset pyval))) : result (gset pyval) :=
  if bool_decide (logic_key ∈ ["and"; "or"]) then
    let* results_arr := children in
    if String.eqb logic_key "or" then Ok (or_branch results_arr)
    else and_branch results_arr
  else if String.eqb logic_key "id" then
    id_branch responses dataset_id access_map v logic_negate
  else Raise (InvalidLogicException "Invalid key used").

(** [Backend.logicHandler]; the list it returns is the elements of the
    set [patient_set] in no particular order, and is used as a set. *)
Fixpoint logicHandler (logic : json)
    (responses : list (string * list row))
    (dataset_id : string) (access_map : gmap string Z) {struct logic}
  : result (gset pyval) :=
  let children (v : json) : result (list (gset pyval)) :=
    match v with
    | JList l =>
        (fix each (l : list json) : result (list (gset pyval)) :=
           match l with
           | [] => Ok []
           | logic_obj :: l' =>
               let* r := logicHandler logic_obj responses dataset_id access_map in
               let* rs := each l' in
               Ok (r :: rs)
           end) l
    | _ => iterate_scalar v
    end in
  match logic with
  | JDict [(logic_key, v)] =>
      logic_node responses dataset_id access_map logic_key v false (children v)
  | JDict [(k1, v1); (k2, v2)] =>
      if String.eqb k1 "id" && String.eqb k2 "negate" then
        logic_node responses dataset_id access_map "id" v1 (truthy v2) (children v1)
      else if String.eqb k1 "negate" && String.eqb k2 "id" then
        logic_node responses dataset_id access_map "id" v2 (truthy v1) (children v2)
      else Raise (InvalidLogicException "Invalid key combination")
  | JDict _ => Raise (InvalidLogicException "Invalid number of keys")
  | JList l =>
      if (length l =? 1)%nat || (length l =? 2)%nat
      then Raise (Builtin AttributeError)
      else Raise (InvalidLogicException "Invalid number of keys")
  | JStr s => logic_of_str s
  | _ => Raise (Builtin TypeError)
  end.

End Handlers.

End Query.

(** ** Text, base64 and JSON as the identifiers use them *)

Module Text.

Definition code (c : ascii) : N := N_of_ascii c.
Definition chr (n : N) : ascii := ascii_of_N n.

(** The characters with a role in the encoding, by code. *)
Definition dquote : ascii := chr 34.
Definition backslash : ascii := chr 92.
Definition equals : ascii := chr 61.

Definition is_code (n : N) (c : ascii) : bool := (code c =? n)%N.

Definition in_range (lo hi : N) (c : ascii) : bool :=
  ((lo <=? code c) && (code c <=? hi))%N.

Definition is_cont (c : ascii) : bool := in_range 128 191 c.

(** Strict UTF-8, as [bytes.decode('utf-8')] and [str.encode('utf-8')]
    accept it: shortest forms only, no surrogates, nothing above
    U+10FFFF. *)
Fixpoint utf8_valid (s : string) : bool :=
  match s with
  | EmptyString => true
  | String c0 s0 =>
      if (code c0 <? 128)%N then utf8_valid s0
      else
        match s0 with
        | String c1 s1 =>
            if in_range 194 223 c0 then is_cont c1 && utf8_valid s1
            else
              match s1 with
              | String c2 s2 =>
                  if in_range 224 239 c0 then
                    (if is_code 224 c0 then in_range 160 191 c1
                     else if is_code 237 c0 then in_range 128 159 c1
                     else is_cont c1)
                    && is_cont c2 && utf8_valid s2
                  else
                    match s2 with
                    | String c3 s3 =>
                        in_range 240 244 c0 &&
                        (if is_code 240 c0 then in_range 144 191 c1
                         else if is_code 244 c0 then in_range 128 143 c1
                         else is_cont c1)
                        && is_cont c2 && is_cont c3 && utf8_valid s3
                    | EmptyString => false
                    end
              | EmptyString => false
              end
        | EmptyString => false
        end
  end.

(** The bytes of the character with code point [cp]; a surrogate code
    point gets the three bytes of the same scheme, which [utf8_valid]
    rejects. *)
Definition utf8_of_code_point (cp : N) : string :=
  (if cp <? 128 then String (chr cp) EmptyString
   else if cp <? 2048 then
     String (chr (192 + cp / 64)) (String (chr (128 + cp mod 64)) EmptyString)
   else if cp <? 65536 then
     String (chr (224 + cp / 4096))
       (String (chr (128 + (cp / 64) mod 64))
          (String (chr (128 + cp mod 64)) EmptyString))
   else
     String (chr (240 + cp / 262144))
       (String (chr (128 + (cp / 4096) mod 64))
          (String (chr (128 + (cp / 64) mod 64))
             (String (chr (128 + cp mod 64)) EmptyString))))%N.

(** The characters of a text, each with its continuation bytes. *)
Fixpoint chars_of (s : string) : list string :=
  match s with
  | EmptyString => []
  | String c s' =>
      match chars_of s' with
      | w :: ws =>
          match s' with
          | String c' _ =>
              if is_cont c' then String c w :: ws
              else String c EmptyString :: w :: ws
          | EmptyString => [String c EmptyString]
          end
      | [] => [String c EmptyString]
      end
  end.

Definition is_ascii (s : string) : bool :=
  forallb (fun c => (code c <? 128)%N) (list_ascii_of_string s).

(** [s.replace(c, '')] for one character. *)
Fixpoint remove_char (x : ascii) (s : string) : string :=
  match s with
  | EmptyString => EmptyString
  | String c s' =>
      if Ascii.eqb c x then remove_char x s' else String c (remove_char x s')
  end.

End Text.

Module Base64.
Import Text.

(** The URL-safe alphabet. *)
Definition b64char (n : N) : ascii :=
  (if n <? 26 then chr (65 + n)
   else if n <? 52 then chr (71 + n)
   else if n <? 62 then chr (n - 4)
   else if n =? 62 then chr 45
   else chr 95)%N.

Fixpoint encode_bytes (l : list N) : string :=
  match l with
  | [] => EmptyString
  | [a] =>
      let n := (a * 16)%N in
      String (b64char (n / 64)) (String (b64char (n mod 64))
        (String equals (String equals EmptyString)))
  | [a; b] =>
      let n := (a * 1024 + b * 4)%N in
      String (b64char (n / 4096)) (String (b64char ((n / 64) mod 64))
        (String (b64char (n mod 64)) (String equals EmptyString)))
  | a :: b :: c :: rest =>
      let n := (a * 65536 + b * 256 + c)%N in
      String (b64char (n / 262144)) (String (b64char ((n / 4096) mod 64))
        (String (b64char ((n / 64) mod 64)) (String (b64char (n mod 64))
          (encode_bytes rest))))
  end.

(** [base64.urlsafe_b64encode] on the bytes of a string. *)
Definition urlsafe_b64encode (s : string) : string :=
  encode_bytes (code <$> list_ascii_of_string s).

(** The value of a character of either alphabet, after
    [urlsafe_b64decode] has translated [-] and [_] to [+] and [/]. *)
Definition b64val (c : ascii) : option N :=
  let n := code c in
  (if (65 <=? n) && (n <=? 90) then Some (n - 65)
   else if (97 <=? n) && (n <=? 122) then Some (n - 71)
   else if (48 <=? n) && (n <=? 57) then Some (n + 4)
   else if (n =? 43) || (n =? 45) then Some 62
   else if (n =? 47) || (n =? 95) then Some 63
   else None)%N.

(** [binascii.a2b_base64] in its default, lenient mode: characters
    outside the alphabet are skipped, a pad sequence that completes a
    quad ends the data, and leftover characters of an incomplete quad
    are an error. *)
Fixpoint a2b_base64 (s : string) (quad_pos leftchar pads : N) (out : list N)
  : result (list N) :=
  match s with
  | EmptyString =>
      if (quad_pos =? 0)%N then Ok out else Raise (Builtin BinasciiError)
  | String this_ch s' =>
      if Ascii.eqb this_ch equals then
        if (2 <=? quad_pos)%N then
          let pads := (pads + 1)%N in
          if (4 <=? quad_pos + pads)%N then Ok out
          else a2b_base64 s' quad_pos leftchar pads out
        else a2b_base64 s' quad_pos leftchar pads out
      else
        match b64val this_ch with
        | None => a2b_base64 s' quad_pos leftchar pads out
        | Some v =>
            (if quad_pos =? 0 then a2b_base64 s' 1 v 0 out
             else if quad_pos =? 1 then
               a2b_base64 s' 2 (v mod 16) 0 (out ++ [leftchar * 4 + v / 16])
             else if quad_pos =? 2 then
               a2b_base64 s' 3 (v mod 4) 0 (out ++ [leftchar * 16 + v / 4])
             else a2b_base64 s' 0 0 0 (out ++ [leftchar * 64 + v]))%N
        end
  end.

(** [base64.urlsafe_b64decode] on a [str]: text that is not ASCII is a
    plain ValueError, not a binascii.Error. *)
Definition urlsafe_b64decode (s : string) : result string :=
  if negb (is_ascii s) then Raise (Builtin ValueError)
  else
    let* bytes := a2b_base64 s 0 0 0 [] in
    Ok (string_of_list_ascii (chr <$> bytes)).

End Base64.

Module Json.
Import Text.

(** What [json.loads] returns; a number is kept as its literal. *)
#[warnings="-register-all"]
Inductive value :=
| Null
| Bool (b : bool)
| Number (literal : string)
| Str (s : string)
| Arr (items : list value)
| Obj (members : list (string * value)).

Inductive outcome (A : Type) :=
| Parsed (a : A) (rest : string)
| Invalid
| OutOfFuel.
Arguments Parsed {A} a rest.
Arguments Invalid {A}.
Arguments OutOfFuel {A}.

Definition is_ws (c : ascii) : bool :=
  is_code 32 c || is_code 9 c || is_code 10 c || is_code 13 c.

Fixpoint skip_ws (s : string) : string :=
  match s with
  | String c s' => if is_ws c then skip_ws s' else s
  | EmptyString => s
  end.

Definition hex_digit (c : ascii) : option N :=
  let n := code c in
  (if (48 <=? n) && (n <=? 57) then Some (n - 48)
   else if (65 <=? n) && (n <=? 70) then Some (n - 55)
   else if (97 <=? n) && (n <=? 102) then Some (n - 87)
   else None)%N.

Definition hex4 (h1 h2 h3 h4 : ascii) : option N :=
  match hex_digit h1, hex_digit h2, hex_digit h3, hex_digit h4 with
  | Some a, Some b, Some c, Some d => Some (((a * 16 + b) * 16 + c) * 16 + d)%N
  | _, _, _, _ => None
  end.

(** The character a one-letter escape stands for. *)
Definition simple_escape (c : ascii) : option ascii :=
  let n := code c in
  (if n =? 34 then Some (chr 34)
   else if n =? 92 then Some (chr 92)
   else if n =? 47 then Some (chr 47)
   else if n =? 98 then Some (chr 8)
   else if n =? 102 then Some (chr 12)
   else if n =? 110 then Some (chr 10)
   else if n =? 114 then Some (chr 13)
   else if n =? 116 then Some (chr 9)
   else None)%N.

Definition prepend (w : string) (r : option (string * string))
  : option (string * string) :=
  match r with
  | Some (content, rest) => Some ((w ++ content)%string, rest)
  | None => None
  end.

(** The content of a string literal after its opening quote, in strict
    mode: a control character is an error, and so is an unknown escape
    or a missing closing quote. A high surrogate escape followed by a
    low one is one character. *)
Fixpoint scanstring (s : string) : option (string * string) :=
  match s with
  | EmptyString => None
  | String c s1 =>
      if is_code 34 c then Some (EmptyString, s1)
      else if (code c <? 32)%N then None
      else if is_code 92 c then
        match s1 with
        | EmptyString => None
        | String e s2 =>
            match simple_escape e with
            | Some ch => prepend (String ch EmptyString) (scanstring s2)
            | None =>
                if is_code 117 e then
                  match s2 with
                  | String h1 (String h2 (String h3 (String h4 s3))) =>
                      match hex4 h1 h2 h3 h4 with
                      | None => None
                      | Some cp =>
                          let lone := prepend (utf8_of_code_point cp) (scanstring s3) in
                          if ((55296 <=? cp) && (cp <=? 56319))%N then
                            match s3 with
                            | String b (String u
                                (String g1 (String g2 (String g3 (String g4 s4))))) =>
                                if is_code 92 b && is_code 117 u then
                                  match hex4 g1 g2 g3 g4 with
                                  | None => None
                                  | Some cp2 =>
                                      if ((56320 <=? cp2) && (cp2 <=? 57343))%N then
                                        prepend
                                          (utf8_of_code_point
                                             (65536 + (cp - 55296) * 1024 + (cp2 - 56320))%N)
                                          (scanstring s4)
                                      else lone
                                  end
                                else lone
                            | _ => lone
                            end
                          else lone
                      end
                  | _ => None
                  end
                else None
            end
        end
      else prepend (String c EmptyString) (scanstring s1)
  end.

Definition is_digit (c : ascii) : bool := in_range 48 57 c.

Fixpoint span_digits (s : string) : string * string :=
  match s with
  | String c s' =>
      if is_digit c then let '(ds, rest) := span_digits s' in (String c ds, rest)
      else (EmptyString, s)
  | EmptyString => (EmptyString, s)
  end.

(** The longest prefix that is a number, with what follows it. *)
Definition scan_number (s : string) : option (string * string) :=
  let '(sign, s1) :=
    match s with
    | String c s' => if is_code 45 c then (String c EmptyString, s') else (EmptyString, s)
    | EmptyString => (EmptyString, s)
    end in
  match s1 with
  | String d s2 =>
      if is_digit d then
        let '(int_part, s3) :=
          if is_code 48 d then (String d EmptyString, s2)
          else let '(ds, r) := span_digits s2 in (String d ds, r) in
        let '(frac, s4) :=
          match s3 with
          | String p (String d' r) =>
              if is_code 46 p && is_digit d' then
                let '(ds, r') := span_digits r in (String p (String d' ds), r')
              else (EmptyString, s3)
          | _ => (EmptyString, s3)
          end in
        let '(exp, s5) :=
          match s4 with
          | String e r =>
              if is_code 101 e || is_code 69 e then
                match r with
                | String g r' =>
                    if is_digit g then
                      let '(ds, r'') := span_digits r' in (String e (String g ds), r'')
                    else if is_code 43 g || is_code 45 g then
                      match r' with
                      | String d'' r'' =>
                          if is_digit d'' then
                            let '(ds, r3) := span_digits r'' in
                            (String e (String g (String d'' ds)), r3)
                          else (EmptyString, s4)
                      | EmptyString => (EmptyString, s4)
                      end
                    else (EmptyString, s4)
                | EmptyString => (EmptyString, s4)
                end
              else (EmptyString, s4)
          | EmptyString => (EmptyString, s4)
          end in
        Some ((sign ++ int_part ++ frac ++ exp)%string, s5)
      else None
  | EmptyString => None
  end.

(** [s] after the prefix [w], when it starts with it. *)
Fixpoint after (w s : string) : option string :=
  match w, s with
  | EmptyString, _ => Some s
  | String a w', String b s' => if Ascii.eqb a b then after w' s' else None
  | String _ _, EmptyString => None
  end.

Definition set_member {A} (k : string) (v : A) (d : list (string * A))
  : list (string * A) :=
  if existsb (fun kv => String.eqb k kv.1) d
  then (fun kv => if String.eqb k kv.1 then (kv.1, v) else kv) <$> d
  else d ++ [(k, v)].

(** The values that are one token: the literals and the numbers. *)
Definition scan_literal (s : string) : option (value * string) :=
  match after "null" s, after "true" s, after "false" s with
  | Some r, _, _ => Some (Null, r)
  | _, Some r, _ => Some (Bool true, r)
  | _, _, Some r => Some (Bool false, r)
  | _, _, _ =>
      match after "NaN" s, after "Infinity" s, after "-Infinity" s with
      | Some r, _, _ => Some (Number "NaN", r)
      | _, Some r, _ => Some (Number "Infinity", r)
      | _, _, Some r => Some (Number "-Infinity", r)
      | _, _, _ =>
          match scan_number s with
          | Some (literal, r) => Some (Number literal, r)
          | None => None
          end
      end
  end.

(** The scanner: a value at the start of [s]. *)
Fixpoint scan_once (fuel : nat) (s : string) : outcome value :=
  match fuel with
  | O => OutOfFuel
  | S fuel' =>
      match s with
      | EmptyString => Invalid
      | String c s' =>
          if is_code 34 c then
            match scanstring s' with
            | Some (content, rest) => Parsed (Str content) rest
            | None => Invalid
            end
          else if is_code 123 c then
            match skip_ws s' with
            | String c1 r =>
                if is_code 125 c1 then Parsed (Obj []) r
                else scan_members fuel' (String c1 r) []
            | EmptyString => Invalid
            end
          else if is_code 91 c then
            match skip_ws s' with
            | String c1 r =>
                if is_code 93 c1 then Parsed (Arr []) r
                else scan_items fuel' (String c1 r) []
            | EmptyString => Invalid
            end
          else
            match scan_literal s with
            | Some (v, r) => Parsed v r
            | None => Invalid
            end
      end
  end

with scan_items (fuel : nat) (s : string) (items : list value) : outcome value :=
  match fuel with
  | O => OutOfFuel
  | S fuel' =>
      match scan_once fuel' s with
      | Parsed v rest =>
          match skip_ws rest with
          | String c r =>
              if is_code 93 c then Parsed (Arr (items ++ [v])) r
              else if is_code 44 c then scan_items fuel' (skip_ws r) (items ++ [v])
              else Invalid
          | EmptyString => Invalid
          end
      | Invalid => Invalid
      | OutOfFuel => OutOfFuel
      end
  end

with scan_members (fuel : nat) (s : string) (members : list (string * value))
  : outcome value :=
  match fuel with
  | O => OutOfFuel
  | S fuel' =>
      match s with
      | String q s1 =>
          if is_code 34 q then
            match scanstring s1 with
            | Some (key, rest) =>
                match skip_ws rest with
                | String colon r =>
                    if is_code 58 colon then
                      match scan_once fuel' (skip_ws r) with
                      | Parsed v rest' =>
                          let members := set_member key v members in
                          match skip_ws rest' with
                          | String c r' =>
                              if is_code 125 c then Parsed (Obj members) r'
                              else if is_code 44 c then
                                scan_members fuel' (skip_ws r') members
                              else Invalid
                          | EmptyString => Invalid
                          end
                      | Invalid => Invalid
                      | OutOfFuel => OutOfFuel
                      end
                    else Invalid
                | EmptyString => Invalid
                end
            | None => Invalid
            end
          else Invalid
      | EmptyString => Invalid
      end
  end.

(** [json.loads] on a [str]. Every failure of the decoder is a
    JSONDecodeError; the fuel given is never used up. The limits of the
    interpreter are left out: text nested deeper than the recursion
    limit is a RecursionError there, and an integer of more digits than
    the digit limit a ValueError. *)
Definition loads (s : string) : result value :=
  match scan_once (2 * String.length s + 2) (skip_ws s) with
  | Parsed v rest =>
      match skip_ws rest with
      | EmptyString => Ok v
      | String _ _ => Raise (Builtin JSONDecodeError)
      end
  | Invalid => Raise (Builtin JSONDecodeError)
  | OutOfFuel => Raise (Builtin RecursionError)
  end.

End Json.

(** ** Compound identifiers *)

Module CompoundId.
Import Text.

(** A subclass of [CompoundId], by its class attributes. *)
Record class := {
  fields : list string;
  containerIds : list (string * nat);
  differentiator : option string
}.

Definition differentiatorFieldName : string := "differentiator".

(** An instance: its class and the attributes [__init__] has set. *)
Record instance := {
  cls_of : class;
  attrs : list (string * string)
}.

Definition quoted (split : string) : string :=
  (String dquote split ++ String dquote EmptyString)%string.

(** [CompoundId.join] *)
Definition join (splits : list string) : string :=
  ("[" ++ String.concat "," (quoted <$> splits) ++ "]")%string.

(** [CompoundId.split] *)
Definition split (jsonString : string) : result Json.value :=
  Json.loads jsonString.

(** [CompoundId.encode]: every double quote gets a backslash before it. *)
Fixpoint encode (idString : string) : string :=
  match idString with
  | EmptyString => EmptyString
  | String c s' =>
      if Ascii.eqb c dquote then String backslash (String dquote (encode s'))
      else String c (encode s')
  end.

(** [CompoundId.decode]: every backslash-quote pair becomes a quote. *)
Fixpoint decode (encodedString : string) : string :=
  match encodedString with
  | EmptyString => EmptyString
  | String c s' =>
      match s' with
      | String c' s'' =>
          if Ascii.eqb c backslash && Ascii.eqb c' dquote
          then String dquote (decode s'')
          else String c (decode s')
      | EmptyString => String c EmptyString
      end
  end.

(** [CompoundId.obfuscate] *)
Definition obfuscate (idStr : string) : result string :=
  if utf8_valid idStr
  then Ok (remove_char equals (Base64.urlsafe_b64encode idStr))
  else Raise (Builtin UnicodeEncodeError).

(** ['A=='[(len(data) - 1) % 4:]] *)
Definition padding (data : string) : string :=
  match ((Z.of_nat (py_len data) - 1) mod 4)%Z with
  | 0%Z => String (chr 65) (String equals (String equals EmptyString))
  | 1%Z => String equals (String equals EmptyString)
  | 2%Z => String equals EmptyString
  | _ => EmptyString
  end.

(** [CompoundId.deobfuscate] *)
Definition deobfuscate (data : string) : result string :=
  let* decoded_data := Base64.urlsafe_b64decode (data ++ padding data)%string in
  if utf8_valid decoded_data then Ok decoded_data
  else Raise (ObjectWithIdNotFoundException decoded_data).

(** [getattr(self, f)]: an attribute of the instance, else the class
    attribute of that name when it is one whose value is text. *)
Definition getattr (self : instance) (f : string) : result string :=
  match dict_get f (attrs self) with
  | Some v => Ok v
  | None =>
      if String.eqb f "differentiator" then
        Ok (default "None" (differentiator (cls_of self)))
      else if String.eqb f "differentiatorFieldName" then Ok differentiatorFieldName
      else Raise (Builtin AttributeError)
  end.

Fixpoint getattrs (self : instance) (fs : list string) : result (list string) :=
  match fs with
  | [] => Ok []
  | f :: fs' =>
      let* v := getattr self f in
      let* vs := getattrs self fs' in
      Ok (v :: vs)
  end.

(** [l.index(x)] *)
Fixpoint index_of (x : string) (l : list string) : option nat :=
  match l with
  | [] => None
  | y :: l' => if String.eqb x y then Some 0%nat else S <$> index_of x l'
  end.

Fixpoint set_containers (self : instance) (cids : list (string * nat))
  : result instance :=
  match cids with
  | [] => Ok self
  | (idFieldName, prefix) :: cids' =>
      let* values := getattrs self (take (prefix + 1) (fields (cls_of self))) in
      let containerId := join values in
      let* obfuscated := obfuscate containerId in
      set_containers
        {| cls_of := cls_of self;
           attrs := dict_set idFieldName obfuscated (attrs self) |}
        cids'
  end.

(** [CompoundId.__init__]; the local ids are text. *)
Definition __init__ (cls : class) (parentCompoundId : option instance)
    (localIds : list string) : result instance :=
  let* inherited :=
    match parentCompoundId with
    | Some parent =>
        let parent_fields := fields (cls_of parent) in
        let* values := getattrs parent parent_fields in
        Ok (foldl (fun a fv => dict_set fv.1 fv.2 a) [] (zip parent_fields values),
            length parent_fields)
    | None => Ok ([], 0%nat)
    end in
  let '(attrs0, index) := inherited in
  let own_fields := drop index (fields cls) in
  let localIds :=
    match differentiator cls, index_of differentiatorFieldName own_fields with
    | Some d, Some differentiatorIndex =>
        take differentiatorIndex localIds ++ [d] ++ drop differentiatorIndex localIds
    | _, _ => localIds
    end in
  let attrs1 :=
    foldl (fun a fv => dict_set fv.1 (encode fv.2) a) attrs0
          (zip own_fields localIds) in
  if negb (Z.of_nat (length localIds)
           =? Z.of_nat (length (fields cls)) - Z.of_nat index)%Z
  then Raise (Builtin ValueError)
  else set_containers {| cls_of := cls; attrs := attrs1 |} (containerIds cls).

(** [CompoundId.__str__] *)
Definition __str__ (self : instance) : result string :=
  let* values := getattrs self (fields (cls_of self)) in
  let compoundIdStr := join values in
  obfuscate compoundIdStr.

(** [[cls.decode(split) for split in encodedSplits]]: a list gives its
    elements, which must be text to have [replace]; a string gives its
    characters and a dict its keys; nothing else can be iterated. *)
Fixpoint decode_items (items : list Json.value) : result (list string) :=
  match items with
  | [] => Ok []
  | Json.Str s :: items' =>
      let* rest := decode_items items' in
      Ok (decode s :: rest)
  | _ :: _ => Raise (Builtin AttributeError)
  end.

Definition decode_splits (encodedSplits : Json.value) : result (list string) :=
  match encodedSplits with
  | Json.Arr items => decode_items items
  | Json.Str s => Ok (decode <$> chars_of s)
  | Json.Obj members => Ok (decode <$> (fst <$> members))
  | _ => Raise (Builtin TypeError)
  end.

(** [CompoundId.parse] on a [str]. *)
Definition parse (cls : class) (compoundIdStr : string) : result instance :=
  let* deobfuscated :=
    try_except (deobfuscate compoundIdStr)
      (fun e => match e with
                | Builtin BinasciiError => ObjectWithIdNotFoundException compoundIdStr
                | _ => e
                end) in
  let* splits :=
    try_except
      (let* encodedSplits := split deobfuscated in
       decode_splits encodedSplits)
      (fun e => match e with
                | Builtin b =>
                    if is_ValueError b
                    then ObjectWithIdNotFoundException compoundIdStr else e
                | _ => e
                end) in
  let fieldsLength := Z.of_nat (length (fields cls)) in
  let* checked :=
    match differentiator cls with
    | Some _ =>
        match index_of differentiatorFieldName (fields cls) with
        | None => Raise (Builtin ValueError)
        | Some differentiatorIndex =>
            if (differentiatorIndex <? length splits)%nat
            then Ok (delete differentiatorIndex splits, (fieldsLength - 1)%Z)
            else Raise (ObjectWithIdNotFoundException compoundIdStr)
        end
    | None => Ok (splits, fieldsLength)
    end in
  let '(splits, fieldsLength) := checked in
  if negb (Z.of_nat (length splits) =? fieldsLength)%Z
  then Raise (ObjectWithIdNotFoundException compoundIdStr)
  else __init__ cls None splits.

(** The classes of the data model. *)
Definition DatasetCompoundId : class :=
  {| fields := ["dataset"];
     containerIds := [("dataset_id", 0%nat)];
     differentiator := None |}.

(** The subclasses of [DatasetCompoundId] all have this shape. *)
Definition entityCompoundId (name diff : string) : class :=
  {| fields := fields DatasetCompoundId ++ [differentiatorFieldName; name];
     containerIds := containerIds DatasetCompoundId ++ [((name ++ "_id")%string, 3%nat)];
     differentiator := Some diff |}.

Definition PatientCompoundId := entityCompoundId "patient" "pat".
Definition EnrollmentCompoundId := entityCompoundId "enrollment" "enr".
Definition ConsentCompoundId := entityCompoundId "consent" "con".
Definition DiagnosisCompoundId := entityCompoundId "diagnosis" "dia".
Definition SampleCompoundId := entityCompoundId "sample" "sam".
Definition TreatmentCompoundId := entityCompoundId "treatment" "tre".
Definition OutcomeCompoundId := entityCompoundId "outcome" "out".
Definition ComplicationCompoundId := entityCompoundId "complication" "com".
Definition TumourboardCompoundId := entityCompoundId "tumourboard" "tum".
Definition ChemotherapyCompoundId := entityCompoundId "chemotherapy" "che".
Definition RadiotherapyCompoundId := entityCompoundId "radiotherapy" "rad".
Definition SurgeryCompoundId := entityCompoundId "surgery" "sur".
Definition ImmunotherapyCompoundId := entityCompoundId "immunotherapy" "imm".
Definition CelltransplantCompoundId := entityCompoundId "celltransplant" "cel".
Definition SlideCompoundId := entityCompoundId "slide" "sli".
Definition StudyCompoundId := entityCompoundId "study" "stu".
Definition LabtestCompoundId := entityCompoundId "labtest" "lab".
Definition ExtractionCompoundId := entityCompoundId "extraction" "ext".
Definition SequencingCompoundId := entityCompoundId "sequencing" "seq".
Definition AlignmentCompoundId := entityCompoundId "alignment" "aln".
Definition VariantCallingCompoundId := entityCompoundId "variant_calling" "vac".
Definition FusionDetectionCompoundId := entityCompoundId "fusion_detection" "fdn".
Definition ExpressionAnalysisCompoundId := entityCompoundId "expression_analysis" "exa".

(** The field values of an instance, decoded: the local ids it was
    built from. *)
Definition field_values (self : instance) : result (list string) :=
  let* values := getattrs self (fields (cls_of self)) in
  Ok (decode <$> values).

End CompoundId.

(** ** Registries: the objects of a container by id and by name

    [Dataset] keeps, for each of its entity kinds, a list of ids in the
    order of insertion, a dict from id to object and a dict from name to
    object, with the same four methods on each ([addPatient],
    [getPatients], [getPatientByName], [getPatient], and so on);
    [AbstractDataRepository] keeps its datasets in the same way. *)

Module Registry.
Section Methods.
Context {Obj : Type}.

(** [obj.getId()], the string form of the object's compound id, and
    [obj.getName()] (for a dataset, [getLocalId()]). *)
Variable getId : Obj -> result string.
Variable getName : Obj -> string.

(** The two not-found errors of the kind of object. *)
Variable NotFoundException : string -> exn.
Variable NameNotFoundException : string -> exn.

Record registry := {
  _ids : list string;
  _idMap : gmap string Obj;
  _nameMap : gmap string Obj
}.

(** The state [__init__] sets up. *)
Definition empty : registry := {| _ids := []; _idMap := ∅; _nameMap := ∅ |}.

(** [addPatient], ..., [addDataset] *)
Definition add (self : registry) (obj : Obj) : result registry :=
  let* id_ := getId obj in
  Ok {| _idMap := <[id_ := obj]> (_idMap self);
        _ids := _ids self ++ [id_];
        _nameMap := <[getName obj := obj]> (_nameMap self) |}.

(** [[self._patientIdMap[id_] for id_ in self._patientIds]] *)
Fixpoint lookup_all (idMap : gmap string Obj) (ids : list string) : result (list Obj) :=
  match ids with
  | [] => Ok []
  | id_ :: ids' =>
      let* obj := getitem (idMap !! id_) in
      let* objs := lookup_all idMap ids' in
      Ok (obj :: objs)
  end.

(** [getPatients], ..., [getDatasets] *)
Definition getAll (self : registry) : result (list Obj) :=
  lookup_all (_idMap self) (_ids self).

(** [getNumDatasets] *)
Definition getNum (self : registry) : nat := length (_ids self).

(** [getPatientByName], ..., [getDatasetByName] *)
Definition getByName (self : registry) (name : string) : result Obj :=
  match _nameMap self !! name with
  | None => Raise (NameNotFoundException name)
  | Some obj => Ok obj
  end.

(** [getPatient], ..., [getDataset] *)
Definition get (self : registry) (id_ : string) : result Obj :=
  match _idMap self !! id_ with
  | None => Raise (NotFoundException id_)
  | Some obj => Ok obj
  end.

(** [getDatasetByIndex] *)
Definition getByIndex (self : registry) (index : Z) : result Obj :=
  let* id_ := list_getitem (_ids self) index in
  getitem (_idMap self !! id_).

End Methods.

Arguments registry : clear implicits.
End Registry.

(** ** The data repository and the search over its datasets *)

Module Datarepo.
Import Registry.

(** [Dataset.getId]: the string form of [DatasetCompoundId(None, localId)]. *)
Definition getId (dataset : Dataset) : result string :=
  let* _compoundId :=
    CompoundId.__init__ CompoundId.DatasetCompoundId None [getLocalId dataset] in
  CompoundId.__str__ _compoundId.

Section Repository.
(** [exceptions.DatasetNameNotFoundException] *)
Variable DatasetNameNotFoundException : string -> exn.

Definition AbstractDataRepository := registry Dataset.

Definition addDataset : AbstractDataRepository -> Dataset -> result AbstractDataRepository :=
  add getId getLocalId.
Definition getDatasets : AbstractDataRepository -> result (list Dataset) := getAll.
Definition getNumDatasets : AbstractDataRepository -> nat := getNum.
Definition getDataset : AbstractDataRepository -> string -> result Dataset :=
  get DatasetNotFoundException.
Definition getDatasetByIndex : AbstractDataRepository -> Z -> result Dataset := getByIndex.
Definition getDatasetByName : AbstractDataRepository -> string -> result Dataset :=
  getByName DatasetNameNotFoundException.

(** [getAuthzDatasetByIndex]: the dataset at the index, or [None] when
    its name is not in the access map. *)
Definition getAuthzDatasetByIndex (self : AbstractDataRepository) (index : Z)
    (access_map : gmap string Z) : result (option Dataset) :=
  let* id_ := list_getitem (_ids self) index in
  let* dataset := getitem (_idMap self !! id_) in
  let dataset_name := getLocalId dataset in
  Ok (if bool_decide (is_Some (access_map !! dataset_name)) then Some dataset else None).

(** The repository the rest of the backend reads: its id map. *)
Definition to_DataRepository (self : AbstractDataRepository) : DataRepository :=
  {| _datasetIdMap := _idMap self |}.

End Repository.
End Datarepo.

Module DatasetSearch.
Import Registry Datarepo.

Section Loop.
Context {G Elt : Type}.
(** One [next()] on the generator object. *)
Variable next : G -> result (option ((Elt * option string) * G)).
Variable isFull : Z -> list Elt -> bool.
Variable defaultPageSize : Z.

(** The loop of [Backend.runSearchRequest], over any generator. *)
Fixpoint fill (fuel : nat) (pageSize : Z) (g : G)
    (values : list Elt) (nextPageToken : option string)
  : option (result (Paging.SearchResponse Elt)) :=
  match fuel with
  | O => None
  | S fuel' =>
      match next g with
      | Raise e => Some (Raise e)
      | Ok None =>
          Some (Ok {| Paging.resp_values := values;
                      Paging.resp_nextPageToken := nextPageToken |})
      | Ok (Some ((obj, nextPageToken), g')) =>
          let values := (values ++ [obj])%list in
          if isFull pageSize values
          then Some (Ok {| Paging.resp_values := values;
                           Paging.resp_nextPageToken := nextPageToken |})
          else fill fuel' pageSize g' values nextPageToken
      end
  end.

(** [Backend.runSearchRequest] on a parsed request. *)
Definition runSearchRequest (fuel : nat) (request : SearchRequest)
    (objectGenerator : SearchRequest -> result G)
  : option (result (Paging.SearchResponse Elt)) :=
  let request :=
    if page_size request =? 0
    then set_page_size request defaultPageSize else request in
  if page_size request <? 0
  then Some (Raise (BadPageSizeException (page_size request)))
  else
    match objectGenerator request with
    | Raise e => Some (Raise e)
    | Ok g => fill fuel (page_size request) g [] None
    end.
End Loop.

Section Authz.
Context {Elt : Type}.
Variable toProtocolElement : Dataset -> Z -> Elt.

(** The generator object of [_topLevelAuthzDatasetGenerator], suspended
    with the given [currentIndex]. *)
Record generator := {
  gen_numObjects : Z;
  gen_getDatasetMethod : Z -> gmap string Z -> result (option Dataset);
  gen_access_map : gmap string Z;
  gen_currentIndex : Z
}.

Definition resume (g : generator) (currentIndex : Z) : generator :=
  {| gen_numObjects := gen_numObjects g;
     gen_getDatasetMethod := gen_getDatasetMethod g;
     gen_access_map := gen_access_map g;
     gen_currentIndex := currentIndex |}.

(** The [while] loop up to its next [yield]; [n] bounds the iterations
    left, which are at most the objects from [currentIndex] on. *)
Fixpoint advance (g : generator) (n : nat) (currentIndex : Z)
  : result (option ((Elt * option string) * generator)) :=
  match n with
  | O => Ok None
  | S n' =>
      if currentIndex <? gen_numObjects g then
        let* object_ := gen_getDatasetMethod g currentIndex (gen_access_map g) in
        let currentIndex := currentIndex + 1 in
        match object_ with
        | Some dataset => Ok (Some ((toProtocolElement dataset 0, None), resume g currentIndex))
        | None => advance g n' currentIndex
        end
      else Ok None
  end.

Definition next (g : generator) : result (option ((Elt * option string) * generator)) :=
  advance g (Z.to_nat (gen_numObjects g - gen_currentIndex g)) (gen_currentIndex g).

(** [Backend._topLevelAuthzDatasetGenerator]; the request is not looked
    at. *)
Definition _topLevelAuthzDatasetGenerator (request : SearchRequest) (numObjects : Z)
    (getDatasetMethod : Z -> gmap string Z -> result (option Dataset))
    (access_map : gmap string Z) : generator :=
  {| gen_numObjects := numObjects;
     gen_getDatasetMethod := getDatasetMethod;
     gen_access_map := access_map;
     gen_currentIndex := 0 |}.

(** [Backend.datasetsGenerator] *)
Definition datasetsGenerator (repo : AbstractDataRepository)
    (request : SearchRequest) (access_map : gmap string Z) : generator :=
  _topLevelAuthzDatasetGenerator request (Z.of_nat (getNumDatasets repo))
    (getAuthzDatasetByIndex repo) access_map.

(** [Backend.runSearchDatasets] on a parsed request. *)
Definition runSearchDatasets (isFull : Z -> list Elt -> bool) (defaultPageSize : Z)
    (repo : AbstractDataRepository) (fuel : nat) (request : SearchRequest)
    (access_map : gmap string Z) : option (result (Paging.SearchResponse Elt)) :=
  runSearchRequest next isFull defaultPageSize fuel request
    (fun request => Ok (datasetsGenerator repo request access_map)).

End Authz.
End DatasetSearch.

(** ** The get end points *)

Module GetRequests.
Import CompoundId.

(** The compound id class a get end point parses its argument with. The
    end points of chemotherapies, radiotherapies, surgeries,
    immunotherapies, cell transplants, slides, studies and lab tests name
    [datamodel.BiosampleCompoundId], which the module does not define. *)
Definition compoundIdClass (kind : entity) : option class :=
  match kind with
  | Patients => Some PatientCompoundId
  | Enrollments => Some EnrollmentCompoundId
  | Consents => Some ConsentCompoundId
  | Diagnoses => Some DiagnosisCompoundId
  | Samples => Some SampleCompoundId
  | Treatments => Some TreatmentCompoundId
  | Outcomes => Some OutcomeCompoundId
  | Complications => Some ComplicationCompoundId
  | Tumourboards => Some TumourboardCompoundId
  | Chemotherapies | Radiotherapies | Surgeries | Immunotherapies
  | Celltransplants | Slides | Studies | Labtests => None
  | Extractions => Some ExtractionCompoundId
  | Sequencings => Some SequencingCompoundId
  | Alignments => Some AlignmentCompoundId
  | VariantCallings => Some VariantCallingCompoundId
  | FusionDetections => Some FusionDetectionCompoundId
  | ExpressionAnalyses => Some ExpressionAnalysisCompoundId
  end.

Section Endpoints.
Context {Obj Elt : Type}.
(** [protocol.serialize(obj.toProtocolElement(tier), return_mimetype)] for
    an entity and for a dataset. *)
Variable serialize : Obj -> Z -> Elt.
Variable serialize_dataset : Dataset -> Z -> Elt.
(** [dataset.getPatient(id_)], ...: the entity of a kind with an id. *)
Variable getEntity : entity -> Dataset -> string -> result Obj.
Variable repo : DataRepository.

(** [Backend.runGetRequest] *)
Definition runGetRequest (obj : Obj) (tier : Z) : Elt := serialize obj tier.

(** [runGetPatient], [runGetEnrollment], ..., [runGetExpressionAnalysis]:
    the end point of a kind. The lookup of the class in [datamodel] is an
    AttributeError where there is no such class. *)
Definition runGet (kind : entity) (id_ : string) (access_map : gmap string Z)
  : result Elt :=
  let* cls := match compoundIdClass kind with
              | Some cls => Ok cls
              | None => Raise (Builtin AttributeError)
              end in
  let* compoundId := parse cls id_ in
  let* dataset_id := getattr compoundId "dataset_id" in
  let* dataset := Datamodel.getDataset repo dataset_id in
  let* tier := FilterEngine.getUserAccessTier dataset access_map in
  let* obj := getEntity kind dataset id_ in
  Ok (runGetRequest obj tier).

(** [Backend.runGetDataset] *)
Definition runGetDataset (id_ : string) (access_map : gmap string Z) : result Elt :=
  let* dataset := Datamodel.getDataset repo id_ in
  let* tier := FilterEngine.getUserAccessTier dataset access_map in
  Ok (serialize_dataset dataset tier).

End Endpoints.
End GetRequests.

(** ** Attributes and their tiers *)

Module Attributes.

(** [s.endswith(suffix)] *)
Definition endswith (s suffix : string) : bool :=
  let n := String.length s in
  let m := String.length suffix in
  (m <=? n)%nat && String.eqb (substring (n - m) m s) suffix.

(** [attrTierObj[0].get('int32Value', None)], for an [attrTierObj] that
    is not [None]. *)
Definition first_int32Value (attrTierObj : json) : result json :=
  match attrTierObj with
  | JList (JDict d :: _) => Ok (default JNull (dict_get "int32Value" d))
  | JList (_ :: _) => Raise (Builtin AttributeError)
  | JList [] => Raise (Builtin IndexError)
  | JStr EmptyString => Raise (Builtin IndexError)
  | JStr _ => Raise (Builtin AttributeError)
  | JDict _ => Raise (Builtin KeyError)
  | JNull | JBool _ | JNum _ => Raise (Builtin TypeError)
  end.

(** [tier < attrTier] for an [attrTier] that is not [None]. *)
Definition tier_lt (tier : Z) (attrTier : json) : result bool :=
  match attrTier with
  | JNum n => Ok (tier <? n)
  | JBool b => Ok (tier <? (if b then 1 else 0))
  | _ => Raise (Builtin TypeError)
  end.

(** [DatamodelObject.validateAttribute] *)
Definition validateAttribute (attribute_name : string)
    (attributes : list (string * json)) (tier : Z) : result bool :=
  if endswith attribute_name "Tier" then Ok false
  else
    let attrTierObj := default JNull (dict_get (attribute_name ++ "Tier") attributes) in
    match attrTierObj with
    | JNull => Ok false
    | _ =>
        let* attrTier := first_int32Value attrTierObj in
        match attrTier with
        | JNull => Ok false
        | _ =>
            let* below := tier_lt tier attrTier in
            Ok (negb below)
        end
    end.

(** [l[key]] for a [key] taken out of a list. *)
Definition item_of (l : list json) (key : json) : result json :=
  match key with
  | JNum i => list_getitem l i
  | JBool b => list_getitem l (if b then 1 else 0)
  | _ => Raise (Builtin TypeError)
  end.

Fixpoint items_of (l : list json) (keys : list json) : result (list json) :=
  match keys with
  | [] => Ok []
  | key :: keys' =>
      let* v := item_of l key in
      let* vs := items_of l keys' in
      Ok (v :: vs)
  end.

(** [for key in dictionary: values.append(dictionary[key])]: what one
    element of the attribute appends. *)
Definition appended (dictionary : json) : result (list json) :=
  match dictionary with
  | JDict d => Ok (snd <$> d)
  | JList l => items_of l l
  | JStr EmptyString => Ok []
  | JStr _ | JNull | JBool _ | JNum _ => Raise (Builtin TypeError)
  end.

Fixpoint appended_all (elements : list json) : result (list json) :=
  match elements with
  | [] => Ok []
  | dictionary :: elements' =>
      let* vs := appended dictionary in
      let* ws := appended_all elements' in
      Ok (vs ++ ws)
  end.

(** The two nested loops over [attributes[attribute_name]]. *)
Definition values_of (attribute : json) : result (list json) :=
  match attribute with
  | JList l => appended_all l
  | JDict d => appended_all (JStr <$> (fst <$> d))
  | JStr EmptyString => Ok []
  | JStr _ | JNull | JBool _ | JNum _ => Raise (Builtin TypeError)
  end.

(** The message is the list of the [protocol.setAttribute] calls made on
    it: the attribute's name and the values handed over. *)
Definition message := list (string * list json).

Fixpoint serialize_loop (attributes rest : list (string * json))
    (msg : message) (tier : Z) : result message :=
  match rest with
  | [] => Ok msg
  | (attribute_name, attribute) :: rest' =>
      let* valid := validateAttribute attribute_name attributes tier in
      if valid then
        let* values := values_of attribute in
        serialize_loop attributes rest' (msg ++ [(attribute_name, values)]) tier
      else serialize_loop attributes rest' msg tier
  end.

(** [DatamodelObject.serializeMetadataAttributes] *)
Definition serializeMetadataAttributes (attributes : list (string * json))
    (msg : message) (tier : Z) : result message :=
  serialize_loop attributes attributes msg tier.

End Attributes.

(** ** The components of an advanced query *)

Module Components.
Import Query.

(** [d[k] = x] on the items of a dict whose keys are any hashable
    values. *)
Fixpoint key_set {A} (k : pyval) (x : A) (d : list (pyval * A)) : list (pyval * A) :=
  match d with
  | [] => [(k, x)]
  | (k', y) :: d' =>
      if bool_decide (k = k') then (k', x) :: d' else (k', y) :: key_set k x d'
  end.

(** [d[k]] on such a dict. *)
Fixpoint key_get {A} (k : pyval) (d : list (pyval * A)) : option A :=
  match d with
  | [] => None
  | (k', y) :: d' => if bool_decide (k = k') then Some y else key_get k d'
  end.

(** [keyList.remove('id')]: the first occurrence is taken out, and there
    being none is a ValueError. *)
Fixpoint list_remove (x : string) (l : list string) : result (list string) :=
  match l with
  | [] => Raise (Builtin ValueError)
  | y :: l' =>
      if String.eqb x y then Ok l'
      else let* r := list_remove x l' in Ok (y :: r)
  end.

(** The [try] block of [componentsHandler]: [request] with the filters
    of the component when it has some. What ["filters" in body] means
    depends on the body: a key of a dict, an element of a list, a part
    of a string; the subscript that follows works on a dict only. *)
Definition with_filters (body : json) (request : row) : result row :=
  match body with
  | JDict d =>
      match dict_get "filters" d with
      | Some f => Ok (dict_set "filters" f request)
      | None => Ok request
      end
  | JList l =>
      if existsb (fun v => match v with JStr s => String.eqb s "filters" | _ => false end) l
      then Raise (Builtin TypeError) else Ok request
  | JStr s => if is_substring "filters" s then Raise (Builtin TypeError) else Ok request
  | JNull | JBool _ | JNum _ => Raise (Builtin TypeError)
  end.

(** The loop of [componentsHandler] over the components, which fills
    [requests] and [idMapper]. *)
Fixpoint plan (datasetId : json) (components : list row)
    (requests : list (pyval * row)) (idMapper : list (pyval * string))
  : result (list (pyval * row) * list (pyval * string)) :=
  match components with
  | [] => Ok (requests, idMapper)
  | component :: components' =>
      let keyList := fst <$> component in
      if negb (length keyList =? 2)%nat then
        Raise (MissingFieldNameException "Missing or invalid component fields")
      else
        let* keyList := list_remove "id" keyList in
        let* endpoint := list_getitem keyList 0 in
        let request := [("datasetId", datasetId)] in
        let* request :=
          try_except
            (let* body := getitem (dict_get endpoint component) in
             with_filters body request)
            (fun e => match e with
                      | Builtin KeyError => MissingFieldNameException "'filters'"
                      | _ => e
                      end) in
        let* id := getitem (dict_get "id" component) in
        let* key := hashable id in
        plan datasetId components'
          (key_set key request requests) (key_set key endpoint idMapper)
  end.

Section Caller.
(** The search end points behind [endpointMapper], from the request
    object to the response object: for a name that is a key of the
    mapper, [json.loads(self.endpointMapper[name](json.dumps(request),
    return_mimetype, access_map))]. *)
Variable endpoint : string -> row -> gmap string Z -> result response.

(** [self.endpointMapper[name](...)], with the KeyError of the mapper. *)
Definition call (name : string) (request : row) (access_map : gmap string Z)
  : result response :=
  if bool_decide (name ∈ endpointMapper_keys) then endpoint name request access_map
  else Raise (Builtin KeyError).

(** The [while nextToken] loop of [endpointCaller] for one key. *)
Fixpoint more_pages (fuel : nat) (name : string) (request : row)
    (access_map : gmap string Z) (rows : list row) (nextToken : option string)
  : option (result (list row)) :=
  match fuel with
  | O => None
  | S fuel' =>
      match nextToken with
      | Some (String c t) =>
          let request := dict_set "page_token" (JStr (String c t)) request in
          match call name request access_map with
          | Raise e => Some (Raise e)
          | Ok nextPageRequest =>
              match getitem (dict_get name (resp_tables nextPageRequest)) with
              | Raise e => Some (Raise e)
              | Ok rows' =>
                  more_pages fuel' name request access_map (rows ++ rows')
                    (resp_nextPageToken nextPageRequest)
              end
          end
      | _ => Some (Ok rows)
      end
  end.

(** The body of the [for key in requests] loop. *)
Definition call_one (fuel : nat) (name : string) (request : row)
    (access_map : gmap string Z) : option (result (list row)) :=
  match call name request access_map with
  | Raise e => Some (Raise e)
  | Ok responseObj =>
      let name := if String.eqb name "variantsByGene" then "variants" else name in
      let rows := default [] (dict_get name (resp_tables responseObj)) in
      more_pages fuel name request access_map rows (resp_nextPageToken responseObj)
  end.

(** [Backend.endpointCaller] *)
Fixpoint endpointCaller_loop (fuel : nat) (keys : list (pyval * row))
    (idMapper : list (pyval * string)) (access_map : gmap string Z)
    (responses : list (pyval * list row))
  : option (result (list (pyval * list row))) :=
  match keys with
  | [] => Some (Ok responses)
  | (key, request) :: keys' =>
      match getitem (key_get key idMapper) with
      | Raise e => Some (Raise e)
      | Ok name =>
          match call_one fuel name request access_map with
          | None => None
          | Some (Raise e) => Some (Raise e)
          | Some (Ok rows) =>
              endpointCaller_loop fuel keys' idMapper access_map
                (key_set key rows responses)
          end
      end
  end.

Definition endpointCaller (fuel : nat) (requests : list (pyval * row))
    (idMapper : list (pyval * string)) (access_map : gmap string Z)
  : option (result (list (pyval * list row))) :=
  endpointCaller_loop fuel requests idMapper access_map [].

(** [Backend.componentsHandler] *)
Definition componentsHandler (fuel : nat) (datasetId : json) (components : list row)
    (access_map : gmap string Z) : option (result (list (pyval * list row))) :=
  match plan datasetId components [] [] with
  | Raise e => Some (Raise e)
  | Ok (requests, idMapper) => endpointCaller fuel requests idMapper access_map
  end.

End Caller.
End Components.

(** * The specification's reading

    The notions the properties below are stated with: what the
    specification calls a well-formed filter, a passing object, the pair
    a generator yields, a bucket of an aggregation, and so on. *)

Module Spec.

(** A filter is well-formed iff it has field and operator, and exactly
    one of value and values, consistent with the operator: membership
    requires values, all other operators require value. *)
Definition well_formed {V} (f : filter_dict V) : bool :=
  match f_field f, f_operator f with
  | Some _, Some operator =>
      match f_value f, f_values f with
      | Some _, None => negb (String.eqb operator "in")
      | None, Some _ => String.eqb operator "in"
      | _, _ => false
      end
  | _, _ => false
  end.

(** The filter after validation: the values list has become a set. *)
Definition materialize (f : raw_filter) : valid_filter :=
  {| f_field := f_field f; f_operator := f_operator f;
     f_value := f_value f; f_values := list_to_set <$> f_values f |}.

Section Passes.
Variable get_close_matches : string -> list string -> list string.

(** An object passes a filter with a values set iff the mapped field
    value is a member of the set, and a filter with a scalar value iff
    the named binary operator applied to (mapped value, filter value)
    holds. *)
Definition passes (obj : DatamodelObject) (f : valid_filter) : Prop :=
  exists field v,
    f_field f = Some field /\
    Datamodel.mapper get_close_matches obj field = Ok v /\
    match f_values f, f_value f with
    | Some values, None => v ∈ values
    | None, Some value =>
        exists operator op,
          f_operator f = Some operator /\
          dict_get (lower operator) FilterEngine.ops = Some op /\
          op v value = Ok true
    | _, _ => False
    end.
End Passes.

(** The pair a generator yields at index [i]. *)
Definition yielded {Obj Elt} (g : Paging.generator Obj Elt) (fetch : Z -> Obj) (i : Z)
  : Elt * option string :=
  (Paging.gen_emit g (fetch i),
   if i + 1 <? Paging.gen_numObjects g then Some (str_of_int (i + 1)) else None).

(** The token that continues at index [s]. *)
Definition token_at (numObjects s : Z) : option string :=
  if s <? numObjects then Some (str_of_int s) else None.

(** A generator function that pages over [numObjects] objects fetched
    by a total [fetch], as the list generators of the backend do. *)
Definition pages_over {Obj Elt}
    (objectGenerator : SearchRequest -> result (Paging.generator Obj Elt))
    (numObjects : Z) (fetch : Z -> Obj) (emit : Obj -> Elt) : Prop :=
  forall request, exists g,
    objectGenerator request = Ok g /\
    Paging.gen_page_token g = page_token request /\
    Paging.gen_numObjects g = numObjects /\
    (forall i, Paging.gen_getByIndexMethod g i = Ok (fetch i)) /\
    Paging.gen_emit g = emit /\
    Paging.gen_state_of g = Paging.NotStarted.

(** The set a logic node evaluates to, when it does. *)
Definition key_set
    (runSearch : string -> SearchRequest -> gmap string Z -> result Query.response)
    (repo : DataRepository) (responses : list (string * list Query.row))
    (dataset_id : string) (access_map : gmap string Z) (logic : json) : gset pyval :=
  match Query.logicHandler runSearch repo logic responses dataset_id access_map with
  | Ok s => s
  | Raise _ => ∅
  end.

(** [not field]: no fields list, or an empty one. *)
Definition no_fields (field : option (list string)) : bool :=
  negb (from_option (fun l => negb (Nat.eqb (length l) 0)) false field).

(** The order of [sorted] on strings. *)
Definition str_le (s1 s2 : string) : Prop := String.leb s1 s2 = true.

(** The count recorded for key [v] in the counts of one field. *)
Fixpoint count_in (v : json) (d : list (json * Z)) : Z :=
  match d with
  | [] => 0
  | (v', n) :: d' => if Query.key_eqb v v' then n else count_in v d'
  end.

(** The bucket of value [v] under field [k]. *)
Definition bucket (c : Query.counts) (k : string) (v : json) : Z :=
  count_in v (default [] (dict_get k c)).

(** An item of a row falls into the bucket of [v] under [k]: it is the
    item of field [k], which is requested, and its value has the key
    [v]. *)
Definition hit (field : list string) (k : string) (v : json)
    (item : string * json) : bool :=
  bool_decide (item.1 = k) && bool_decide (k ∈ field) &&
  match Query.bucket_key item.2 with
  | Ok v' => Query.key_eqb v v'
  | Raise _ => false
  end.

Definition occurrences (field : list string) (k : string) (v : json)
    (entries : list Query.row) : Z :=
  Z.of_nat (length (List.filter (hit field k v) (concat entries))).

(** A value that can be counted: a scalar, or a list of strings. *)
Definition countable (v : json) : Prop :=
  match v with
  | JList l => exists strs : list string, l = JStr <$> strs
  | JDict _ => False
  | _ => True
  end.

(** The key a value is counted under: a scalar is its own key, and a
    list of strings has the key made of its strings in sorted order,
    joined by commas. *)
Definition key_of (v key : json) : Prop :=
  match v with
  | JList l =>
      exists strs sorted : list string,
        l = JStr <$> strs /\ sorted ≡ₚ strs /\ Sorted str_le sorted /\
        key = JStr (String.concat "," sorted)
  | JDict _ => False
  | _ => key = v
  end.

(** Two keys are one key of a dict: they are equal as Python values. *)
Definition same_key (a b : json) : Prop :=
  exists x, hashable a = Ok x /\ hashable b = Ok x.

(** The item of a row is an occurrence of the value counted under [key]
    in field [k]. *)
Definition occurrence (k : string) (key : json) (item : string * json) : Prop :=
  item.1 = k /\ exists key', key_of item.2 key' /\ same_key key key'.

(** The text of a key in the JSON object of the counts: a string as it
    is, a number in decimal, and [true], [false] and [null]. *)
Definition key_text (key : json) : string :=
  match key with
  | JStr s => s
  | JNum z => str_of_int z
  | JBool b => if b then "true" else "false"
  | _ => "null"
  end.

(** The counts of the fields as the row of a count response. *)
Definition counts_row (c : list (string * list (json * Z))) : list (string * json) :=
  (fun kd => (kd.1, JDict ((fun vn => (key_text vn.1, JNum vn.2)) <$> kd.2))) <$> c.

(** The counts of one field are in order: some key is counted, the keys
    are distinct as Python values, and every count is positive. *)
Definition counted (d : list (json * Z)) : Prop :=
  d <> [] /\
  exists xs : list pyval,
    Forall2 (fun (vn : json * Z) x => hashable vn.1 = Ok x) d xs /\
    NoDup xs /\ Forall (fun vn : json * Z => 0 < vn.2) d.

(** The counts of the fields are in order: each field once, with counts
    in order. *)
Definition tidy (c : list (string * list (json * Z))) : Prop :=
  NoDup c.*1 /\ Forall (fun kd : string * list (json * Z) => counted kd.2) c.

(** [str(cls(None, *values))] *)
Definition str_of_new (cls : CompoundId.class) (values : list string) : result string :=
  let* self := CompoundId.__init__ cls None values in
  CompoundId.__str__ self.

Section Identifiers.
Import Text Base64 CompoundId.

(** The base64 text of [l] once [obfuscate] has taken the padding off. *)
Definition core (l : list N) : string := remove_char equals (encode_bytes l).

(** The padding [urlsafe_b64encode] puts after [n] bytes. *)
Definition pad_for (n : nat) : string :=
  match (n mod 3)%nat with
  | 0%nat => EmptyString
  | 1%nat => String equals (String equals EmptyString)
  | _ => String equals EmptyString
  end.

(** Every element is a byte. *)
Definition bytes_ok (l : list N) : Prop := Forall (fun x => (x < 256)%N) l.

(** A local id without backslash and without control characters: the
    values the JSON text of [join] carries unchanged. *)
Definition plain (v : string) : bool :=
  forallb (fun c => (32 <=? code c)%N && negb (code c =? 92)%N) (list_ascii_of_string v).

(** The text between the brackets of [join]. *)
Definition items_text (vs : list string) : string :=
  String.concat "," (quoted <$> (encode <$> vs)).

(** What [parse] does once the text is decoded into its splits. *)
Definition of_splits (cls : class) (compoundIdStr : string) (splits : list string)
  : result instance :=
  let fieldsLength := Z.of_nat (length (fields cls)) in
  let* checked :=
    match differentiator cls with
    | Some _ =>
        match index_of differentiatorFieldName (fields cls) with
        | None => Raise (Builtin ValueError)
        | Some differentiatorIndex =>
            if (differentiatorIndex <? length splits)%nat
            then Ok (delete differentiatorIndex splits, (fieldsLength - 1)%Z)
            else Raise (ObjectWithIdNotFoundException compoundIdStr)
        end
    | None => Ok (splits, fieldsLength)
    end in
  let '(splits, fieldsLength) := checked in
  if negb (Z.of_nat (length splits) =? fieldsLength)%Z
  then Raise (ObjectWithIdNotFoundException compoundIdStr)
  else __init__ cls None splits.

(** The subclasses of [CompoundId] the data model declares. *)
Definition classes : list class :=
  [DatasetCompoundId; PatientCompoundId; EnrollmentCompoundId; ConsentCompoundId;
   DiagnosisCompoundId; SampleCompoundId; TreatmentCompoundId; OutcomeCompoundId;
   ComplicationCompoundId; TumourboardCompoundId; ChemotherapyCompoundId;
   RadiotherapyCompoundId; SurgeryCompoundId; ImmunotherapyCompoundId;
   CelltransplantCompoundId; SlideCompoundId; StudyCompoundId; LabtestCompoundId;
   ExtractionCompoundId; SequencingCompoundId; AlignmentCompoundId;
   VariantCallingCompoundId; FusionDetectionCompoundId; ExpressionAnalysisCompoundId].

End Identifiers.

(** ** Notions of the further properties *)

Section IdentifierNotions.
Import Text Base64 CompoundId.

(** A character of the URL-safe base64 alphabet. *)
Definition urlsafe (c : ascii) : bool :=
  (in_range 65 90 c || in_range 97 122 c || in_range 48 57 c
   || is_code 45 c || is_code 95 c).

(** Text over that alphabet. *)
Definition over_alphabet (s : string) : bool :=
  forallb urlsafe (list_ascii_of_string s).

(** The entity classes: the subclasses of [DatasetCompoundId]. *)
Definition entity_classes : list class := tail classes.

(** The number of local ids [__init__] takes without a parent. *)
Definition local_id_count (cls : class) : nat :=
  (length (fields cls) - match differentiator cls with Some _ => 1 | None => 0 end)%nat.

End IdentifierNotions.

(** The filter with its operator in lower case. *)
Definition lower_operator (f : valid_filter) : valid_filter :=
  {| f_field := f_field f; f_operator := lower <$> f_operator f;
     f_value := f_value f; f_values := f_values f |}.

(** The error classes [comparisonGenerator] is written to raise. *)
Definition filter_error (e : exn) : bool :=
  match e with
  | BadInputTypeException | BadFilterKeyException
  | BadFieldNameException _ _ | BadFieldNameNoCloseMatchException _ => true
  | _ => false
  end.

Section Qualified.
Import FilterEngine.
Variable get_close_matches : string -> list string -> list string.

(** The object is kept by the scan of a search generator. *)
Definition qualified (filters : list valid_filter) (obj : DatamodelObject) : bool :=
  match comparisonGenerator get_close_matches obj filters with
  | Ok true => true
  | _ => false
  end.
End Qualified.

(** A generator function that, for every request with the data set and
    the filters of [request0], pages over the list [objs]. *)
Definition pages_of_list {Obj Elt}
    (objectGenerator : SearchRequest -> result (Paging.generator Obj Elt))
    (request0 : SearchRequest) (objs : list Obj) (emit : Obj -> Elt) : Prop :=
  forall request,
    dataset_id request = dataset_id request0 ->
    filters request = filters request0 ->
    exists g,
      objectGenerator request = Ok g /\
      Paging.gen_page_token g = page_token request /\
      Paging.gen_numObjects g = Z.of_nat (length objs) /\
      (forall i, Paging.gen_getByIndexMethod g i = list_getitem objs i) /\
      Paging.gen_emit g = emit /\
      Paging.gen_state_of g = Paging.NotStarted.

(** [objectList[i]] where the index is in range, [d] elsewhere. *)
Definition item_at {A} (d : A) (l : list A) (i : Z) : A :=
  nth (Z.to_nat (if i <? 0 then i + Z.of_nat (length l) else i)) l d.

Section Known.
Import Query.
Variable runSearch : string -> SearchRequest -> gmap string Z -> result response.
Variable responses : list (string * list row).
Variable dataset_id : string.
Variable access_map : gmap string Z.

(** The join key [x] is the [patientId] of a row of some component's
    response. *)
Definition in_responses (x : pyval) : Prop :=
  exists key rows response v,
    (key, rows) ∈ responses /\ response ∈ rows /\
    dict_get "patientId" response = Some v /\ hashable v = Ok x.

(** The join key [x] is the id of a patient the user may see. *)
Definition in_patients (x : pyval) : Prop :=
  exists id_list_all v,
    getAllPatientId runSearch dataset_id access_map = Ok id_list_all /\
    v ∈ id_list_all /\ hashable v = Ok x.
End Known.

Section Carries.
Import Query.

(** Some row has a key that is in the fields list. *)
Definition carries (field : list string) (entries : list row) : bool :=
  existsb (fun entry : row => existsb (fun kv => bool_decide (kv.1 ∈ field)) entry) entries.

End Carries.

(** The datasets a request may see: those named in the access map. *)
Definition authorised (access_map : gmap string Z) (dataset : Dataset) : bool :=
  bool_decide (is_Some (access_map !! getLocalId dataset)).

(** The level an attribute is released at: the [int32Value] of the
    first element of its [...Tier] companion. *)
Definition release_level (attribute_name : string) (attributes : list (string * json))
  : option Z :=
  match dict_get (attribute_name ++ "Tier") attributes with
  | Some (JList (JDict d :: _)) =>
      match dict_get "int32Value" d with
      | Some (JNum n) => Some n
      | Some (JBool b) => Some (if b then 1 else 0)
      | _ => None
      end
  | _ => None
  end.

(** The attribute is released at the tier. *)
Definition released (attributes : list (string * json)) (tier : Z)
    (attribute_name : string) : bool :=
  negb (Attributes.endswith attribute_name "Tier") &&
  match release_level attribute_name attributes with
  | Some level => level <=? tier
  | None => false
  end.

(** The kinds whose get end point names a class that is not defined. *)
Definition classless : list entity :=
  [Chemotherapies; Radiotherapies; Surgeries; Immunotherapies;
   Celltransplants; Slides; Studies; Labtests].

(** A component of the expected shape: the two keys [id] and the name
    of a table, in either order, with a dict under the table. *)
Definition component_of (id : json) (name : string) (body : list (string * json))
    (component : Query.row) : Prop :=
  name <> "id" /\
  (component = [("id", id); (name, JDict body)] \/
   component = [(name, JDict body); ("id", id)]).

(** A component of that shape whose id can be the key of a dict. *)
Definition well_shaped (component : Query.row) : Prop :=
  exists id key name body, component_of id name body component /\ hashable id = Ok key.

(** No component of the list has the key [key] as its id. *)
Definition other_ids (key : pyval) (components : list Query.row) : Prop :=
  Forall (fun component => forall id, dict_get "id" component = Some id ->
                                      hashable id <> Ok key) components.


End Spec.

(** * Concrete inputs *)

Module Examples.
Import Text.

Definition no_close_matches : string -> list string -> list string := fun _ _ => [].

Definition example_patient : DatamodelObject :=
  {| _localId := "patient 1";
     _objectAttr := {[ "gender" := VStr "female"; "patientId" := VStr "p1" ]} |}.

Definition example_filters : list valid_filter :=
  [ {| f_field := Some "gender"; f_operator := Some "=="; 
       f_value := Some (VStr "female"); f_values := None |};
    {| f_field := Some "patientId"; f_operator := Some "in";
       f_value := None; f_values := Some {[ VStr "p1"; VStr "p2" ]} |} ].

Definition example_responses : list (string * list Query.row) :=
  [ ("A", [ [("patientId", JStr "p1")]; [("patientId", JStr "p2")] ]);
    ("B", [ [("patientId", JStr "p2")] ]) ].

Definition example_children : list json :=
  [ JDict [("id", JStr "A")]; JDict [("id", JStr "B")] ].

Definition example_sets : list (gset pyval) :=
  [ {[ VStr "p1"; VStr "p2" ]}; {[ VStr "p2" ]} ].

Definition example_repo : DataRepository := {| _datasetIdMap := ∅ |}.

(** End points that find nothing. *)
Definition no_search : string -> SearchRequest -> gmap string Z -> result Query.response :=
  fun _ _ _ => Ok {| Query.resp_tables := []; Query.resp_nextPageToken := None |}.

(** A dataset name that is one backslash, one that holds a backslash
    followed by the letter n, and one that holds a line feed. *)
Definition name_backslash : string := String backslash EmptyString.
Definition name_backslash_n : string :=
  String (chr 97) (String backslash (String (chr 110) (String (chr 98) EmptyString))).
Definition name_newline : string :=
  String (chr 97) (String (chr 10) (String (chr 98) EmptyString)).

(** An identifier that is not ASCII (the two bytes of U+00E9), and the
    base64 of [123]. *)
Definition id_not_ascii : string := String (chr 195) (String (chr 169) EmptyString).
Definition id_number : string := "MTIz".

(** The identifier of the dataset [ds], and of its patient [p 1]. *)
Definition example_dataset_id : CompoundId.instance :=
  {| CompoundId.cls_of := CompoundId.DatasetCompoundId;
     CompoundId.attrs := [("dataset", "ds"); ("dataset_id", "WyJkcyJd")] |}.

Definition example_patient_id : CompoundId.instance :=
  {| CompoundId.cls_of := CompoundId.PatientCompoundId;
     CompoundId.attrs :=
       [("dataset", "ds"); ("differentiator", "pat"); ("patient", "p 1");
        ("dataset_id", "WyJkcyJd"); ("patient_id", "WyJkcyIsInBhdCIsInAgMSJd")] |}.

Definition example_enrollment_id : CompoundId.instance :=
  {| CompoundId.cls_of := CompoundId.EnrollmentCompoundId;
     CompoundId.attrs :=
       [("dataset", "ds"); ("differentiator", "enr"); ("enrollment", "p 1");
        ("dataset_id", "WyJkcyJd"); ("enrollment_id", "WyJkcyIsImVuciIsInAgMSJd")] |}.

(** A filter whose operator is not one of [ops]. *)
Definition bad_operator_filter : valid_filter :=
  {| f_field := Some "gender"; f_operator := Some "~~";
     f_value := Some (VStr "female"); f_values := None |}.

(** A filter on a field the example patient has no getter for. *)
Definition bad_field_filter : valid_filter :=
  {| f_field := Some "sex"; f_operator := Some "==";
     f_value := Some (VStr "female"); f_values := None |}.

(** A dataset with one patient, the repository that holds it under its
    id, and a user with tier 4 on it. *)
Definition example_dataset : Dataset :=
  {| ds_localId := "ds"; ds_entities := fun _ => [example_patient] |}.

Definition example_data_repo : DataRepository :=
  {| _datasetIdMap := {[ "WyJkcyJd" := example_dataset ]} |}.

Definition example_access_map : gmap string Z := {[ "ds" := 4 ]}.

Definition example_request : SearchRequest :=
  {| dataset_id := "WyJkcyJd"; page_size := 1; page_token := EmptyString;
     filters := [ {| f_field := Some "gender"; f_operator := Some "==";
                     f_value := Some (VStr "female"); f_values := None |} ] |}.

(** A response builder that is full at the page size. *)
Definition full_at_page_size {Elt} (pageSize : Z) (values : list Elt) : bool :=
  pageSize <=? Z.of_nat (length values).

(** A patients end point that knows the patients [p1], [p2] and [p3],
    and one whose response has no [patients] key. *)
Definition three_patients : string -> SearchRequest -> gmap string Z -> result Query.response :=
  fun _ _ _ =>
    Ok {| Query.resp_tables :=
            [("patients", [ [("patientId", JStr "p1")]; [("patientId", JStr "p2")];
                            [("patientId", JStr "p3")] ])];
          Query.resp_nextPageToken := None |}.

(** The class of the error for an unknown name is a parameter of the
    registry; the instances below take this one. *)
Definition name_not_found (name : string) : exn := BadRequestException name.

(** [testAddOneDataset]: the dataset [ds] and the repository after it
    was added to the empty one. *)
Definition one_dataset_repo : Datarepo.AbstractDataRepository :=
  {| Registry._ids := ["WyJkcyJd"];
     Registry._idMap := <["WyJkcyJd" := example_dataset]> ∅;
     Registry._nameMap := <["ds" := example_dataset]> ∅ |}.

(** The attributes of an object: [age] is released from tier 1 on,
    [notes] has no level. *)
Definition example_attributes : list (string * json) :=
  [ ("age", JList [JDict [("stringValue", JStr "63")]]);
    ("ageTier", JList [JDict [("int32Value", JNum 1)]]);
    ("notes", JList [JDict [("stringValue", JStr "none")]]) ].

(** End points that answer with an empty response. *)
Definition empty_endpoint : string -> Query.row -> gmap string Z -> result Query.response :=
  fun _ _ _ => Ok {| Query.resp_tables := []; Query.resp_nextPageToken := None |}.

(** A component on the table [extractions], and one with a key too
    many. *)
Definition extractions_component : Query.row :=
  [("id", JStr "A"); ("extractions", JDict [("filters", JList [])])].

Definition three_key_component : Query.row :=
  [("id", JStr "B"); ("patients", JDict []); ("samples", JDict [])].

(** Two rows that hold the same strings in two orders; a row whose field
    holds a dict; and a row whose field holds a list with a number. *)
Definition two_orders : list Query.row :=
  [ [("sampleType", JList [JStr "b"; JStr "a"])];
    [("sampleType", JList [JStr "a"; JStr "b"])] ].

Definition dict_valued : list Query.row :=
  [ [("sampleType", JDict [("name", JStr "a")])] ].

Definition number_in_list : list Query.row :=
  [ [("sampleType", JList [JStr "a"; JNum 1])] ].

Definition samples_response (entries : list Query.row) : Query.response :=
  {| Query.resp_tables := [("samples", entries)]; Query.resp_nextPageToken := None |}.

End Examples.

(** * Properties *)

Import FilterEngine Spec Examples.

Section FilterProperties.
Variable get_close_matches : string -> list string -> list string.

Local Arguments dict_get : simpl never.

Local Abbreviation check_filter := (FilterEngine.check_filter get_close_matches).
Local Abbreviation comparison_loop := (FilterEngine.comparison_loop get_close_matches).
Local Abbreviation comparisonGenerator := (FilterEngine.comparisonGenerator get_close_matches).
Local Abbreviation passes := (Spec.passes get_close_matches).

Lemma check_filter_passes obj f :
  well_formed f = true ->
  check_filter obj f = Ok true <-> passes obj f.
Proof.
  unfold well_formed, FilterEngine.check_filter, Spec.passes.
  destruct f as [[field|] [operator|] [value|] [values|]]; simpl; try discriminate;
    intros Hwf.
  - destruct (dict_get (lower operator) ops) as [op|] eqn:Hop; simpl.
    + destruct (mapper get_close_matches obj field) as [v|e] eqn:Hm; simpl.
      * split.
        -- intros Hv. exists field, v. repeat split; try done.
           exists operator, op. auto.
        -- intros (field' & v' & Hf & Hm' & operator' & op' & Ho & Hop' & Hv).
           simplify_eq; congruence.
      * split; [discriminate|].
        intros (field' & v' & Hf & Hm' & _). simplify_eq; congruence.
    + split; [discriminate|].
      intros (field' & v' & _ & _ & operator' & op' & Ho & Hop' & _). simplify_eq; congruence.
  - destruct (mapper get_close_matches obj field) as [v|e] eqn:Hm; simpl.
    + split.
      * intros [= Hv]. apply bool_decide_eq_true in Hv. exists field, v. auto.
      * intros (field' & v' & Hf & Hm' & Hv). simplify_eq. f_equal.
        apply bool_decide_eq_true. congruence.
    + split; [discriminate|].
      intros (field' & v' & Hf & Hm' & _). simplify_eq; congruence.
Qed.

Lemma comparison_loop_true obj fs :
  Forall (fun f => well_formed f = true) fs ->
  comparison_loop obj fs = Ok true <-> Forall (passes obj) fs.
Proof.
  induction 1 as [|f fs Hwf _ IH]; simpl.
  - split; [constructor|done].
  - destruct (check_filter obj f) as [[]|e] eqn:Hc; simpl.
    + rewrite IH. split.
      * intros Hfs. constructor; [|done]. by apply check_filter_passes.
      * by inversion 1.
    + split; [discriminate|]. inversion 1 as [|? ? Hp _]; subst.
      apply check_filter_passes in Hp; [congruence|done].
    + split; [discriminate|]. inversion 1 as [|? ? Hp _]; subst.
      apply check_filter_passes in Hp; [congruence|done].
Qed.

Lemma comparisonGenerator_true obj fs :
  comparisonGenerator obj fs = Ok true <-> comparison_loop obj fs = Ok true.
Proof.
  unfold FilterEngine.comparisonGenerator, try_except.
  destruct (comparison_loop obj fs); split; congruence.
Qed.

Lemma comparison_loop_stops obj pre f rest :
  Forall (fun g => check_filter obj g = Ok true) pre ->
  check_filter obj f = Ok false ->
  comparison_loop obj (pre ++ f :: rest) = Ok false.
Proof.
  induction 1 as [|g pre Hg _ IH]; simpl; intros Hf.
  - by rewrite Hf.
  - rewrite Hg. simpl. by apply IH.
Qed.

(** C10. With the empty filter list [comparisonGenerator] returns True
    for every object, so a search that supplies no filters scans the
    whole collection and keeps every entity of it, in order. *)
Theorem comparisonGenerator_no_filters (obj : DatamodelObject) :
  comparisonGenerator obj [] = Ok true /\
  forall objs : list DatamodelObject,
    FilterEngine.scan get_close_matches [] objs [] [] = (Ok objs, objs).
Proof.
  split; [reflexivity|].
  assert (forall (objs results scanned : list DatamodelObject),
    FilterEngine.scan get_close_matches [] objs results scanned
    = (Ok (results ++ objs), scanned ++ objs))%list as H.
  { induction objs as [|o objs IH]; intros results scanned; simpl.
    - by rewrite !app_nil_r.
    - rewrite IH. by rewrite <- !app_assoc. }
  intros objs. apply (H objs [] []).
Qed.


End FilterProperties.

Section ValidatorProperties.
Variable get_close_matches : string -> list string -> list string.

Local Abbreviation filtersValidator := FilterEngine.filtersValidator.

Lemma validate_well_formed (filt : raw_filter) :
  (well_formed filt = true -> validate filt = Ok (materialize filt)) /\
  (well_formed filt = false -> exists msg, validate filt = Raise (BadRequestException msg)).
Proof.
  unfold well_formed, validate, materialize.
  destruct filt as [[field|] [operator|] [value|] [values|]]; simpl;
    try destruct (String.eqb operator "in"); simpl;
    split; intros; try discriminate; eauto.
Qed.

Lemma validate_all_ok (fs : list raw_filter) :
  Forall (fun f => well_formed f = true) fs ->
  validate_all fs = Ok (materialize <$> fs).
Proof.
  induction 1 as [|f fs Hf _ IH]; simpl; [done|].
  apply validate_well_formed in Hf. by rewrite Hf, IH.
Qed.

Lemma validate_all_raise (fs : list raw_filter) :
  ~ Forall (fun f => well_formed f = true) fs ->
  exists msg, validate_all fs = Raise (BadRequestException msg).
Proof.
  induction fs as [|f fs IH]; simpl; intros Hn.
  - destruct Hn. constructor.
  - destruct (well_formed f) eqn:Hf.
    + pose proof (proj1 (validate_well_formed f) Hf) as ->. simpl.
      destruct IH as [msg ->]; [|by exists msg].
      intros Hfs. apply Hn. by constructor.
    + destruct (proj2 (validate_well_formed f) Hf) as [msg ->]. by exists msg.
Qed.

(** C7. Validation succeeds iff every filter has field and operator and
    exactly one of value and values, with values present iff the
    operator is [in]; it then returns the filters with each values list
    turned into a set with the same members and no repetition. Any
    violation raises a bad-request error, and a search generator whose
    filters are rejected has scanned no object. *)
Theorem filtersValidator_well_formed (request : SearchRequest) :
  (Forall (fun f => well_formed f = true) (filters request) <->
   exists fs, filtersValidator request = Ok fs) /\
  (forall fs, filtersValidator request = Ok fs ->
     fs = materialize <$> filters request /\
     forall (i : nat) (f : raw_filter) (l : list pyval),
       filters request !! i = Some f -> f_values f = Some l ->
       exists s : gset pyval,
         (f_values <$> fs !! i) = Some (Some s) /\
         (forall v, v ∈ s <-> v ∈ l) /\ NoDup (elements s)) /\
  (~ Forall (fun f => well_formed f = true) (filters request) ->
   exists msg, filtersValidator request = Raise (BadRequestException msg)) /\
  (forall e, filtersValidator request = Raise e ->
   forall (Elt : Type) (toProtocolElement : DatamodelObject -> Z -> Elt)
          repo collection access_map,
   exists e', searchGenerator get_close_matches toProtocolElement repo
                collection request access_map = (Raise e', [])).
Proof.
  unfold FilterEngine.filtersValidator.
  destruct (decide (Forall (fun f => well_formed f = true) (filters request)))
    as [Hwf|Hwf].
  - pose proof (validate_all_ok _ Hwf) as Hok.
    split; [|split; [|split]].
    + split; eauto.
    + intros fs Hfs.
      assert (fs = materialize <$> filters request) as -> by congruence.
      split; [done|].
      intros i f l Hi Hl. exists (list_to_set l).
      rewrite list_lookup_fmap, Hi. simpl. rewrite Hl. simpl.
      split; [done|]. split; [intros v; apply elem_of_list_to_set|apply NoDup_elements].
    + done.
    + intros e He. congruence.
  - destruct (validate_all_raise _ Hwf) as [msg Hmsg].
    split; [|split; [|split]].
    + split; [done|]. intros [fs Hfs]. congruence.
    + intros fs Hfs. congruence.
    + eauto.
    + intros e He Elt tpe repo collection access_map.
      unfold searchGenerator, FilterEngine.filtersValidator.
      destruct (getDataset repo (dataset_id request)); [|eauto].
      destruct (getUserAccessTier a access_map); [|eauto].
      rewrite He. eauto.
Qed.

(** C9. When the dataset's local name is absent from the access map,
    [getUserAccessTier] raises the not-authorized error, and every search
    generator raises it having scanned no entity; when the name is
    present, the mapped tier is returned. *)
Theorem getUserAccessTier_gate (dataset : Dataset) (access_map : gmap string Z) :
  (access_map !! getLocalId dataset = None ->
   getUserAccessTier dataset access_map
   = Raise (NotAuthorizedException "Not authorized to access this dataset") /\
   forall (Elt : Type) (toProtocolElement : DatamodelObject -> Z -> Elt)
          repo collection request,
     getDataset repo (dataset_id request) = Ok dataset ->
     searchGenerator get_close_matches toProtocolElement repo
       collection request access_map
     = (Raise (NotAuthorizedException "Not authorized to access this dataset"), [])) /\
  (forall tier, access_map !! getLocalId dataset = Some tier ->
   getUserAccessTier dataset access_map = Ok tier).
Proof.
  unfold getUserAccessTier. split.
  - intros Hnone. rewrite Hnone. split; [done|].
    intros Elt tpe repo collection request Hds.
    unfold searchGenerator, getUserAccessTier. by rewrite Hds, Hnone.
  - by intros tier ->.
Qed.

End ValidatorProperties.

(** ** Page tokens *)

Lemma split_on_colon_uint (d : Decimal.uint) :
  Paging.split_on ":" (NilEmpty.string_of_uint d) = [NilEmpty.string_of_uint d].
Proof. induction d; simpl; [done|by rewrite IHd..]. Qed.

Lemma string_of_uint_nonnil (d : Decimal.uint) :
  d <> Decimal.Nil -> NilZero.string_of_uint d = NilEmpty.string_of_uint d.
Proof. by destruct d. Qed.

Lemma to_int_cases (z : Z) :
  exists d, d <> Decimal.Nil /\ (Z.to_int z = Decimal.Pos d \/ Z.to_int z = Decimal.Neg d).
Proof.
  destruct z as [|p|p]; simpl.
  - exists Decimal.zero. split; [done|by left].
  - exists (Pos.to_uint p). split; [apply DecimalPos.Unsigned.to_uint_nonnil|by left].
  - exists (Pos.to_uint p). split; [apply DecimalPos.Unsigned.to_uint_nonnil|by right].
Qed.

Lemma str_of_int_nonempty (z : Z) : exists c t, str_of_int z = String c t.
Proof.
  unfold str_of_int. destruct (to_int_cases z) as (d & Hd & [-> | ->]); simpl.
  - rewrite string_of_uint_nonnil by done. destruct d; simpl; try done; eauto.
  - eauto.
Qed.

Lemma int_of_str_of_int (z : Z) : int_of_str (str_of_int z) = Ok z.
Proof.
  unfold int_of_str, str_of_int.
  destruct (to_int_cases z) as (d & Hd & Hz).
  rewrite NilZero.isi.
  - by rewrite DecimalZ.of_to.
  - destruct Hz as [-> | ->]; congruence.
  - destruct Hz as [-> | ->]; congruence.
Qed.

Lemma split_on_colon_str_of_int (z : Z) :
  Paging.split_on ":" (str_of_int z) = [str_of_int z].
Proof.
  unfold str_of_int. destruct (to_int_cases z) as (d & Hd & [-> | ->]); simpl.
  - rewrite string_of_uint_nonnil by done. apply split_on_colon_uint.
  - rewrite string_of_uint_nonnil by done. by rewrite split_on_colon_uint.
Qed.

Lemma parsePageToken_str_of_int (z : Z) :
  Paging._parsePageToken (str_of_int z) 1 = Ok [z].
Proof.
  unfold Paging._parsePageToken. rewrite split_on_colon_str_of_int. simpl.
  by rewrite int_of_str_of_int.
Qed.

(** ** The generators *)

Section GeneratorProperties.
Context {Obj Elt : Type}.
Implicit Types g : Paging.generator Obj Elt.

Import Paging.

Lemma start_index_resume g s : start_index (resume g s) = Ok s.
Proof. reflexivity. Qed.

Lemma start_index_empty g :
  gen_state_of g = NotStarted -> gen_page_token g = EmptyString -> start_index g = Ok 0.
Proof. unfold start_index. by intros -> ->. Qed.

Lemma start_index_token g k :
  gen_state_of g = NotStarted -> gen_page_token g = str_of_int k ->
  start_index g = Ok k.
Proof.
  unfold start_index. intros -> ->.
  destruct (str_of_int_nonempty k) as (c & t & Hk).
  pose proof (parsePageToken_str_of_int k) as Hp. rewrite Hk in *.
  by rewrite Hp.
Qed.

Lemma next_step g fetch s :
  (forall i, gen_getByIndexMethod g i = Ok (fetch i)) ->
  start_index g = Ok s ->
  next g = if s <? gen_numObjects g
           then Ok (Some (yielded g fetch s, resume g (s + 1)))
           else Ok None.
Proof.
  intros Hf Hs. unfold next. rewrite Hs. simpl.
  destruct (s <? gen_numObjects g); [|done]. by rewrite Hf.
Qed.

Lemma drain_yields g fetch :
  (forall i, gen_getByIndexMethod g i = Ok (fetch i)) ->
  forall (fuel : nat) (s : Z),
    start_index g = Ok s ->
    (Z.to_nat (gen_numObjects g - s) < fuel)%nat ->
    drain fuel g
    = Some (Ok (yielded g fetch <$> seqZ s (gen_numObjects g - s))).
Proof.
  intros Hf fuel. revert g Hf.
  induction fuel as [|fuel IH]; intros g Hf s Hs Hfuel; [lia|].
  simpl. rewrite (next_step g fetch s Hf Hs).
  destruct (Z.ltb_spec s (gen_numObjects g)) as [Hlt|Hge].
  - rewrite (IH (resume g (s + 1)) Hf (s + 1)); [|done|simpl; lia].
    rewrite (seqZ_cons s) by lia. simpl.
    replace (Z.pred (gen_numObjects g - s)) with (gen_numObjects g - (s + 1)) by lia.
    replace (Z.succ s) with (s + 1) by lia.
    reflexivity.
  - by rewrite seqZ_nil by lia.
Qed.

Section PageProperties.
Variable isFull : Z -> list Elt -> bool.
Variable defaultPageSize : Z.

Local Abbreviation fill := (Paging.fill isFull).
Local Abbreviation runSearchRequest :=
  (Paging.runSearchRequest isFull defaultPageSize).
Local Abbreviation follow := (Paging.follow isFull defaultPageSize).
Local Abbreviation all_pages := (Paging.all_pages isFull defaultPageSize).

Lemma fill_page g fetch (pageSize : Z) :
  (forall i, gen_getByIndexMethod g i = Ok (fetch i)) ->
  forall (fuel : nat) (s : Z) (values : list Elt) (tok : option string),
    start_index g = Ok s ->
    (Z.to_nat (gen_numObjects g - s) < fuel)%nat ->
    exists k : Z,
      0 <= k /\ (s < gen_numObjects g -> 1 <= k /\ s + k <= gen_numObjects g) /\
      (gen_numObjects g <= s -> k = 0) /\
      fill fuel pageSize g values tok
      = Some (Ok {| resp_values :=
                      values ++ ((fun i => gen_emit g (fetch i)) <$> seqZ s k);
                    resp_nextPageToken :=
                      if k =? 0 then tok else token_at (gen_numObjects g) (s + k) |}).
Proof.
  intros Hf fuel. revert g Hf.
  induction fuel as [|fuel IH]; intros g Hf s values tok Hs Hfuel; [lia|].
  simpl. rewrite (next_step g fetch s Hf Hs).
  destruct (Z.ltb_spec s (gen_numObjects g)) as [Hlt|Hge].
  - unfold yielded. fold (token_at (gen_numObjects g) (s + 1)).
    destruct (isFull _ _).
    + exists 1. split; [lia|]. split; [lia|]. split; [lia|].
      by rewrite (seqZ_cons s), seqZ_nil by lia.
    + destruct (IH (resume g (s + 1)) Hf (s + 1)
                  (values ++ [gen_emit g (fetch s)])
                  (token_at (gen_numObjects g) (s + 1)))
        as (k & Hk0 & Hk1 & Hk2 & ->); [done|simpl; lia|].
      simpl in Hk1, Hk2.
      exists (k + 1). split; [lia|]. split; [lia|]. split; [lia|].
      simpl. rewrite (seqZ_cons s (k + 1)) by lia.
      replace (Z.pred (k + 1)) with k by lia.
      replace (Z.succ s) with (s + 1) by lia.
      rewrite <- app_assoc. simpl.
      replace (s + (k + 1)) with (s + 1 + k) by lia.
      destruct (Z.eqb_spec (k + 1) 0); [lia|].
      destruct (Z.eqb_spec k 0) as [->|Hk]; [|done].
      by rewrite Z.add_0_r.
  - exists 0. split; [lia|]. split; [lia|]. split; [lia|].
    by rewrite seqZ_nil, app_nil_r by lia.
Qed.

Lemma runSearchRequest_page (objectGenerator : SearchRequest -> result (generator Obj Elt))
    (numObjects : Z) (fetch : Z -> Obj) (emit : Obj -> Elt)
    (fuel : nat) (request : SearchRequest) (s : Z) :
  pages_over objectGenerator numObjects fetch emit ->
  0 <= page_size request -> (page_size request = 0 -> 0 <= defaultPageSize) ->
  (page_token request = EmptyString /\ s = 0 \/ page_token request = str_of_int s) ->
  (Z.to_nat (numObjects - s) < fuel)%nat ->
  exists k : Z,
    0 <= k /\ (s < numObjects -> 1 <= k /\ s + k <= numObjects) /\
    (numObjects <= s -> k = 0) /\
    runSearchRequest fuel request objectGenerator
    = Some (Ok {| resp_values := (fun i => emit (fetch i)) <$> seqZ s k;
                  resp_nextPageToken :=
                    if k =? 0 then None else token_at numObjects (s + k) |}).
Proof.
  intros Hog Hp Hd Htok Hfuel. unfold Paging.runSearchRequest.
  set (request' := if page_size request =? 0
                   then set_page_size request defaultPageSize else request).
  assert (page_token request' = page_token request) as Htok'.
  { unfold request'. by destruct (page_size request =? 0). }
  assert (0 <= page_size request') as Hp'.
  { unfold request'. destruct (Z.eqb_spec (page_size request) 0); simpl; auto. }
  destruct (Z.ltb_spec (page_size request') 0) as [|_]; [lia|].
  destruct (Hog request') as (g & -> & Hgt & HgN & Hgf & Hge & Hgs).
  assert (start_index g = Ok s) as Hs.
  { destruct Htok as [[Ht ->]|Ht].
    - apply start_index_empty; congruence.
    - apply start_index_token; congruence. }
  destruct (fill_page g fetch (page_size request') Hgf fuel s [] None Hs)
    as (k & Hk0 & Hk1 & Hk2 & ->); [by rewrite HgN|].
  rewrite HgN, Hge in *. exists k. done.
Qed.

Lemma follow_pages (objectGenerator : SearchRequest -> result (generator Obj Elt))
    (numObjects : Z) (fetch : Z -> Obj) (emit : Obj -> Elt) :
  pages_over objectGenerator numObjects fetch emit ->
  forall (fuel : nat) (s : Z) (request : SearchRequest) (responses : list Elt),
    0 <= page_size request -> (page_size request = 0 -> 0 <= defaultPageSize) ->
    (Z.to_nat (numObjects - s) + 1 < fuel)%nat ->
    follow fuel request objectGenerator responses (token_at numObjects s)
    = Some (Ok (responses ++ ((fun i => emit (fetch i)) <$> seqZ s (numObjects - s)))).
Proof.
  intros Hog fuel.
  induction fuel as [|fuel IH]; intros s request responses Hp Hd Hfuel; [lia|].
  simpl. unfold token_at at 1.
  destruct (Z.ltb_spec s numObjects) as [Hlt|Hge].
  - destruct (str_of_int_nonempty s) as (c & t & Hs). rewrite Hs.
    destruct (runSearchRequest_page objectGenerator numObjects fetch emit fuel
                (set_page_token request (String c t)) s Hog)
      as (k & Hk0 & Hk1 & Hk2 & ->); simpl; auto; [lia|].
    destruct (Hk1 Hlt) as [Hk3 Hk4].
    destruct (Z.eqb_spec k 0); [lia|].
    rewrite IH by (simpl; auto; lia).
    rewrite <- app_assoc, <- fmap_app, <- seqZ_app by lia.
    by replace (k + (numObjects - (s + k))) with (numObjects - s) by lia.
  - by rewrite seqZ_nil, app_nil_r by lia.
Qed.

Lemma all_pages_complete (objectGenerator : SearchRequest -> result (generator Obj Elt))
    (numObjects : Z) (fetch : Z -> Obj) (emit : Obj -> Elt)
    (fuel : nat) (request : SearchRequest) :
  pages_over objectGenerator numObjects fetch emit ->
  page_token request = EmptyString ->
  0 <= page_size request -> (page_size request = 0 -> 0 <= defaultPageSize) ->
  (Z.to_nat numObjects + 1 < fuel)%nat ->
  all_pages fuel request objectGenerator
  = Some (Ok ((fun i => emit (fetch i)) <$> seqZ 0 numObjects)).
Proof.
  intros Hog Htok Hp Hd Hfuel. unfold Paging.all_pages.
  destruct (runSearchRequest_page objectGenerator numObjects fetch emit fuel
              request 0 Hog)
    as (k & Hk0 & Hk1 & Hk2 & ->); auto; [lia|]. simpl.
  destruct (Z.eqb_spec k 0) as [->|Hk].
  - destruct fuel; [lia|]. simpl.
    destruct (Z.le_gt_cases numObjects 0); [by rewrite !seqZ_nil by lia|lia].
  - assert (0 < numObjects) as HN by lia. destruct (Hk1 HN) as [Hk3 Hk4].
    rewrite (follow_pages objectGenerator numObjects fetch emit Hog) by (auto; lia).
    rewrite <- fmap_app, <- seqZ_app by lia.
    by replace (k + (numObjects - (0 + k))) with numObjects by lia.
Qed.

End PageProperties.
End GeneratorProperties.

(** C4. For a total fetch function, the paging generators yield, from
    the offset the page token decodes to (0 for the empty token), the
    pair (object at index i, next token) for every i below the object
    count, the token being the decimal string of i+1, absent when i+1
    is the count. Hence following the returned tokens from the empty
    token until none is returned collects all objects once, in order,
    for every page size and whenever the response builder reports a
    full page. *)
Theorem paging_generator_coverage {Obj Elt : Type}
    (toProtocolElement : Obj -> Z -> Elt) (fetch : Z -> Obj)
    (isFull : Z -> list Elt -> bool) (defaultPageSize : Z)
    (numObjects tier : Z) (request : SearchRequest) :
  let top r := Paging._topLevelObjectGenerator toProtocolElement r numObjects
                 (fun i => Ok (fetch i)) tier in
  let proto r := Paging._protocolObjectGenerator r numObjects
                   (fun i => Ok (toProtocolElement (fetch i) tier)) in
  let pair i := (toProtocolElement (fetch i) tier,
                 if i + 1 <? numObjects then Some (str_of_int (i + 1)) else None) in
  (page_token request = EmptyString ->
   Paging.start_index (top request) = Ok 0 /\
   Paging.start_index (proto request) = Ok 0) /\
  (forall k, page_token request = str_of_int k ->
   Paging.start_index (top request) = Ok k /\
   Paging.start_index (proto request) = Ok k) /\
  (forall (s : Z) (fuel : nat),
   Paging.start_index (top request) = Ok s ->
   (Z.to_nat (numObjects - s) < fuel)%nat ->
   Paging.drain fuel (top request)
   = Some (Ok (pair <$> seqZ s (numObjects - s))) /\
   Paging.drain fuel (proto request)
   = Some (Ok (pair <$> seqZ s (numObjects - s)))) /\
  (forall fuel : nat,
   page_token request = EmptyString -> 0 <= page_size request ->
   (page_size request = 0 -> 0 <= defaultPageSize) ->
   (Z.to_nat numObjects + 1 < fuel)%nat ->
   Paging.all_pages isFull defaultPageSize fuel request
     (fun r => Ok (top r))
   = Some (Ok ((fun i => toProtocolElement (fetch i) tier) <$> seqZ 0 numObjects)) /\
   Paging.all_pages isFull defaultPageSize fuel request
     (fun r => Ok (proto r))
   = Some (Ok ((fun i => toProtocolElement (fetch i) tier) <$> seqZ 0 numObjects))).
Proof.
  intros top proto pair. split; [|split; [|split]].
  - intros Htok. split; by apply start_index_empty.
  - intros k Htok. split; by apply start_index_token.
  - intros s fuel Hs Hfuel. split.
    + exact (drain_yields (top request) fetch (fun _ => eq_refl) fuel s Hs Hfuel).
    + exact (drain_yields (proto request)
               (fun i => toProtocolElement (fetch i) tier)
               (fun _ => eq_refl) fuel s Hs Hfuel).
  - intros fuel Htok Hp Hd Hfuel. split.
    + apply (all_pages_complete isFull defaultPageSize
               (fun r => Ok (top r)) numObjects fetch
               (fun o => toProtocolElement o tier)); try done.
      intros r. exists (top r). done.
    + apply (all_pages_complete isFull defaultPageSize
               (fun r => Ok (proto r)) numObjects
               (fun i => toProtocolElement (fetch i) tier) (fun o => o)); try done.
      intros r. exists (proto r). done.
Qed.

(** ** The logic tree *)

Section LogicProperties.
Import Query.

Lemma insert_by_len_perm x l : insert_by_len x l ≡ₚ x :: l.
Proof.
  induction l as [|y l IH]; simpl; [done|].
  destruct (size x <? size y)%nat; [done|].
  rewrite IH. apply Permutation_swap.
Qed.

Lemma sort_by_len_perm l : sort_by_len l ≡ₚ l.
Proof.
  unfold sort_by_len.
  assert (forall acc, foldl (fun sorted x => insert_by_len x sorted) acc l ≡ₚ acc ++ l) as H.
  { induction l as [|x l IH]; intros acc; simpl.
    - by rewrite app_nil_r.
    - rewrite IH, insert_by_len_perm. simpl. apply Permutation_middle. }
  apply (H []).
Qed.

Lemma and_branch_spec (results_arr : list (gset pyval)) :
  results_arr <> [] ->
  exists r, and_branch results_arr = Ok r /\
            forall p, p ∈ r <-> forall s, s ∈ results_arr -> p ∈ s.
Proof.
  intros Hne. unfold and_branch.
  pose proof (sort_by_len_perm results_arr) as Hperm.
  destruct (sort_by_len results_arr) as [|first others] eqn:Hsort.
  - apply Permutation_nil_l in Hperm. congruence.
  - eexists. split; [done|]. intros p.
    rewrite elem_of_filter, forallb_forall.
    setoid_rewrite <- Hperm. setoid_rewrite elem_of_cons.
    split.
    + intros [Hall Hfirst] s [->|Hs]; [done|].
      apply (bool_decide_eq_true_1 (p ∈ s)), Hall. by apply list_elem_of_In.
    + intros Hall. split; [|by apply Hall; left].
      intros s Hs. apply (bool_decide_eq_true_2 (p ∈ s)), Hall. right.
      by apply list_elem_of_In.
Qed.

Lemma and_branch_perm (l1 l2 : list (gset pyval)) :
  l1 ≡ₚ l2 -> and_branch l1 = and_branch l2.
Proof.
  intros Hperm. destruct l1 as [|x l1].
  - apply Permutation_nil_l in Hperm. by subst.
  - assert (l2 <> []) as Hne2.
    { intros ->. by apply Permutation_nil_r in Hperm. }
    destruct (and_branch_spec (x :: l1)) as (r1 & -> & H1); [done|].
    destruct (and_branch_spec l2 Hne2) as (r2 & -> & H2).
    f_equal. apply set_eq. intros p. rewrite H1, H2.
    by setoid_rewrite Hperm.
Qed.

Variable runSearch : string -> SearchRequest -> gmap string Z -> result response.
Variable repo : DataRepository.
Variable responses : list (string * list row).
Variable dataset_id : string.
Variable access_map : gmap string Z.

Local Abbreviation eval :=
  (fun logic => logicHandler runSearch repo logic responses dataset_id access_map).
Local Abbreviation key_set :=
  (Spec.key_set runSearch repo responses dataset_id access_map).

Lemma and_node (children : list json) :
  Forall (fun c => exists s, eval c = Ok s) children ->
  eval (JDict [("and", JList children)]) = and_branch (key_set <$> children).
Proof.
  intros Hall. simpl. unfold logic_node. simpl.
  match goal with
  | |- (let* results_arr := ?each children in _) = _ =>
      assert (each children = Ok (key_set <$> children)) as ->
  end; [|done].
  induction Hall as [|c cs [s Hs] _ IH]; simpl; [done|].
  rewrite IH. unfold key_set. by rewrite Hs.
Qed.

Lemma key_sets_of (children : list json) (sets : list (gset pyval)) :
  Forall2 (fun c s => eval c = Ok s) children sets ->
  Forall (fun c => exists s, eval c = Ok s) children /\
  key_set <$> children = sets.
Proof.
  induction 1 as [|c s cs ss Hc _ [IH1 IH2]]; simpl; [done|]. split.
  - constructor; eauto.
  - unfold key_set at 1. rewrite Hc. by f_equal.
Qed.

(** C1. For a non-empty list of child nodes that evaluate to key-sets,
    an [and] node evaluates to the set of the keys that are in every
    child's set, the intersection, and to the same set under every
    permutation of the children. *)
Theorem and_is_intersection (children : list json) (sets : list (gset pyval)) :
  children <> [] ->
  Forall2 (fun c s => eval c = Ok s) children sets ->
  (exists r, eval (JDict [("and", JList children)]) = Ok r /\
             forall p, p ∈ r <-> forall s, s ∈ sets -> p ∈ s) /\
  (forall children', children' ≡ₚ children ->
     eval (JDict [("and", JList children')]) = eval (JDict [("and", JList children)])).
Proof.
  intros Hne Hall.
  destruct (key_sets_of children sets Hall) as [Hok Hsets].
  split.
  - rewrite and_node by done. rewrite Hsets.
    apply and_branch_spec. intros ->. destruct children; [done|discriminate].
  - intros children' Hperm.
    rewrite !and_node; [|done|by rewrite Hperm].
    apply and_branch_perm. by rewrite Hperm.
Qed.

End LogicProperties.

(** ** The results handler *)

Section ResultsProperties.
Import Query.

Variable _dpEpsilon : option Z.
Variable runSearch : string -> SearchRequest -> gmap string Z -> result response.

Local Abbreviation resultsHandler := (Query.resultsHandler _dpEpsilon runSearch).

(** C5, as the code has it. When the join-key set is empty and
    [results[0].table] is a key of [endpointMapper], the response is
    [{table: []}] with no next-page token, whatever [results[0].fields]
    is, unless the query is a count query without fields, which raises
    the missing-field error before the join keys are looked at. *)
Theorem resultsHandler_empty_join (results0 : results_spec) (rest : list results_spec)
    (table dataset_id : string) (access_map : gmap string Z)
    (page_token : option string) (count : bool) :
  rs_table results0 = Some table ->
  table ∈ endpointMapper_keys ->
  (count && no_fields (rs_fields results0) = false ->
   resultsHandler (results0 :: rest) ∅ dataset_id access_map page_token count
   = Ok {| resp_tables := [(table, [])]; resp_nextPageToken := None |}) /\
  (count && no_fields (rs_fields results0) = true ->
   resultsHandler (results0 :: rest) ∅ dataset_id access_map page_token count
   = Raise (MissingFieldNameException "Fields list required for count query")).
Proof.
  intros Htable Hin. unfold Query.resultsHandler, no_fields. simpl.
  rewrite Htable. split; intros ->; [|done].
  rewrite bool_decide_eq_true_2 by done. simpl.
  assert (table <> "variantsByGene") as Hne.
  { intros ->. revert Hin. unfold endpointMapper_keys.
    rewrite !elem_of_cons, elem_of_nil. intros H.
    repeat (destruct H as [H|H]; [discriminate|]). done. }
  apply String.eqb_neq in Hne. by rewrite Hne.
Qed.

End ResultsProperties.

Lemma resultsHandler_empty_join_counterexample :
  Query.resultsHandler None no_search
    [ {| Query.rs_table := Some "variantsByGene"; Query.rs_fields := None |} ]
    ∅ "dataset1" ∅ None false
  = Raise (MissingFieldNameException "Invalid results table specified") /\
  Query.resultsHandler None no_search
    [ {| Query.rs_table := Some "patients"; Query.rs_fields := None |} ]
    ∅ "dataset1" ∅ None true
  = Raise (MissingFieldNameException "Fields list required for count query").
Proof. split; reflexivity. Qed.

Lemma resultsHandler_empty_join_witness :
  Query.resultsHandler None no_search
    [ {| Query.rs_table := Some "patients"; Query.rs_fields := Some ["gender"] |} ]
    ∅ "dataset1" ∅ None false
  = Ok {| Query.resp_tables := [("patients", [])]; Query.resp_nextPageToken := None |}.
Proof.
  apply (resultsHandler_empty_join None no_search
           {| Query.rs_table := Some "patients"; Query.rs_fields := Some ["gender"] |}
           [] "patients" "dataset1" ∅ None false eq_refl).
  - unfold Query.endpointMapper_keys. apply elem_of_cons. by left.
  - reflexivity.
Defined.

(** ** Aggregation *)

Section StringOrder.

Lemma ascii_compare_refl (a : ascii) : Ascii.compare a a = Eq.
Proof. unfold Ascii.compare. apply N.compare_refl. Qed.

Lemma ascii_compare_lt_trans (a b c : ascii) :
  Ascii.compare a b = Lt -> Ascii.compare b c = Lt -> Ascii.compare a c = Lt.
Proof. unfold Ascii.compare. rewrite !N.compare_lt_iff. lia. Qed.

Lemma string_compare_lt_trans (s1 s2 s3 : string) :
  String.compare s1 s2 = Lt -> String.compare s2 s3 = Lt ->
  String.compare s1 s3 = Lt.
Proof.
  revert s2 s3. induction s1 as [|a s1 IH]; intros [|b s2] [|c s3]; simpl;
    try done.
  destruct (Ascii.compare a b) eqn:Hab; try done;
    destruct (Ascii.compare b c) eqn:Hbc; try done; intros H12 H23.
  - apply Ascii.compare_eq_iff in Hab, Hbc. subst.
    rewrite ascii_compare_refl. eauto.
  - apply Ascii.compare_eq_iff in Hab. subst. by rewrite Hbc.
  - apply Ascii.compare_eq_iff in Hbc. subst. by rewrite Hab.
  - by rewrite (ascii_compare_lt_trans a b c).
Qed.

Global Instance str_le_trans : Transitive str_le.
Proof.
  intros s1 s2 s3. unfold str_le, String.leb.
  destruct (String.compare s1 s2) eqn:H12; try done;
    destruct (String.compare s2 s3) eqn:H23; try done; intros _ _.
  - apply String.compare_eq_iff in H12. subst. by rewrite H23.
  - apply String.compare_eq_iff in H12. subst. by rewrite H23.
  - apply String.compare_eq_iff in H23. subst. by rewrite H12.
  - by rewrite (string_compare_lt_trans s1 s2 s3).
Qed.

Global Instance str_le_antisym : AntiSymm (=) str_le.
Proof. intros s1 s2. apply String.leb_antisym. Qed.

Lemma insert_sorted_perm x l : Query.insert_sorted x l ≡ₚ x :: l.
Proof.
  induction l as [|y l IH]; simpl; [done|].
  destruct (String.leb x y); [done|]. rewrite IH. apply Permutation_swap.
Qed.

Lemma sort_strings_perm l : Query.sort_strings l ≡ₚ l.
Proof.
  induction l as [|x l IH]; simpl; [done|].
  by rewrite insert_sorted_perm, IH.
Qed.

Lemma insert_sorted_Sorted x l :
  Sorted str_le l -> Sorted str_le (Query.insert_sorted x l).
Proof.
  induction 1 as [|y l Hl IH Hhd]; simpl.
  - by repeat constructor.
  - destruct (String.leb x y) eqn:Hxy.
    + repeat constructor; done.
    + constructor; [done|].
      assert (str_le y x) as Hyx.
      { destruct (String.leb_total x y) as [H|H]; [congruence|done]. }
      destruct Hhd as [|z l' Hyz]; simpl.
      * by constructor.
      * destruct (String.leb x z); by constructor.
Qed.

Lemma sort_strings_Sorted l : Sorted str_le (Query.sort_strings l).
Proof.
  induction l as [|x l IH]; simpl; [constructor|].
  by apply insert_sorted_Sorted.
Qed.

Lemma sort_strings_permutation_invariant l1 l2 :
  l1 ≡ₚ l2 -> Query.sort_strings l1 = Query.sort_strings l2.
Proof.
  intros Hperm. apply (Sorted_unique str_le); try apply sort_strings_Sorted.
  by rewrite !sort_strings_perm.
Qed.

End StringOrder.

Lemma strings_of_strs (l : list string) : Query.strings_of (JStr <$> l) = Some l.
Proof.
  induction l as [|s l IH]; [done|].
  change (cons s <$> Query.strings_of (JStr <$> l) = Some (s :: l)).
  by rewrite IH.
Qed.

Section AggregationProperties.
Import Query.

Lemma key_eqb_sym a b : key_eqb a b = key_eqb b a.
Proof.
  unfold key_eqb. destruct (hashable a), (hashable b); try done.
  apply bool_decide_ext. split; congruence.
Qed.

Lemma key_eqb_trans a b c :
  key_eqb a b = true -> key_eqb b c = true -> key_eqb a c = true.
Proof.
  unfold key_eqb. destruct (hashable a), (hashable b), (hashable c); try done.
  rewrite !bool_decide_eq_true. congruence.
Qed.

Lemma count_in_bump v v' d :
  count_in v (bump v' d) = count_in v d + (if key_eqb v v' then 1 else 0).
Proof.
  induction d as [|[v0 n] d IH]; simpl.
  - destruct (key_eqb v v'); lia.
  - destruct (key_eqb v' v0) eqn:H0; simpl.
    + destruct (key_eqb v v0) eqn:H1.
      * rewrite (key_eqb_trans v v0 v'); [lia|done|by rewrite key_eqb_sym].
      * destruct (key_eqb v v') eqn:H2; [|lia].
        by rewrite (key_eqb_trans v v' v0) in H1.
    + destruct (key_eqb v v0) eqn:H1; [|done].
      destruct (key_eqb v v') eqn:H2; [|lia].
      rewrite (key_eqb_trans v' v v0) in H0; [done|by rewrite key_eqb_sym|done].
Qed.

Lemma dict_get_set {A} (k k' : string) (x : A) d :
  dict_get k' (dict_set k x d) = if String.eqb k' k then Some x else dict_get k' d.
Proof.
  induction d as [|[k0 y] d IH]; simpl.
  - by destruct (String.eqb k' k).
  - destruct (String.eqb_spec k k0) as [->|Hk]; simpl.
    + by destruct (String.eqb k' k0).
    + rewrite IH. destruct (String.eqb_spec k' k0) as [->|Hk'].
      * apply String.eqb_neq in Hk. by rewrite String.eqb_sym, Hk.
      * done.
Qed.

Lemma count_item_bucket field c item c' k v :
  count_item field c item = Ok c' ->
  bucket c' k v = bucket c k v + (if hit field k v item then 1 else 0).
Proof.
  destruct item as [k0 v0]. unfold count_item, hit, bucket. simpl.
  destruct (decide (k0 ∈ field)) as [Hin|Hnin].
  - rewrite (bool_decide_eq_true_2 _ Hin).
    destruct (bucket_key v0) as [v0'|e]; simpl; [|done]. intros [= <-].
    rewrite dict_get_set.
    destruct (String.eqb_spec k k0) as [->|Hk]; simpl.
    + rewrite count_in_bump.
      rewrite (bool_decide_eq_true_2 (k0 = k0)), (bool_decide_eq_true_2 _ Hin) by done.
      done.
    + rewrite (bool_decide_eq_false_2 (k0 = k)) by congruence. simpl. lia.
  - rewrite (bool_decide_eq_false_2 _ Hnin). intros [= <-].
    destruct (decide (k0 = k)) as [->|Hk].
    + rewrite (bool_decide_eq_false_2 _ Hnin). rewrite andb_false_r. simpl. lia.
    + rewrite (bool_decide_eq_false_2 _ Hk). simpl. lia.
Qed.

Lemma count_items_bucket field items : forall c c' k v,
  count_items field c items = Ok c' ->
  bucket c' k v = bucket c k v + Z.of_nat (length (List.filter (hit field k v) items)).
Proof.
  induction items as [|item items IH]; simpl; intros c c' k v.
  - intros [= <-]. lia.
  - destruct (count_item field c item) as [c1|e] eqn:H1; simpl; [|done].
    intros H2. rewrite (IH _ _ k v H2), (count_item_bucket _ _ _ _ k v H1).
    destruct (hit field k v item); simpl; lia.
Qed.

Lemma count_entries_bucket field entries : forall c c' k v,
  count_entries field c entries = Ok c' ->
  bucket c' k v = bucket c k v + occurrences field k v entries.
Proof.
  unfold occurrences.
  induction entries as [|entry entries IH]; simpl; intros c c' k v.
  - intros [= <-]. lia.
  - destruct (count_items field c entry) as [c1|e] eqn:H1; simpl; [|done].
    intros H2. rewrite (IH _ _ k v H2), (count_items_bucket _ _ _ _ k v H1).
    rewrite List.filter_app, length_app. lia.
Qed.

Lemma count_items_untouched field items c :
  Forall (fun item => item.1 ∉ field) items ->
  count_items field c items = Ok c.
Proof.
  induction 1 as [|[k v] items Hk _ IH]; simpl; [done|].
  simpl in Hk. by rewrite (bool_decide_eq_false_2 _ Hk).
Qed.

Lemma count_entries_untouched field entries c :
  Forall (Forall (fun item => item.1 ∉ field)) entries ->
  count_entries field c entries = Ok c.
Proof.
  induction 1 as [|entry entries He _ IH]; simpl; [done|].
  by rewrite count_items_untouched.
Qed.

Lemma count_item_raise field c item e :
  count_item field c item = Raise e -> e = Builtin TypeError.
Proof.
  destruct item as [k v]. unfold count_item, bucket_key.
  destruct (bool_decide (k ∈ field)); [|done].
  destruct v as [| | | |l|d]; simpl; try done.
  - destruct (strings_of l); simpl; [done|congruence].
  - congruence.
Qed.

Lemma count_items_raise field items : forall c e,
  count_items field c items = Raise e -> e = Builtin TypeError.
Proof.
  induction items as [|item items IH]; simpl; intros c e; [done|].
  destruct (count_item field c item) as [c1|e1] eqn:H1; simpl.
  - apply IH.
  - intros [= <-]. by apply count_item_raise in H1.
Qed.

Lemma count_entries_raise field entries : forall c e,
  count_entries field c entries = Raise e -> e = Builtin TypeError.
Proof.
  induction entries as [|entry entries IH]; simpl; intros c e; [done|].
  destruct (count_items field c entry) as [c1|e1] eqn:H1; simpl.
  - apply IH.
  - intros [= <-]. by apply count_items_raise in H1.
Qed.

End AggregationProperties.

Section BucketProperties.
Import Query.

Lemma bucket_key_key_of (v key : json) : bucket_key v = Ok key <-> key_of v key.
Proof.
  destruct v as [|b|z|s|l|d]; cbn; try (split; [by intros [= <-]|by intros ->]).
  - destruct (strings_of l) as [strs|] eqn:Hstrs.
    + assert (l = JStr <$> strs) as ->.
      { revert strs Hstrs. induction l as [|v l IH]; intros strs; cbn.
        - by intros [= <-].
        - destruct v; try done. destruct (strings_of l) as [strs'|]; [|done].
          cbn. intros [= <-]. cbn. f_equal. by apply IH. }
      split.
      * intros [= <-]. exists strs, (sort_strings strs).
        split; [done|]. split; [apply sort_strings_perm|].
        split; [apply sort_strings_Sorted|done].
      * intros (strs' & sorted & Heq & Hperm & Hsorted & ->).
        rewrite Heq, strings_of_strs in Hstrs. injection Hstrs as <-. do 2 f_equal.
        f_equal. apply (Sorted_unique str_le); [apply sort_strings_Sorted|done|].
        by rewrite sort_strings_perm, Hperm.
    + split; [done|]. intros (strs & sorted & -> & _).
      by rewrite strings_of_strs in Hstrs.
  - split; [done|done].
Qed.

Lemma key_eqb_same_key (a b : json) : key_eqb a b = true <-> same_key a b.
Proof.
  unfold key_eqb, same_key.
  destruct (hashable a) as [x|e], (hashable b) as [y|e'];
    try (split; [done|by intros (? & ? & ?)]).
  rewrite bool_decide_eq_true. split.
  - intros ->. by exists y.
  - intros (z & [= ->] & [= ->]). done.
Qed.

Lemma hit_occurrence (field : list string) (k : string) (key : json) (item : string * json) :
  k ∈ field ->
  hit field k key item = true <-> occurrence k key item.
Proof.
  intros Hk. unfold hit, occurrence.
  rewrite (bool_decide_eq_true_2 (k ∈ field)) by done. rewrite andb_true_r.
  rewrite andb_true_iff, bool_decide_eq_true.
  split.
  - intros [-> H]. split; [done|].
    destruct (bucket_key item.2) as [key'|] eqn:Hkey; [|done].
    exists key'. split; [by apply bucket_key_key_of|by apply key_eqb_same_key].
  - intros [-> (key' & Hkey & Hsame)]. split; [done|].
    apply bucket_key_key_of in Hkey. rewrite Hkey. by apply key_eqb_same_key.
Qed.

Lemma bucket_key_hashable (v key : json) :
  bucket_key v = Ok key -> exists x, hashable key = Ok x.
Proof.
  destruct v as [|b|z|s|l|d]; cbn; try (intros [= <-]; cbn; by eexists).
  destruct (strings_of l); [|done]. intros [= <-]. cbn. by eexists.
Qed.

Lemma bump_counted (v : json) (x : pyval) (d : list (json * Z)) (xs : list pyval) :
  hashable v = Ok x ->
  Forall2 (fun (vn : json * Z) y => hashable vn.1 = Ok y) d xs ->
  NoDup xs -> Forall (fun vn : json * Z => 0 < vn.2) d ->
  counted (bump v d).
Proof.
  intros Hv Hd Hxs Hpos. split.
  { destruct d as [|[v' n] d]; cbn; [done|]. by destruct (key_eqb v v'). }
  enough (exists xs',
            Forall2 (fun (vn : json * Z) y => hashable vn.1 = Ok y) (bump v d) xs' /\
            Forall (fun vn : json * Z => 0 < vn.2) (bump v d) /\
            (xs' = xs \/ (xs' = xs ++ [x] /\ x ∉ xs))) as (xs' & H1 & H2 & H3).
  { exists xs'. split; [done|]. split; [|done].
    destruct H3 as [->|[-> Hx]]; [done|].
    apply NoDup_app. split; [done|]. split; [|apply NoDup_singleton].
    intros y Hy ->%list_elem_of_singleton. done. }
  clear Hxs. induction Hd as [|[v' n] y d xs Hy Hd IH]; cbn.
  - exists [x]. split; [by repeat constructor|]. split; [by repeat constructor|].
    right. split; [done|]. apply not_elem_of_nil.
  - inversion Hpos as [|? ? Hn Hpos']; subst. cbn in Hy, Hn.
    assert (key_eqb v v' = bool_decide (x = y)) as -> by (unfold key_eqb; by rewrite Hv, Hy).
    destruct (decide (x = y)) as [->|Hne].
    + rewrite bool_decide_eq_true_2 by done.
      exists (y :: xs). split; [by constructor|]. split; [|by left].
      constructor; [cbn; lia|done].
    + rewrite bool_decide_eq_false_2 by done.
      destruct (IH Hpos') as (xs' & H1 & H2 & H3).
      exists (y :: xs'). split; [by constructor|]. split; [by constructor|].
      destruct H3 as [->|[-> Hx]]; [by left|right]. split; [done|].
      by intros [?|?]%elem_of_cons.
Qed.

Lemma dict_set_keys {A} (k : string) (x : A) (d : list (string * A)) :
  (dict_set k x d).*1 = if bool_decide (k ∈ d.*1) then d.*1 else d.*1 ++ [k].
Proof.
  induction d as [|[k' y] d IH]; cbn; [done|].
  destruct (String.eqb_spec k k') as [->|Hne]; cbn.
  - by rewrite bool_decide_eq_true_2 by left.
  - rewrite IH. destruct (decide (k ∈ d.*1)) as [Hin|Hin].
    + by rewrite !bool_decide_eq_true_2 by (done || by right).
    + rewrite !bool_decide_eq_false_2; [done| |done].
      by intros [?|?]%elem_of_cons.
Qed.

Lemma dict_set_NoDup {A} (k : string) (x : A) (d : list (string * A)) :
  NoDup d.*1 -> NoDup (dict_set k x d).*1.
Proof.
  intros Hd. rewrite dict_set_keys. case_bool_decide as Hin; [done|].
  apply NoDup_app. split; [done|]. split; [|apply NoDup_singleton].
  by intros y Hy ->%list_elem_of_singleton.
Qed.

Lemma dict_set_Forall {A} (P : string * A -> Prop) (k : string) (x : A)
    (d : list (string * A)) :
  P (k, x) -> Forall P d -> Forall P (dict_set k x d).
Proof.
  intros Hx. induction 1 as [|[k' y] d Hy Hd IH]; cbn.
  - by repeat constructor.
  - destruct (String.eqb_spec k k') as [->|Hne]; by constructor.
Qed.

Lemma dict_get_Forall {A} (P : string * A -> Prop) (k : string) (x : A)
    (d : list (string * A)) :
  Forall P d -> dict_get k d = Some x -> P (k, x).
Proof.
  induction 1 as [|[k' y] d Hy Hd IH]; cbn; [done|].
  destruct (String.eqb_spec k k') as [->|Hne]; [by intros [= <-]|done].
Qed.

Lemma count_item_tidy field (c c' : counts) item :
  tidy c -> count_item field c item = Ok c' -> tidy c'.
Proof.
  intros [Hkeys Hall]. destruct item as [k v]. unfold count_item.
  case_bool_decide as Hk; [|by intros [= <-]].
  destruct (bucket_key v) as [key|] eqn:Hkey; [|done]. cbn. intros [= <-].
  destruct (bucket_key_hashable _ _ Hkey) as [x Hx].
  split; [by apply dict_set_NoDup|].
  apply dict_set_Forall; [|done]. cbn.
  destruct (dict_get k c) as [d|] eqn:Hd; cbn.
  - destruct (dict_get_Forall _ _ _ _ Hall Hd) as [_ (xs & H1 & H2 & H3)].
    by apply (bump_counted key x d xs).
  - apply (bump_counted key x [] []); [done|constructor|constructor|constructor].
Qed.

Lemma count_items_tidy field items : forall c c' : counts,
  tidy c -> count_items field c items = Ok c' -> tidy c'.
Proof.
  induction items as [|item items IH]; cbn; intros c c' Hc.
  - by intros [= <-].
  - destruct (count_item field c item) as [c1|] eqn:H1; [|done]. cbn.
    apply IH. by apply (count_item_tidy field c c1 item).
Qed.

Lemma count_entries_tidy field entries : forall c c' : counts,
  tidy c -> count_entries field c entries = Ok c' -> tidy c'.
Proof.
  induction entries as [|entry entries IH]; cbn; intros c c' Hc.
  - by intros [= <-].
  - destruct (count_items field c entry) as [c1|] eqn:H1; [|done]. cbn.
    apply IH. by apply (count_items_tidy field entry c c1).
Qed.

Lemma count_in_member (d : list (json * Z)) (xs : list pyval) (key : json) (n : Z) :
  Forall2 (fun (vn : json * Z) x => hashable vn.1 = Ok x) d xs ->
  NoDup xs -> (key, n) ∈ d -> count_in key d = n.
Proof.
  induction 1 as [|[v m] x d xs Hx Hd IH]; intros Hnd Hin; [by apply elem_of_nil in Hin|].
  apply NoDup_cons in Hnd as [Hnot Hnd]. cbn in Hx |- *.
  apply elem_of_cons in Hin as [[= -> ->]|Hin].
  - unfold key_eqb. rewrite Hx. by rewrite bool_decide_eq_true_2.
  - assert (key_eqb key v = false) as ->; [|by apply IH].
    unfold key_eqb. rewrite Hx.
    destruct (hashable key) as [y|] eqn:Hy; [|done].
    apply bool_decide_eq_false_2. intros ->. apply Hnot.
    apply list_elem_of_lookup in Hin as [i Hi].
    destruct (Forall2_lookup_l _ _ _ _ _ Hd Hi) as (y & Hxs & Hy').
    cbn in Hy'. rewrite Hy in Hy'. injection Hy' as ->.
    by apply list_elem_of_lookup_2 in Hxs.
Qed.

Lemma count_in_found (d : list (json * Z)) (v : json) :
  count_in v d <> 0 -> exists key n, (key, n) ∈ d /\ key_eqb v key = true.
Proof.
  induction d as [|[v' m] d IH]; cbn; [done|].
  destruct (key_eqb v v') eqn:Hv.
  - intros _. exists v', m. split; [left|done].
  - intros (key & n & Hin & Hkey)%IH. exists key, n. split; [by right|done].
Qed.

Lemma bucket_key_countable (v : json) : countable v -> exists key, bucket_key v = Ok key.
Proof.
  destruct v as [|b|z|s|l|d]; cbn; try (intros _; by eexists).
  - intros [strs ->]. rewrite strings_of_strs. by eexists.
  - done.
Qed.

Lemma count_items_countable field items : forall c : counts,
  Forall (fun item : string * json => item.1 ∈ field -> countable item.2) items ->
  exists c', count_items field c items = Ok c'.
Proof.
  induction items as [|[k v] items IH]; intros c Hall; cbn; [by eexists|].
  inversion Hall as [|? ? Hv Hall']; subst. cbn in Hv.
  case_bool_decide as Hk; cbn; [|by apply IH].
  destruct (bucket_key_countable v (Hv Hk)) as [key ->]. cbn. by apply IH.
Qed.

Lemma count_entries_countable field entries : forall c : counts,
  Forall (Forall (fun item : string * json => item.1 ∈ field -> countable item.2)) entries ->
  exists c', count_entries field c entries = Ok c'.
Proof.
  induction entries as [|entry entries IH]; intros c Hall; cbn; [by eexists|].
  inversion Hall as [|? ? He Hall']; subst.
  destruct (count_items_countable field entry c He) as [c1 ->]. cbn. by apply IH.
Qed.

Lemma row_of_counts_row (c : counts) : row_of_counts c = counts_row c.
Proof.
  reflexivity.
Qed.

Lemma dict_get_NoDup {A} (k : string) (x : A) (d : list (string * A)) :
  NoDup d.*1 -> (k, x) ∈ d -> dict_get k d = Some x.
Proof.
  induction d as [|[k' y] d IH]; intros Hnd Hin; [by apply elem_of_nil in Hin|].
  cbn in Hnd. apply NoDup_cons in Hnd as [Hnot Hnd]. cbn.
  apply elem_of_cons in Hin as [[= -> ->]|Hin].
  - by rewrite String.eqb_refl.
  - destruct (String.eqb_spec k k') as [->|_]; [|by apply IH].
    destruct Hnot. by apply (list_elem_of_fmap_2 fst _ (k', x)).
Qed.

Lemma dict_get_member {A} (k : string) (x : A) (d : list (string * A)) :
  dict_get k d = Some x -> (k, x) ∈ d.
Proof.
  induction d as [|[k' y] d IH]; cbn; [done|].
  destruct (String.eqb_spec k k') as [->|_].
  - intros [= ->]. left.
  - intros H. right. by apply IH.
Qed.

Lemma occurrences_hit field k v (entries : list row) :
  0 < occurrences field k v entries <->
  exists item, item ∈ concat entries /\ hit field k v item = true.
Proof.
  unfold occurrences.
  destruct (List.filter (hit field k v) (concat entries)) as [|item items] eqn:Hf.
  - split; [cbn; lia|]. intros (item & Hin & Hhit).
    assert (In item (List.filter (hit field k v) (concat entries))) as H
      by (apply filter_In; split; [by apply list_elem_of_In|done]).
    by rewrite Hf in H.
  - split; [|cbn; lia]. intros _. exists item.
    assert (In item (List.filter (hit field k v) (concat entries))) as H
      by (rewrite Hf; by left).
    apply filter_In in H as [Hin Hhit]. split; [by apply list_elem_of_In|done].
Qed.

Lemma same_key_sym (a b : json) : same_key a b -> same_key b a.
Proof. intros (x & Ha & Hb). by exists x. Qed.

End BucketProperties.




(** ** Compound identifiers *)

Section IdentifierProperties.
Import Text CompoundId.

(** C2 at the inputs where it fails. The identifier of a dataset named
    by one backslash has the string form [WyJcIl0], which [parse]
    rejects as not found; and the identifier of a dataset whose name
    holds a backslash and an n parses to the identifier of another
    name, with a line feed in their place. Identifiers of names
    without such characters do round-trip, as the first part shows for
    a patient. *)
Theorem parse_str_backslash :
  (exists self,
     __init__ PatientCompoundId None ["dataset1"; "patient 1"] = Ok self /\
     str_of_new PatientCompoundId ["dataset1"; "patient 1"]
     = Ok "WyJkYXRhc2V0MSIsInBhdCIsInBhdGllbnQgMSJd" /\
     parse PatientCompoundId "WyJkYXRhc2V0MSIsInBhdCIsInBhdGllbnQgMSJd" = Ok self) /\
  (str_of_new DatasetCompoundId [name_backslash] = Ok "WyJcIl0" /\
   parse DatasetCompoundId "WyJcIl0" = Raise (ObjectWithIdNotFoundException "WyJcIl0")) /\
  (exists s self self',
     str_of_new DatasetCompoundId [name_backslash_n] = Ok s /\
     __init__ DatasetCompoundId None [name_backslash_n] = Ok self /\
     parse DatasetCompoundId s = Ok self' /\
     dict_get "dataset" (attrs self) = Some name_backslash_n /\
     dict_get "dataset" (attrs self') = Some name_newline).
Proof.
  split; [|split].
  - eexists. repeat split; vm_compute; reflexivity.
  - split; vm_compute; reflexivity.
  - do 3 eexists. repeat split; vm_compute; reflexivity.
Qed.

(** C3 at the inputs where it fails. A string that is not ASCII makes
    the base64 decoder raise a plain ValueError, which the handler for
    binascii.Error does not catch; and a string that decodes to JSON
    that is not a list, here the number 123, raises a TypeError when it
    is iterated. Neither is the not-found error. *)
Theorem parse_malformed_escapes (cls : class) :
  parse cls id_not_ascii = Raise (Builtin ValueError) /\
  deobfuscate id_number = Ok "123" /\
  parse cls id_number = Raise (Builtin TypeError).
Proof. repeat split. Qed.

End IdentifierProperties.

(** ** Instances *)


Lemma and_is_intersection_witness :
  exists r,
    Query.logicHandler no_search example_repo
      (JDict [("and", JList example_children)]) example_responses "dataset1" ∅
    = Ok r /\
    forall p, p ∈ r <-> forall s, s ∈ example_sets -> p ∈ s.
Proof.
  refine (proj1 (and_is_intersection no_search example_repo example_responses
                   "dataset1" ∅ example_children example_sets _ _)).
  - discriminate.
  - repeat constructor.
Defined.

(** ** The JSON scanner always has fuel left *)

Section JsonFuel.
Import Json.

Local Abbreviation len := String.length.

Lemma skip_ws_length s : (len (skip_ws s) <= len s)%nat.
Proof.
  induction s as [|c s IH]; simpl; [lia|].
  destruct (is_ws c); simpl; lia.
Qed.

Lemma prepend_Some w r content rest :
  prepend w r = Some (content, rest) -> exists content', r = Some (content', rest).
Proof. destruct r as [[c' r']|]; simpl; [|done]. intros [= _ <-]. eauto. Qed.

Lemma scanstring_length_le (n : nat) : forall s content rest,
  (len s <= n)%nat -> scanstring s = Some (content, rest) -> (len rest < len s)%nat.
Proof.
  induction n as [|n IH]; intros s content rest Hn.
  - destruct s; simpl in *; [done|lia].
  - destruct s as [|c s1]; [done|].
    cbn [scanstring].
    destruct (Text.is_code 34 c). { intros [= <- <-]. simpl. lia. }
    destruct (Text.code c <? 32)%N; [done|].
    destruct (Text.is_code 92 c).
    2:{ intros H; apply prepend_Some in H as [? H]. apply IH in H; simpl in *; lia. }
    destruct s1 as [|e s2]; [done|].
    destruct (simple_escape e).
    { intros H; apply prepend_Some in H as [? H]. apply IH in H; simpl in *; lia. }
    destruct (Text.is_code 117 e); [|done].
    destruct s2 as [|h1 [|h2 [|h3 [|h4 s3]]]]; try done.
    destruct (hex4 h1 h2 h3 h4) as [cp|]; [|done].
    assert (forall w, prepend w (scanstring s3) = Some (content, rest) ->
              (len rest
               < len (String c (String e (String h1 (String h2 (String h3 (String h4 s3)))))))%nat)
      as Hlone.
    { intros w H; apply prepend_Some in H as [? H]. apply IH in H; simpl in *; lia. }
    destruct ((55296 <=? cp) && (cp <=? 56319))%N; [|apply Hlone].
    destruct s3 as [|b [|u [|g1 [|g2 [|g3 [|g4 s4]]]]]]; try apply Hlone.
    destruct (Text.is_code 92 b && Text.is_code 117 u); [|apply Hlone].
    destruct (hex4 g1 g2 g3 g4) as [cp2|]; [|done].
    destruct ((56320 <=? cp2) && (cp2 <=? 57343))%N; [|apply Hlone].
    intros H; apply prepend_Some in H as [? H]. apply IH in H; simpl in *; lia.
Qed.

Lemma scanstring_length s content rest :
  scanstring s = Some (content, rest) -> (len rest < len s)%nat.
Proof. by apply (scanstring_length_le (len s)). Qed.

Lemma span_digits_length s : (len (span_digits s).2 <= len s)%nat.
Proof.
  induction s as [|c s IH]; simpl; [lia|].
  destruct (is_digit c); simpl; [|lia].
  destruct (span_digits s); simpl in *. lia.
Qed.

Lemma after_length w : forall s r, after w s = Some r -> (len r + len w = len s)%nat.
Proof.
  induction w as [|a w IH]; intros [|b s] r; simpl; try done.
  - by intros [= <-].
  - by intros [= <-].
  - destruct (Ascii.eqb a b); [|done]. intros H. apply IH in H. lia.
Qed.

Lemma scan_number_length s literal rest :
  scan_number s = Some (literal, rest) -> (len rest < len s)%nat.
Proof.
  unfold scan_number. intros H.
  repeat case_match; simplify_eq; simpl in *;
  repeat match goal with
  | H : span_digits ?x = (_, ?r) |- _ =>
      let H' := fresh in
      pose proof (span_digits_length x) as H'; rewrite H in H'; simpl in H'; clear H
  end; lia.
Qed.

Local Arguments skip_ws : simpl never.
Local Arguments scanstring : simpl never.
Local Arguments scan_number : simpl never.
Local Arguments scan_literal : simpl never.
Local Arguments after : simpl never.
Local Arguments Text.is_code : simpl never.
Local Arguments set_member : simpl never.

Lemma scan_literal_length s v rest :
  scan_literal s = Some (v, rest) -> (len rest < len s)%nat.
Proof.
  unfold scan_literal. intros H.
  repeat case_match; simplify_eq;
    repeat match goal with
    | H : after _ _ = Some _ |- _ => apply after_length in H
    | H : scan_number _ = Some _ |- _ => apply scan_number_length in H
    end; simpl in *; lia.
Qed.

Ltac length_facts :=
  repeat match goal with
  | H : skip_ws ?x = _ |- _ =>
      let H' := fresh in
      pose proof (skip_ws_length x) as H'; rewrite H in H'; clear H
  | H : scanstring _ = Some _ |- _ => apply scanstring_length in H
  | H : scan_literal _ = Some _ |- _ => apply scan_literal_length in H
  end.

Lemma scan_length (fuel : nat) :
  (forall s v rest, scan_once fuel s = Parsed v rest -> (len rest < len s)%nat) /\
  (forall s items v rest,
     scan_items fuel s items = Parsed v rest -> (len rest < len s)%nat) /\
  (forall s members v rest,
     scan_members fuel s members = Parsed v rest -> (len rest < len s)%nat).
Proof.
  induction fuel as [|fuel (IH1 & IH2 & IH3)]; [repeat split; intros; discriminate|].
  repeat split.
  - intros s v rest. simpl. intros H.
    repeat case_match; simplify_eq;
      repeat match goal with
      | H : scan_items fuel _ _ = Parsed _ _ |- _ => apply IH2 in H
      | H : scan_members fuel _ _ = Parsed _ _ |- _ => apply IH3 in H
      end; length_facts; simpl in *; lia.
  - intros s items v rest. simpl. intros H.
    repeat case_match; simplify_eq;
      repeat match goal with
      | H : scan_once fuel _ = Parsed _ _ |- _ => apply IH1 in H
      | H : scan_items fuel _ _ = Parsed _ _ |- _ => apply IH2 in H
      end;
      repeat match goal with
      | H : context [len (skip_ws ?x)] |- _ =>
          lazymatch goal with
          | _ : (len (skip_ws x) <= len x)%nat |- _ => fail
          | _ => pose proof (skip_ws_length x)
          end
      end; length_facts; simpl in *; lia.
  - intros s members v rest. simpl. intros H.
    repeat case_match; simplify_eq;
      repeat match goal with
      | H : scan_once fuel _ = Parsed _ _ |- _ => apply IH1 in H
      | H : scan_members fuel _ _ = Parsed _ _ |- _ => apply IH3 in H
      end;
      repeat match goal with
      | H : context [len (skip_ws ?x)] |- _ =>
          lazymatch goal with
          | _ : (len (skip_ws x) <= len x)%nat |- _ => fail
          | _ => pose proof (skip_ws_length x)
          end
      end; length_facts; simpl in *; lia.
Qed.


Ltac skip_facts :=
  repeat match goal with
  | H : context [len (skip_ws ?x)] |- _ =>
      lazymatch goal with
      | _ : (len (skip_ws x) <= len x)%nat |- _ => fail
      | _ => pose proof (skip_ws_length x)
      end
  | |- context [len (skip_ws ?x)] =>
      lazymatch goal with
      | _ : (len (skip_ws x) <= len x)%nat |- _ => fail
      | _ => pose proof (skip_ws_length x)
      end
  end.

Lemma scan_fuel (fuel : nat) :
  (forall s, (2 * len s + 1 <= fuel)%nat -> scan_once fuel s <> OutOfFuel) /\
  (forall s items, (2 * len s + 2 <= fuel)%nat -> scan_items fuel s items <> OutOfFuel) /\
  (forall s members,
     (2 * len s + 2 <= fuel)%nat -> scan_members fuel s members <> OutOfFuel).
Proof.
  induction fuel as [|fuel (IH1 & IH2 & IH3)]; [repeat split; intros; lia|].
  pose proof (scan_length fuel) as (L1 & L2 & L3).
  repeat split.
  - intros s Hs. simpl.
    repeat case_match; simplify_eq; try done.
    + apply IH3. length_facts. simpl in *. lia.
    + apply IH2. length_facts. simpl in *. lia.
  - intros s items Hs. simpl.
    repeat case_match; simplify_eq; try done.
    + apply IH2.
      repeat match goal with
      | H : scan_once fuel _ = Parsed _ _ |- _ => apply L1 in H
      end. skip_facts. length_facts. simpl in *. lia.
    + match goal with
      | H : scan_once fuel _ = OutOfFuel |- _ => apply IH1 in H; [done|lia]
      end.
  - intros s members Hs. simpl.
    repeat case_match; simplify_eq; try done.
    + apply IH3.
      repeat match goal with
      | H : scan_once fuel _ = Parsed _ _ |- _ => apply L1 in H
      end. skip_facts. length_facts. simpl in *. lia.
    + match goal with
      | H : scan_once fuel _ = OutOfFuel |- _ => apply IH1 in H; [done|]
      end. skip_facts. length_facts. simpl in *. lia.
Qed.

(** [json.loads] never runs out of the fuel it gives the scanner. *)
Lemma loads_fuel (s : string) : loads s <> Raise (Builtin RecursionError).
Proof.
  unfold loads.
  destruct (scan_once _ _) as [v rest| |] eqn:H.
  - by destruct (skip_ws rest).
  - done.
  - apply (proj1 (scan_fuel _)) in H; [done|].
    pose proof (skip_ws_length s). lia.
Qed.

End JsonFuel.

(** ** What [parse] does report as not found *)

Section ParseNotFound.
Import CompoundId.

(** The failures [parse] turns into the not-found error: a base64 error,
    bytes that are not UTF-8, text that is not JSON, and a list of
    strings of the wrong length or too short to hold the
    differentiator. *)
Lemma parse_not_found (cls : class) (compoundIdStr : string) :
  (deobfuscate compoundIdStr = Raise (Builtin BinasciiError) ->
   parse cls compoundIdStr = Raise (ObjectWithIdNotFoundException compoundIdStr)) /\
  (forall decoded_data,
     deobfuscate compoundIdStr = Raise (ObjectWithIdNotFoundException decoded_data) ->
     parse cls compoundIdStr = Raise (ObjectWithIdNotFoundException decoded_data)) /\
  (forall deobfuscated,
     deobfuscate compoundIdStr = Ok deobfuscated ->
     split deobfuscated = Raise (Builtin JSONDecodeError) ->
     parse cls compoundIdStr = Raise (ObjectWithIdNotFoundException compoundIdStr)) /\
  (forall deobfuscated items splits,
     deobfuscate compoundIdStr = Ok deobfuscated ->
     split deobfuscated = Ok (Json.Arr items) ->
     decode_items items = Ok splits ->
     differentiator cls = None ->
     length splits <> length (fields cls) ->
     parse cls compoundIdStr = Raise (ObjectWithIdNotFoundException compoundIdStr)) /\
  (forall deobfuscated items splits d differentiatorIndex,
     deobfuscate compoundIdStr = Ok deobfuscated ->
     split deobfuscated = Ok (Json.Arr items) ->
     decode_items items = Ok splits ->
     differentiator cls = Some d ->
     index_of differentiatorFieldName (fields cls) = Some differentiatorIndex ->
     (length splits <= differentiatorIndex)%nat \/ length splits <> length (fields cls) ->
     parse cls compoundIdStr = Raise (ObjectWithIdNotFoundException compoundIdStr)).
Proof.
  unfold parse. repeat split.
  - by intros ->.
  - by intros decoded_data ->.
  - intros deobfuscated -> Hs. simpl. by rewrite Hs.
  - intros deobfuscated items splits -> Hs Hd Hnone Hlen. simpl.
    rewrite Hs. simpl. rewrite Hd, Hnone. simpl.
    destruct (Z.eqb_spec (Z.of_nat (length splits)) (Z.of_nat (length (fields cls))));
      [lia|done].
  - intros deobfuscated items splits d di -> Hs Hd Hsome Hidx Hlen. simpl.
    rewrite Hs. simpl. rewrite Hd, Hsome, Hidx. simpl.
    destruct (Nat.ltb_spec di (length splits)) as [Hlt|Hge]; simpl; [|done].
    destruct Hlen as [Hle|Hne]; [lia|].
    pose proof (length_delete splits di) as Hdel.
    destruct (splits !! di) eqn:Hl.
    + rewrite Hdel by eauto.
      destruct (Z.eqb_spec (Z.of_nat (length splits - 1))
                  (Z.of_nat (length (fields cls)) - 1)); [lia|done].
    + apply lookup_ge_None in Hl. lia.
Qed.

End ParseNotFound.

(** ** Identifiers of plain local ids survive the round trip *)

Section Base64RoundTrip.
Import Text Base64 CompoundId.

(** The 64 characters of the alphabet are ASCII, none is the padding
    character, and [b64val] reads each of them back. *)
Lemma b64_alphabet_check :
  forallb (fun x => match b64val (b64char x) with Some y => (x =? y)%N | None => false end
                    && negb (Ascii.eqb (b64char x) equals)
                    && (code (b64char x) <? 128)%N)
          (N.of_nat <$> seq 0 64) = true.
Proof. vm_compute. reflexivity. Qed.

Lemma b64_alphabet (x : N) :
  (x < 64)%N ->
  b64val (b64char x) = Some x /\ Ascii.eqb (b64char x) equals = false /\
  (code (b64char x) < 128)%N.
Proof.
  intros Hx. pose proof b64_alphabet_check as H.
  rewrite forallb_forall in H.
  specialize (H x). 
  assert (In x (N.of_nat <$> seq 0 64)) as Hin.
  { apply list_elem_of_In, list_elem_of_fmap. exists (N.to_nat x). split; [lia|].
    apply list_elem_of_In, in_seq. lia. }
  apply H in Hin. apply andb_prop in Hin as [Hin H3]. apply andb_prop in Hin as [H1 H2].
  destruct (b64val (b64char x)) as [y|]; [|done].
  apply N.eqb_eq in H1 as <-. apply negb_true_iff in H2. apply N.ltb_lt in H3. done.
Qed.

(** Induction on a list three elements at a time, as the encoder
    consumes it. *)
Lemma list_ind3 {A} (P : list A -> Prop) :
  P [] -> (forall a, P [a]) -> (forall a b, P [a; b]) ->
  (forall a b c l, P l -> P (a :: b :: c :: l)) ->
  forall l, P l.
Proof.
  intros H0 H1 H2 H3.
  assert (forall n l, (length l <= n)%nat -> P l) as H.
  { induction n as [|n IH]; intros l Hl.
    - destruct l; [done|simpl in Hl; lia].
    - destruct l as [|a [|b [|c l]]]; auto.
      apply H3, IH. simpl in Hl. lia. }
  intros l. by apply (H (length l)).
Qed.

Ltac divmod := zify; Z.to_euclidean_division_equations; lia.

Ltac alphabet x :=
  let H1 := fresh in let H2 := fresh in let H3 := fresh in
  destruct (b64_alphabet x) as (H1 & H2 & H3); [divmod|];
  try rewrite H1; try rewrite H2.

(** The unpadded encoding, group by group. *)
Lemma core_group a b c rest :
  bytes_ok [a; b; c] ->
  core (a :: b :: c :: rest)
  = String (b64char ((a * 65536 + b * 256 + c) / 262144))
      (String (b64char (((a * 65536 + b * 256 + c) / 4096) mod 64))
         (String (b64char (((a * 65536 + b * 256 + c) / 64) mod 64))
            (String (b64char ((a * 65536 + b * 256 + c) mod 64)) (core rest)))).
Proof.
  intros Hb. inversion Hb as [|? ? Ha Hb']; subst.
  inversion Hb' as [|? ? Hb0 Hc']; subst. inversion Hc' as [|? ? Hc _]; subst.
  unfold core. cbn [encode_bytes remove_char].
  set (n := (a * 65536 + b * 256 + c)%N).
  alphabet (n / 262144)%N. alphabet ((n / 4096) mod 64)%N.
  alphabet ((n / 64) mod 64)%N. alphabet (n mod 64)%N. done.
Qed.

Lemma core_one a :
  (a < 256)%N ->
  core [a] = String (b64char (a * 16 / 64)) (String (b64char ((a * 16) mod 64)) EmptyString).
Proof.
  intros Ha. unfold core. cbn [encode_bytes remove_char].
  alphabet (a * 16 / 64)%N. alphabet ((a * 16) mod 64)%N.
  by rewrite Ascii.eqb_refl.
Qed.

Lemma core_two a b :
  (a < 256)%N -> (b < 256)%N ->
  core [a; b]
  = String (b64char ((a * 1024 + b * 4) / 4096))
      (String (b64char (((a * 1024 + b * 4) / 64) mod 64))
         (String (b64char ((a * 1024 + b * 4) mod 64)) EmptyString)).
Proof.
  intros Ha Hb. unfold core. cbn [encode_bytes remove_char].
  alphabet ((a * 1024 + b * 4) / 4096)%N. alphabet (((a * 1024 + b * 4) / 64) mod 64)%N.
  alphabet ((a * 1024 + b * 4) mod 64)%N.
  by rewrite Ascii.eqb_refl.
Qed.

Local Arguments b64char : simpl never.
Local Arguments b64val : simpl never.
Local Arguments Ascii.eqb : simpl never.
Local Arguments N.mul : simpl never.
Local Arguments N.div : simpl never.
Local Arguments N.modulo : simpl never.
Local Arguments N.add : simpl never.

(** One step of [a2b_base64] on a character of the alphabet, and on
    the padding character. *)
Lemma a2b_data x s q lc pads out :
  (x < 64)%N ->
  a2b_base64 (String (b64char x) s) q lc pads out
  = (if q =? 0 then a2b_base64 s 1 x 0 out
     else if q =? 1 then a2b_base64 s 2 (x mod 16) 0 (out ++ [lc * 4 + x / 16])
     else if q =? 2 then a2b_base64 s 3 (x mod 4) 0 (out ++ [lc * 16 + x / 4])
     else a2b_base64 s 0 0 0 (out ++ [lc * 64 + x]))%N.
Proof.
  intros Hx. destruct (b64_alphabet x Hx) as (H1 & H2 & _).
  cbn [a2b_base64]. by rewrite H1, H2.
Qed.

Lemma a2b_pad s q lc pads out :
  a2b_base64 (String equals s) q lc pads out
  = if (2 <=? q)%N then
      if (4 <=? q + (pads + 1))%N then Ok out
      else a2b_base64 s q lc (pads + 1)%N out
    else a2b_base64 s q lc pads out.
Proof. cbn [a2b_base64]. by rewrite Ascii.eqb_refl. Qed.

Local Arguments a2b_base64 : simpl never.

Lemma append_String c s t : (String c s ++ t)%string = String c (s ++ t)%string.
Proof. reflexivity. Qed.

Lemma append_empty t : (EmptyString ++ t)%string = t.
Proof. reflexivity. Qed.

Ltac unapp := rewrite ?append_String, ?append_empty.

(** The decoder reads the unpadded encoding of [l], followed by the
    padding for its length, back into [l]. *)
Lemma a2b_core (l : list N) : forall out,
  bytes_ok l ->
  a2b_base64 (core l ++ pad_for (length l))%string 0 0 0 out = Ok (out ++ l).
Proof.
  induction l as [|a|a b|a b c l IH] using list_ind3; intros out Hl.
  - cbn. by rewrite app_nil_r.
  - inversion Hl as [|? ? Ha _]; subst. rewrite core_one by done.
    unapp. change (pad_for (length [a])) with (String equals (String equals EmptyString)).
    rewrite !a2b_data by divmod. rewrite !a2b_pad. cbn.
    do 2 f_equal. f_equal. divmod.
  - inversion Hl as [|? ? Ha Hl']; subst. inversion Hl' as [|? ? Hb _]; subst.
    rewrite core_two by done.
    unapp. change (pad_for (length [a; b])) with (String equals EmptyString).
    rewrite !a2b_data by divmod. rewrite !a2b_pad. cbn.
    rewrite <- app_assoc. simpl.
    do 2 f_equal. f_equal; [divmod|]. f_equal. divmod.
  - inversion Hl as [|? ? Ha Hl1]; subst. inversion Hl1 as [|? ? Hb Hl2]; subst.
    inversion Hl2 as [|? ? Hc Hl3]; subst.
    rewrite core_group by (repeat constructor; done).
    replace (pad_for (length (a :: b :: c :: l))) with (pad_for (length l)).
    2:{ unfold pad_for. simpl length.
        replace (S (S (S (length l)))) with (length l + 1 * 3)%nat by lia.
        by rewrite Nat.Div0.mod_add. }
    set (n := (a * 65536 + b * 256 + c)%N).
    unapp. rewrite !a2b_data by (subst n; divmod). cbn [N.eqb Pos.eqb].
    rewrite IH by done. rewrite <- !app_assoc. simpl.
    do 2 f_equal. subst n. f_equal; [divmod|]. f_equal; [divmod|]. f_equal. divmod.
Qed.

Lemma py_len_ascii c s : (code c < 128)%N -> py_len (String c s) = S (py_len s).
Proof.
  intros Hc. cbn [py_len]. fold (code c).
  destruct (N.leb_spec 128 (code c)); [lia|done].
Qed.

(** The length of the unpadded encoding, which fixes the padding
    [deobfuscate] puts back. *)
Lemma py_len_core (l : list N) :
  bytes_ok l ->
  py_len (core l)
  = (4 * (length l / 3) + match length l mod 3 with 0 => 0 | 1 => 2 | _ => 3 end)%nat
  /\ is_ascii (core l) = true.
Proof.
  induction l as [|a|a b|a b c l IH] using list_ind3; intros Hl.
  - done.
  - inversion Hl as [|? ? Ha _]; subst. rewrite core_one by done.
    destruct (b64_alphabet (a * 16 / 64)%N) as (_ & _ & H1); [divmod|].
    destruct (b64_alphabet ((a * 16) mod 64)%N) as (_ & _ & H2); [divmod|].
    rewrite !py_len_ascii by done. split; [done|].
    unfold is_ascii. cbn [list_ascii_of_string forallb].
    apply N.ltb_lt in H1, H2. by rewrite H1, H2.
  - inversion Hl as [|? ? Ha Hl']; subst. inversion Hl' as [|? ? Hb _]; subst.
    rewrite core_two by done.
    destruct (b64_alphabet ((a * 1024 + b * 4) / 4096)%N) as (_ & _ & H1); [divmod|].
    destruct (b64_alphabet (((a * 1024 + b * 4) / 64) mod 64)%N) as (_ & _ & H2); [divmod|].
    destruct (b64_alphabet ((a * 1024 + b * 4) mod 64)%N) as (_ & _ & H3); [divmod|].
    rewrite !py_len_ascii by done. split; [done|].
    unfold is_ascii. cbn [list_ascii_of_string forallb].
    apply N.ltb_lt in H1, H2, H3. by rewrite H1, H2, H3.
  - inversion Hl as [|? ? Ha Hl1]; subst. inversion Hl1 as [|? ? Hb Hl2]; subst.
    inversion Hl2 as [|? ? Hc Hl3]; subst.
    rewrite core_group by (repeat constructor; done).
    set (n := (a * 65536 + b * 256 + c)%N).
    destruct (b64_alphabet (n / 262144)%N) as (_ & _ & H1); [subst n; divmod|].
    destruct (b64_alphabet ((n / 4096) mod 64)%N) as (_ & _ & H2); [divmod|].
    destruct (b64_alphabet ((n / 64) mod 64)%N) as (_ & _ & H3); [divmod|].
    destruct (b64_alphabet (n mod 64)%N) as (_ & _ & H4); [divmod|].
    rewrite !py_len_ascii by done.
    destruct (IH Hl3) as [IHlen IHascii]. rewrite IHlen. split.
    + simpl length.
      replace (S (S (S (length l)))) with (length l + 1 * 3)%nat by lia.
      rewrite Nat.div_add, Nat.Div0.mod_add by lia. lia.
    + unfold is_ascii in *. cbn [list_ascii_of_string forallb].
      apply N.ltb_lt in H1, H2, H3, H4. by rewrite H1, H2, H3, H4.
Qed.

Lemma padding_core (l : list N) :
  bytes_ok l -> CompoundId.padding (core l) = pad_for (length l).
Proof.
  intros Hl. unfold CompoundId.padding, pad_for.
  rewrite (proj1 (py_len_core l Hl)).
  pose proof (Nat.mod_upper_bound (length l) 3) as Hm.
  set (q := (length l / 3)%nat). set (r := (length l mod 3)%nat) in *.
  destruct r as [|[|[|r]]]; [..|lia].
  - replace ((Z.of_nat (4 * q + 0) - 1) mod 4) with 3 by (zify; Z.to_euclidean_division_equations; lia).
    done.
  - replace ((Z.of_nat (4 * q + 2) - 1) mod 4) with 1 by (zify; Z.to_euclidean_division_equations; lia).
    done.
  - replace ((Z.of_nat (4 * q + 3) - 1) mod 4) with 2 by (zify; Z.to_euclidean_division_equations; lia).
    done.
Qed.

Lemma is_ascii_app s t : is_ascii (s ++ t)%string = is_ascii s && is_ascii t.
Proof.
  unfold is_ascii. induction s as [|c s IH]; [done|].
  rewrite append_String. cbn [list_ascii_of_string forallb]. by rewrite IH, andb_assoc.
Qed.

Lemma is_ascii_pad n : is_ascii (pad_for n) = true.
Proof. unfold pad_for. by destruct (n mod 3)%nat as [|[|]]. Qed.

Lemma bytes_of_string_ok s : bytes_ok (code <$> list_ascii_of_string s).
Proof.
  induction s as [|c s IH]; constructor; [|done].
  apply N_ascii_bounded.
Qed.

Lemma string_of_bytes s :
  string_of_list_ascii (chr <$> (code <$> list_ascii_of_string s)) = s.
Proof.
  induction s as [|c s IH]; [done|].
  cbn [list_ascii_of_string fmap list_fmap string_of_list_ascii].
  unfold chr, code at 1. rewrite ascii_N_embedding. f_equal. apply IH.
Qed.

(** Deobfuscation undoes obfuscation. *)
Lemma deobfuscate_obfuscate (idStr obfuscated : string) :
  CompoundId.obfuscate idStr = Ok obfuscated ->
  CompoundId.deobfuscate obfuscated = Ok idStr.
Proof.
  unfold CompoundId.obfuscate, CompoundId.deobfuscate, urlsafe_b64decode, urlsafe_b64encode.
  destruct (utf8_valid idStr) eqn:Hvalid; [|done]. intros [= <-].
  fold (core (code <$> list_ascii_of_string idStr)).
  pose proof (bytes_of_string_ok idStr) as Hb.
  rewrite padding_core by done.
  rewrite is_ascii_app, (proj2 (py_len_core _ Hb)), is_ascii_pad. simpl.
  rewrite a2b_core by done. simpl.
  by rewrite string_of_bytes, Hvalid.
Qed.

End Base64RoundTrip.

Section JsonRoundTrip.
Import Text CompoundId.

Lemma plain_String c v :
  plain (String c v) = true -> (32 <= code c)%N /\ code c <> 92%N /\ plain v = true.
Proof.
  unfold plain. cbn [list_ascii_of_string forallb].
  intros H. apply andb_prop in H as [H1 H2]. apply andb_prop in H1 as [H0 H1].
  apply N.leb_le in H0. apply negb_true_iff, N.eqb_neq in H1. done.
Qed.

Lemma is_code_spec n c : is_code n c = true <-> code c = n.
Proof. unfold is_code. apply N.eqb_eq. Qed.

Lemma is_code_false n c : code c <> n -> is_code n c = false.
Proof. unfold is_code. apply N.eqb_neq. Qed.

Lemma eqb_code (c : ascii) (n : N) : (n < 256)%N -> Ascii.eqb c (chr n) = (code c =? n)%N.
Proof.
  intros Hn. destruct (Ascii.eqb_spec c (chr n)) as [->|Hne].
  - unfold code, chr. rewrite N_ascii_embedding by done. by rewrite N.eqb_refl.
  - symmetry. apply N.eqb_neq. intros Hc. apply Hne. unfold code, chr in *.
    by rewrite <- Hc, ascii_N_embedding.
Qed.

(** The JSON string scanner reads an encoded plain value back up to
    its closing quote; [decode] leaves a plain value alone. *)
Lemma scanstring_encode (v rest : string) :
  plain v = true ->
  Json.scanstring (encode v ++ String dquote rest)%string = Some (v, rest).
Proof.
  induction v as [|c v IH]; intros Hp.
  - reflexivity.
  - apply plain_String in Hp as (H32 & H92 & Hp).
    cbn [encode]. unfold dquote at 1. rewrite eqb_code by lia.
    destruct (N.eqb_spec (code c) 34) as [H34|H34].
    + rewrite !append_String. cbn [Json.scanstring].
      change (is_code 34 backslash) with false.
      change (code backslash <? 32)%N with false.
      change (is_code 92 backslash) with true.
      change (Json.simple_escape dquote) with (Some dquote). cbn iota.
      rewrite IH by done. simpl. do 2 f_equal.
      unfold dquote, chr. rewrite <- H34. unfold code.
      by rewrite ascii_N_embedding.
    + rewrite !append_String. cbn [Json.scanstring].
      rewrite (is_code_false 34), (is_code_false 92) by done.
      destruct (N.ltb_spec (code c) 32); [lia|].
      rewrite IH by done. done.
Qed.

Lemma decode_plain (v : string) : plain v = true -> decode v = v.
Proof.
  induction v as [|c v IH]; intros Hp; [done|].
  apply plain_String in Hp as (H32 & H92 & Hp).
  cbn [decode]. destruct v as [|c' v'] eqn:Hv; [done|].
  unfold backslash at 1. rewrite eqb_code by lia.
  destruct (N.eqb_spec (code c) 92); [done|]. simpl. f_equal. by apply IH.
Qed.

Lemma append_assoc (s t u : string) : ((s ++ t) ++ u = s ++ (t ++ u))%string.
Proof. induction s as [|c s IH]; [done|]. by rewrite !append_String, IH. Qed.

Lemma length_append (s t : string) :
  String.length (s ++ t) = (String.length s + String.length t)%nat.
Proof. induction s as [|c s IH]; [done|]. rewrite append_String. simpl. by rewrite IH. Qed.

Lemma items_text_cons v vs :
  items_text (v :: vs)
  = match vs with
    | [] => quoted (encode v)
    | _ => (quoted (encode v) ++ "," ++ items_text vs)%string
    end.
Proof. by destruct vs. Qed.

Lemma quoted_append e rest :
  (quoted e ++ rest)%string = String dquote (e ++ String dquote rest)%string.
Proof. unfold quoted. by rewrite append_assoc, !append_String, append_empty. Qed.

Lemma skip_ws_not_ws c s : Json.is_ws c = false -> Json.skip_ws (String c s) = String c s.
Proof. intros H. cbn [Json.skip_ws]. by rewrite H. Qed.

Local Arguments Json.skip_ws : simpl never.
Local Arguments Json.scanstring : simpl never.
Local Arguments items_text : simpl never.

(** One step of the array scanner on an element that is a string. *)
Lemma scan_items_string (fuel : nat) (s : string) (items : list Json.value) :
  Json.scan_items (S (S fuel)) (String dquote s) items
  = match Json.scanstring s with
    | Some (content, rest) =>
        match Json.skip_ws rest with
        | String c r =>
            if is_code 93 c then Json.Parsed (Json.Arr (items ++ [Json.Str content])) r
            else if is_code 44 c
                 then Json.scan_items (S fuel) (Json.skip_ws r) (items ++ [Json.Str content])
                 else Json.Invalid
        | EmptyString => Json.Invalid
        end
    | None => Json.Invalid
    end.
Proof.
  change (Json.scan_items (S (S fuel)) (String dquote s) items)
    with (match Json.scan_once (S fuel) (String dquote s) with
          | Json.Parsed v rest =>
              match Json.skip_ws rest with
              | String c r =>
                  if is_code 93 c then Json.Parsed (Json.Arr (items ++ [v])) r
                  else if is_code 44 c
                       then Json.scan_items (S fuel) (Json.skip_ws r) (items ++ [v])
                       else Json.Invalid
              | EmptyString => Json.Invalid
              end
          | Json.Invalid => Json.Invalid
          | Json.OutOfFuel => Json.OutOfFuel
          end).
  change (Json.scan_once (S fuel) (String dquote s))
    with (match Json.scanstring s with
          | Some (content, rest) => Json.Parsed (Json.Str content) rest
          | None => Json.Invalid
          end).
  by destruct (Json.scanstring s) as [[content rest]|].
Qed.

Lemma items_text_head (vs : list string) (tail : string) :
  vs <> [] ->
  exists r, (items_text vs ++ tail)%string = String dquote r.
Proof.
  destruct vs as [|v vs]; [done|]. intros _.
  rewrite items_text_cons. destruct vs.
  - rewrite quoted_append. eauto.
  - rewrite append_assoc, quoted_append. eauto.
Qed.

(** The array scanner on the text [join] writes for plain values. *)
Lemma scan_items_join (vs : list string) : forall fuel items tail,
  vs <> [] ->
  Forall (fun v => plain v = true) vs ->
  (length vs < fuel)%nat ->
  Json.scan_items fuel (items_text vs ++ "]" ++ tail)%string items
  = Json.Parsed (Json.Arr (items ++ (Json.Str <$> vs))) tail.
Proof.
  induction vs as [|v vs IH]; intros fuel items tail Hne Hp Hfuel; [done|].
  inversion Hp as [|? ? Hv Hvs]; subst.
  destruct fuel as [|[|fuel]]; [simpl in Hfuel; lia..|].
  rewrite items_text_cons. destruct vs as [|v2 vs].
  - rewrite quoted_append, scan_items_string.
    rewrite scanstring_encode by done.
    rewrite append_String, append_empty, skip_ws_not_ws by done.
    change (is_code 93 "]") with true. done.
  - rewrite append_assoc, quoted_append, scan_items_string.
    rewrite scanstring_encode by done.
    rewrite append_assoc, append_String, append_empty, skip_ws_not_ws by done.
    change (is_code 93 ",") with false. change (is_code 44 ",") with true. cbn iota.
    destruct (items_text_head (v2 :: vs) ("]" ++ tail)%string) as [r Hr]; [done|].
    rewrite Hr, skip_ws_not_ws by done. rewrite <- Hr.
    rewrite IH; [|done|done|simpl in *; lia].
    by rewrite <- app_assoc.
Qed.

Lemma length_items_text (vs : list string) :
  (length vs <= String.length (items_text vs))%nat.
Proof.
  induction vs as [|v vs IH]; [done|].
  rewrite items_text_cons. destruct vs.
  - unfold quoted. simpl. lia.
  - rewrite !length_append. unfold quoted at 1. simpl String.length at 1.
    simpl length in *. lia.
Qed.

(** [json.loads] of what [join] writes for plain values is the list
    of those values. *)
Lemma loads_join (vs : list string) :
  Forall (fun v => plain v = true) vs ->
  Json.loads (join (encode <$> vs)) = Ok (Json.Arr (Json.Str <$> vs)).
Proof.
  intros Hp. unfold Json.loads, join. fold (items_text vs).
  rewrite append_String, append_empty, skip_ws_not_ws by done.
  pose proof (length_items_text vs) as Hlen.
  cbn [String.length]. rewrite length_append.
  replace (2 * S (String.length (items_text vs) + String.length "]") + 2)%nat
    with (S (S (2 * (String.length (items_text vs) + 1) + 2))) by (simpl; lia).
  cbn [Json.scan_once].
  change (is_code 34 "[") with false. change (is_code 123 "[") with false.
  change (is_code 91 "[") with true. cbn iota.
  destruct vs as [|v vs].
  - done.
  - assert (exists r, (items_text (v :: vs) ++ "]")%string = String dquote r) as [r Hr].
    { rewrite items_text_cons. destruct vs.
      - rewrite quoted_append. eauto.
      - rewrite append_assoc, quoted_append. eauto. }
    rewrite Hr, skip_ws_not_ws by done.
    change (is_code 93 dquote) with false. cbn iota. rewrite <- Hr.
    replace (items_text (v :: vs) ++ "]")%string
      with (items_text (v :: vs) ++ "]" ++ EmptyString)%string by done.
    rewrite scan_items_join; [done|done|done|simpl in *; lia].
Qed.

Lemma decode_items_plain (vs : list string) :
  Forall (fun v => plain v = true) vs ->
  decode_items (Json.Str <$> vs) = Ok vs.
Proof.
  induction 1 as [|v vs Hv _ IH]; [done|].
  cbn [fmap list_fmap decode_items]. change (list_fmap _ _ Json.Str vs) with (Json.Str <$> vs).
  by rewrite IH, decode_plain.
Qed.

End JsonRoundTrip.

Section ClassRoundTrip.
Import Text CompoundId.

(** [parse] on an obfuscated join of plain values goes on with exactly
    these values. *)
Lemma parse_obfuscated (cls : class) (vs : list string) (o : string) :
  Forall (fun v => plain v = true) vs ->
  obfuscate (join (encode <$> vs)) = Ok o ->
  parse cls o = of_splits cls o vs.
Proof.
  intros Hp Ho. unfold parse, of_splits.
  rewrite (deobfuscate_obfuscate _ _ Ho). cbn [try_except bind].
  unfold split. rewrite loads_join by done. cbn [bind decode_splits].
  rewrite decode_items_plain by done. done.
Qed.

Local Arguments obfuscate : simpl never.
Local Arguments join : simpl never.
Local Arguments encode : simpl never.
Local Arguments parse : simpl never.

Ltac wrong_length H :=
  match type of H with
  | (if negb (?a =? ?b) then _ else _) = _ =>
      destruct (Z.eqb_spec a b) as [E|E]; [simpl in E; lia | discriminate H]
  end.

(** The round trip for a dataset identifier. *)
Lemma round_trip_dataset (localIds : list string) (self : instance) :
  Forall (fun v => plain v = true) localIds ->
  __init__ DatasetCompoundId None localIds = Ok self ->
  exists s, __str__ self = Ok s /\ parse DatasetCompoundId s = Ok self.
Proof.
  intros Hp Hinit.
  destruct localIds as [|ds [|x l]]; [done| |].
  2:{ exfalso. unfold __init__ in Hinit. cbn in Hinit.
      wrong_length Hinit. }
  pose proof Hinit as Hself. cbn in Hself.
  destruct (obfuscate (join [encode ds])) as [o|e] eqn:Ho; [|done].
  cbn in Hself. injection Hself as <-.
  exists o. split.
  - unfold __str__. cbn. by rewrite Ho.
  - rewrite (parse_obfuscated _ [ds]); [|done|done]. exact Hinit.
Qed.

Ltac entity_round_trip :=
  let Hself := fresh "Hself" in
  intros localIds self Hp Hinit;
  destruct localIds as [|ds [|x [|y l]]];
  [ exfalso; unfold __init__ in Hinit; cbn in Hinit;
    first [discriminate Hinit | wrong_length Hinit]
  | exfalso; unfold __init__ in Hinit; cbn in Hinit;
    first [discriminate Hinit | wrong_length Hinit]
  | pose proof Hinit as Hself; cbn in Hself;
    change (negb (Z.of_nat 3 =? Z.of_nat 3 - Z.of_nat 0)) with false in Hself;
    rewrite ?append_String, ?append_empty in Hself; cbn in Hself;
    destruct (obfuscate (join [encode ds])) as [o1|e1] eqn:Ho1; [|discriminate Hself];
    match type of Hself with
    | context [obfuscate (join [encode ds; encode ?d; encode x])] =>
        destruct (obfuscate (join [encode ds; encode d; encode x])) as [o|e] eqn:Ho;
        [|discriminate Hself];
        cbn in Hself; injection Hself as <-;
        exists o; split;
        [ unfold __str__; cbn; by rewrite Ho
        | rewrite (parse_obfuscated _ [ds; d; x]); [exact Hinit| |exact Ho];
          inversion Hp as [|? ? ? Hp']; inversion Hp'; subst; by repeat constructor ]
    end
  | exfalso; unfold __init__ in Hinit; cbn in Hinit;
    first [discriminate Hinit | wrong_length Hinit] ].

(** X1. For every declared class and all plain local ids, an identifier
    that was built has a string form, and parsing the string form
    gives the identifier back. *)
Theorem parse_str_plain (cls : class) (localIds : list string) (self : instance) :
  cls ∈ classes ->
  Forall (fun v => plain v = true) localIds ->
  __init__ cls None localIds = Ok self ->
  exists s, __str__ self = Ok s /\ parse cls s = Ok self.
Proof.
  intros Hin. revert localIds self. unfold classes in Hin.
  repeat (apply elem_of_cons in Hin as [->|Hin]).
  1: intros; by eapply round_trip_dataset.
  24: by apply elem_of_nil in Hin.
  all: entity_round_trip.
Qed.
End ClassRoundTrip.

(** ** The repository's own tests, on the model *)

(** [TestTopLevelObjectGenerator]: three objects; with page token ["1"]
    the generator yields two items, with the empty token three. *)
Example testPageToken :
  Paging.drain 10
    (Paging._topLevelObjectGenerator (fun (o : Z) (_ : Z) => o)
       {| dataset_id := EmptyString; page_size := 0; page_token := "1"; filters := [] |}
       3 (fun i => Ok i) 0)
  = Some (Ok [(1, Some "2"); (2, None)]).
Proof. reflexivity. Qed.

Example testPageTokenNone :
  Paging.drain 10
    (Paging._topLevelObjectGenerator (fun (o : Z) (_ : Z) => o)
       {| dataset_id := EmptyString; page_size := 0; page_token := EmptyString;
          filters := [] |}
       3 (fun i => Ok i) 0)
  = Some (Ok [(0, Some "1"); (1, Some "2"); (2, None)]).
Proof. reflexivity. Qed.

(** [testParsePageToken] *)
Example testParsePageToken :
  Paging._parsePageToken "12:34:567:8:9000" 5 = Ok [12; 34; 567; 8; 9000].
Proof. reflexivity. Qed.

(** Pages of two out of five objects: three calls, the last token
    absent. *)
Example pages_of_two :
  Paging.all_pages (fun pageSize values => pageSize <=? Z.of_nat (length values)) 1800 10
    {| dataset_id := EmptyString; page_size := 2; page_token := EmptyString;
       filters := [] |}
    (fun r => Ok (Paging._protocolObjectGenerator r 5 (fun i => Ok i)))
  = Some (Ok [0; 1; 2; 3; 4]).
Proof. reflexivity. Qed.

(** Identifiers whose string forms have lengths 3, 0 and 2 modulo 4; a
    string form never has length 1 modulo 4. *)
Example padding_boundaries :
  let roundtrip name :=
    (let* s := str_of_new CompoundId.DatasetCompoundId [name] in
     let* self := CompoundId.parse CompoundId.DatasetCompoundId s in
     Ok (s, dict_get "dataset" (CompoundId.attrs self))) in
  roundtrip "a" = Ok ("WyJhIl0", Some "a") /\
  roundtrip "ab" = Ok ("WyJhYiJd", Some "ab") /\
  roundtrip "abc" = Ok ("WyJhYmMiXQ", Some "abc").
Proof. repeat split. Qed.

(** Two rows with the same list in two orders: one bucket, count 2. *)
Example bucket_merge :
  Query.aggregationHandler None "samples"
    {| Query.resp_tables :=
         [("samples", [ [("sampleType", JList [JStr "b"; JStr "a"])];
                        [("sampleType", JList [JStr "a"; JStr "b"])] ])];
       Query.resp_nextPageToken := None |}
    ["sampleType"]
  = Ok {| Query.resp_tables :=
            [("samples", [ [("sampleType", JDict [("a,b", JNum 2)])] ])];
          Query.resp_nextPageToken := None |}.
Proof. reflexivity. Qed.

(** A patient identifier with a space in its local id. *)
Lemma parse_str_plain_witness :
  exists s, CompoundId.__str__ example_patient_id = Ok s /\
            CompoundId.parse CompoundId.PatientCompoundId s = Ok example_patient_id.
Proof.
  apply (parse_str_plain CompoundId.PatientCompoundId ["ds"; "p 1"] example_patient_id).
  - unfold classes. right. left.
  - repeat constructor.
  - reflexivity.
Defined.

(** * Further properties *)

(** ** Identifiers: encoding, obfuscation and the classes *)

Section MoreIdentifiers.
Import Text Base64 CompoundId.

Section EncodeDecode.

Lemma encode_head (v : string) :
  match encode v with
  | String c _ => c <> dquote
  | EmptyString => v = EmptyString
  end.
Proof.
  destruct v as [|c v]; [done|]. cbn [encode].
  destruct (Ascii.eqb_spec c dquote); [done|done].
Qed.

(** X3. [decode] undoes [encode] on every string. *)
Theorem decode_encode (v : string) : decode (encode v) = v.
Proof.
  induction v as [|c v IH]; [done|]. cbn [encode].
  destruct (Ascii.eqb_spec c dquote) as [->|Hc].
  - cbn [decode]. rewrite !Ascii.eqb_refl. cbn. by rewrite IH.
  - pose proof (encode_head v) as Hh. cbn [decode].
    destruct (encode v) as [|c' e] eqn:He.
    + by subst.
    + destruct (Ascii.eqb_spec c' dquote) as [->|_]; [done|].
      rewrite andb_false_r. by rewrite IH.
Qed.

End EncodeDecode.

Section ObfuscationAlphabet.

Ltac divmod := zify; Z.to_euclidean_division_equations; lia.

Lemma b64char_urlsafe_check :
  forallb (fun x => urlsafe (b64char x)) (N.of_nat <$> seq 0 64) = true.
Proof. vm_compute. reflexivity. Qed.

Lemma b64char_urlsafe (x : N) : (x < 64)%N -> urlsafe (b64char x) = true.
Proof.
  intros Hx. pose proof b64char_urlsafe_check as H.
  rewrite forallb_forall in H. apply H.
  apply list_elem_of_In, list_elem_of_fmap. exists (N.to_nat x). split; [lia|].
  apply list_elem_of_In, in_seq. lia.
Qed.

Lemma chr_code (c : ascii) : chr (code c) = c.
Proof. apply ascii_N_embedding. Qed.

(** Every character of the alphabet is the digit of some value. *)
Lemma urlsafe_b64char (c : ascii) :
  urlsafe c = true -> exists x, (x < 64)%N /\ c = b64char x.
Proof.
  unfold urlsafe, in_range, is_code. intros H.
  pose proof (chr_code c) as Hc. set (n := code c) in *.
  repeat (apply orb_prop in H as [H|H]).
  - apply andb_prop in H as [H1 H2]. apply N.leb_le in H1, H2.
    exists (n - 65)%N. split; [lia|]. unfold b64char.
    destruct (N.ltb_spec (n - 65) 26); [|lia].
    rewrite <- Hc. f_equal. lia.
  - apply andb_prop in H as [H1 H2]. apply N.leb_le in H1, H2.
    exists (n - 71)%N. split; [lia|]. unfold b64char.
    destruct (N.ltb_spec (n - 71) 26); [lia|].
    destruct (N.ltb_spec (n - 71) 52); [|lia].
    rewrite <- Hc. f_equal. lia.
  - apply andb_prop in H as [H1 H2]. apply N.leb_le in H1, H2.
    exists (n + 4)%N. split; [lia|]. unfold b64char.
    destruct (N.ltb_spec (n + 4) 26); [lia|].
    destruct (N.ltb_spec (n + 4) 52); [lia|].
    destruct (N.ltb_spec (n + 4) 62); [|lia].
    rewrite <- Hc. f_equal. lia.
  - apply N.eqb_eq in H. exists 62%N. split; [lia|].
    rewrite <- Hc, H. reflexivity.
  - apply N.eqb_eq in H. exists 63%N. split; [lia|].
    rewrite <- Hc, H. reflexivity.
Qed.

Lemma over_alphabet_String c s :
  over_alphabet (String c s) = urlsafe c && over_alphabet s.
Proof. reflexivity. Qed.

Lemma over_alphabet_core (l : list N) : bytes_ok l -> over_alphabet (core l) = true.
Proof.
  induction l as [|a|a b|a b c l IH] using list_ind3; intros Hl.
  - done.
  - inversion Hl as [|? ? Ha _]; subst. rewrite core_one by done.
    rewrite !over_alphabet_String, !b64char_urlsafe by divmod. done.
  - inversion Hl as [|? ? Ha Hl']; subst. inversion Hl' as [|? ? Hb _]; subst.
    rewrite core_two by done.
    rewrite !over_alphabet_String, !b64char_urlsafe by divmod. done.
  - inversion Hl as [|? ? Ha Hl1]; subst. inversion Hl1 as [|? ? Hb Hl2]; subst.
    inversion Hl2 as [|? ? Hc Hl3]; subst.
    rewrite core_group by (repeat constructor; done).
    rewrite !over_alphabet_String, !b64char_urlsafe by divmod.
    by rewrite IH.
Qed.

(** X4. What [obfuscate] returns is text over the URL-safe alphabet: no
    padding character, nothing a URL has to escape; it fails only on text
    that has no UTF-8 encoding. *)
Theorem obfuscate_urlsafe (idStr : string) :
  match obfuscate idStr with
  | Ok obfuscated => over_alphabet obfuscated = true
  | Raise e => e = Builtin UnicodeEncodeError /\ utf8_valid idStr = false
  end.
Proof.
  unfold obfuscate. destruct (utf8_valid idStr); [|done].
  apply over_alphabet_core, bytes_of_string_ok.
Qed.

End ObfuscationAlphabet.

Section DeobfuscatePadding.

Ltac divmod := zify; Z.to_euclidean_division_equations; lia.

Local Arguments a2b_base64 : simpl never.
Local Arguments N.modulo : simpl never.
Local Arguments N.add : simpl never.

(** The decoder on text over the alphabet: it ends in the quad position
    the length gives, with no pad seen. *)
Lemma a2b_alphabet (s : string) : forall (q lc : N) (out : list N) (tail : string),
  over_alphabet s = true -> (q < 4)%N ->
  exists lc' out',
    a2b_base64 (s ++ tail)%string q lc 0 out
    = a2b_base64 tail ((q + N.of_nat (String.length s)) mod 4) lc' 0 out'.
Proof.
  induction s as [|c s IH]; intros q lc out tail Hs Hq.
  - exists lc, out. rewrite append_empty.
    assert (((q + N.of_nat (String.length EmptyString)) mod 4)%N = q) as ->; [|done].
    change (N.of_nat (String.length EmptyString)) with 0%N. divmod.
  - rewrite over_alphabet_String in Hs. apply andb_prop in Hs as [Hc Hs].
    destruct (urlsafe_b64char c Hc) as (x & Hx & ->).
    rewrite append_String, a2b_data by done.
    cbn [String.length].
    destruct (N.eqb_spec q 0) as [->|H0].
    { destruct (IH 1%N x out tail Hs) as (lc' & out' & ->); [lia|].
      exists lc', out'. f_equal. divmod. }
    destruct (N.eqb_spec q 1) as [->|H1].
    { destruct (IH 2%N (x mod 16)%N (out ++ [lc * 4 + x / 16])%N tail Hs)
        as (lc' & out' & ->); [lia|].
      exists lc', out'. f_equal. divmod. }
    destruct (N.eqb_spec q 2) as [->|H2].
    { destruct (IH 3%N (x mod 4)%N (out ++ [lc * 16 + x / 4])%N tail Hs)
        as (lc' & out' & ->); [lia|].
      exists lc', out'. f_equal. divmod. }
    destruct (IH 0%N 0%N (out ++ [lc * 64 + x])%N tail Hs) as (lc' & out' & ->); [lia|].
    exists lc', out'. f_equal. divmod.
Qed.

Lemma alphabet_ascii (s : string) :
  over_alphabet s = true -> is_ascii s = true /\ py_len s = String.length s.
Proof.
  induction s as [|c s IH]; [done|].
  rewrite over_alphabet_String. intros H. apply andb_prop in H as [Hc Hs].
  destruct (urlsafe_b64char c Hc) as (x & Hx & ->).
  destruct (b64_alphabet x Hx) as (_ & _ & Hlt).
  destruct (IH Hs) as [IH1 IH2]. split.
  - unfold is_ascii in *. cbn [list_ascii_of_string forallb].
    apply N.ltb_lt in Hlt. by rewrite Hlt.
  - rewrite py_len_ascii by done. cbn [String.length]. by rewrite IH2.
Qed.

(** The padding [deobfuscate] appends always completes the last quad. *)
Lemma a2b_padding (data : string) :
  over_alphabet data = true ->
  exists bytes, a2b_base64 (data ++ padding data)%string 0 0 0 [] = Ok bytes.
Proof.
  intros Hd. destruct (alphabet_ascii data Hd) as [_ Hlen].
  destruct (a2b_alphabet data 0 0 [] (padding data) Hd) as (lc & out & ->); [lia|].
  unfold padding. rewrite Hlen.
  set (n := String.length data).
  assert ((Z.of_nat n - 1) mod 4 = 3 /\ ((0 + N.of_nat n) mod 4 = 0)%N \/
          (Z.of_nat n - 1) mod 4 = 0 /\ ((0 + N.of_nat n) mod 4 = 1)%N \/
          (Z.of_nat n - 1) mod 4 = 1 /\ ((0 + N.of_nat n) mod 4 = 2)%N \/
          (Z.of_nat n - 1) mod 4 = 2 /\ ((0 + N.of_nat n) mod 4 = 3)%N)
    as [[-> ->]|[[-> ->]|[[-> ->]|[-> ->]]]] by divmod.
  - by eexists.
  - change (chr 65) with (b64char 0). rewrite a2b_data by lia.
    cbn [N.eqb Pos.eqb]. rewrite !a2b_pad. cbn. by eexists.
  - rewrite !a2b_pad. cbn. by eexists.
  - rewrite !a2b_pad. cbn. by eexists.
Qed.

(** X5. On text over the URL-safe alphabet, of whatever length,
    [deobfuscate] never fails in the base64 step: it returns the decoded
    text, or reports the decoded bytes as not found when they are not
    UTF-8. *)
Theorem deobfuscate_alphabet (data : string) :
  over_alphabet data = true ->
  exists decoded,
    urlsafe_b64decode (data ++ padding data)%string = Ok decoded /\
    deobfuscate data
    = if utf8_valid decoded then Ok decoded
      else Raise (ObjectWithIdNotFoundException decoded).
Proof.
  intros Hd. destruct (a2b_padding data Hd) as [bytes Hbytes].
  destruct (alphabet_ascii data Hd) as [Hascii _].
  assert (is_ascii (padding data) = true) as Hpad.
  { unfold padding. by destruct ((Z.of_nat (py_len data) - 1) mod 4) as [|[|[]|]|]. }
  exists (string_of_list_ascii (chr <$> bytes)).
  unfold deobfuscate, urlsafe_b64decode.
  rewrite is_ascii_app, Hascii, Hpad, Hbytes. done.
Qed.

End DeobfuscatePadding.

Section ObfuscateRoundTrip.

Ltac divmod := zify; Z.to_euclidean_division_equations; lia.

Lemma py_len_app (s t : string) : py_len (s ++ t)%string = (py_len s + py_len t)%nat.
Proof.
  induction s as [|c s IH]; [done|]. rewrite append_String. cbn [py_len].
  rewrite IH. by destruct (_ && _).
Qed.

Lemma encode_bytes_core (l : list N) :
  bytes_ok l -> encode_bytes l = (core l ++ pad_for (length l))%string.
Proof.
  induction l as [|a|a b|a b c l IH] using list_ind3; intros Hl.
  - done.
  - inversion Hl as [|? ? Ha _]; subst. by rewrite core_one.
  - inversion Hl as [|? ? Ha Hl']; subst. inversion Hl' as [|? ? Hb _]; subst.
    by rewrite core_two.
  - inversion Hl as [|? ? Ha Hl1]; subst. inversion Hl1 as [|? ? Hb Hl2]; subst.
    inversion Hl2 as [|? ? Hc Hl3]; subst.
    rewrite core_group by (repeat constructor; done).
    replace (pad_for (length (a :: b :: c :: l))) with (pad_for (length l)).
    2:{ unfold pad_for. simpl length.
        replace (S (S (S (length l)))) with (length l + 1 * 3)%nat by lia.
        by rewrite Nat.Div0.mod_add. }
    rewrite !append_String, <- IH by done. done.
Qed.

Lemma padding_padded (l : list N) :
  bytes_ok l -> padding (core l ++ pad_for (length l))%string = EmptyString.
Proof.
  intros Hl. unfold padding. rewrite py_len_app, (proj1 (py_len_core l Hl)).
  unfold pad_for.
  pose proof (Nat.mod_upper_bound (length l) 3) as Hm.
  set (q := (length l / 3)%nat). set (r := (length l mod 3)%nat) in *.
  destruct r as [|[|[|r]]]; [..|lia].
  - change (py_len EmptyString) with 0%nat.
    replace ((Z.of_nat (4 * q + 0 + 0) - 1) mod 4) with 3 by divmod. done.
  - change (py_len (String equals (String equals EmptyString))) with 2%nat.
    replace ((Z.of_nat (4 * q + 2 + 2) - 1) mod 4) with 3 by divmod. done.
  - change (py_len (String equals EmptyString)) with 1%nat.
    replace ((Z.of_nat (4 * q + 3 + 1) - 1) mod 4) with 3 by divmod. done.
Qed.

(** X2. [deobfuscate] undoes [obfuscate] on every text that has a UTF-8
    encoding, and reads the same text from the base64 form that still has
    its padding. *)
Theorem deobfuscate_inverts_obfuscate (idStr : string) :
  utf8_valid idStr = true ->
  exists obfuscated,
    obfuscate idStr = Ok obfuscated /\
    deobfuscate obfuscated = Ok idStr /\
    deobfuscate (urlsafe_b64encode idStr) = Ok idStr.
Proof.
  intros Hvalid.
  assert (obfuscate idStr = Ok (core (code <$> list_ascii_of_string idStr))) as Ho.
  { unfold obfuscate. by rewrite Hvalid. }
  eexists. split; [exact Ho|]. split; [by apply deobfuscate_obfuscate|].
  pose proof (bytes_of_string_ok idStr) as Hb.
  unfold deobfuscate, urlsafe_b64decode, urlsafe_b64encode.
  rewrite encode_bytes_core by done.
  rewrite padding_padded by done.
  assert (forall s, (s ++ EmptyString)%string = s) as Hnil.
  { induction s as [|c s IH]; [done|]. by rewrite append_String, IH. }
  rewrite Hnil, is_ascii_app, (proj2 (py_len_core _ Hb)), is_ascii_pad. simpl.
  rewrite a2b_core by done. simpl.
  by rewrite string_of_bytes, Hvalid.
Qed.

End ObfuscateRoundTrip.

Lemma deobfuscate_inverts_obfuscate_witness :
  exists obfuscated,
    obfuscate "dataset 1" = Ok obfuscated /\
    deobfuscate obfuscated = Ok "dataset 1" /\
    deobfuscate (urlsafe_b64encode "dataset 1") = Ok "dataset 1".
Proof. exact (deobfuscate_inverts_obfuscate "dataset 1" eq_refl). Defined.

Lemma deobfuscate_alphabet_witness :
  exists decoded,
    Base64.urlsafe_b64decode (id_number ++ CompoundId.padding id_number)%string = Ok decoded /\
    CompoundId.deobfuscate id_number
    = if Text.utf8_valid decoded then Ok decoded
      else Raise (ObjectWithIdNotFoundException decoded).
Proof. exact (deobfuscate_alphabet id_number eq_refl). Defined.

Section ClassShapes.

Local Arguments obfuscate : simpl never.
Local Arguments join : simpl never.
Local Arguments encode : simpl never.
Local Arguments parse : simpl never.

Ltac each_class Hin :=
  repeat (apply elem_of_cons in Hin as [->|Hin]); [..|by apply elem_of_nil in Hin].

Ltac wrong_length H :=
  match type of H with
  | (if negb (?a =? ?b) then _ else _) = _ =>
      destruct (Z.eqb_spec a b) as [E|E]; [simpl in E; lia | discriminate H]
  end.

(** An entity class is its three fields and its differentiator. *)
Lemma entity_class_shape (cls : class) :
  cls ∈ entity_classes ->
  exists name diff, cls = entityCompoundId name diff /\ plain diff = true.
Proof.
  intros Hin. unfold entity_classes, classes in Hin. cbn [tail] in Hin.
  each_class Hin; by eexists _, _.
Qed.

(** The instance [__init__] makes for an entity class. *)
Lemma init_entity (cls : class) (ds x : string) (self : instance) :
  cls ∈ entity_classes ->
  __init__ cls None [ds; x] = Ok self ->
  exists d o1 o idField prefix,
    differentiator cls = Some d /\ plain d = true /\
    obfuscate (join [encode ds]) = Ok o1 /\
    obfuscate (join (encode <$> [ds; d; x])) = Ok o /\
    __str__ self = Ok o /\
    getattr self "dataset_id" = Ok o1 /\
    last (containerIds cls) = Some (idField, prefix) /\
    getattr self idField = Ok o /\
    getattrs self (fields cls) = Ok (encode <$> [ds; d; x]).
Proof.
  intros Hin Hinit. unfold entity_classes, classes in Hin. cbn [tail] in Hin.
  each_class Hin.
  all: cbn in Hinit;
    change (negb (Z.of_nat 3 =? Z.of_nat 3 - Z.of_nat 0)) with false in Hinit;
    rewrite ?append_String, ?append_empty in Hinit; cbn in Hinit;
    destruct (obfuscate (join [encode ds])) as [o1|e1] eqn:Ho1; [|discriminate Hinit];
    match type of Hinit with
    | context [obfuscate (join [encode ?a; encode ?d; encode ?b])] =>
        destruct (obfuscate (join [encode a; encode d; encode b])) as [o|e] eqn:Ho;
        [|discriminate Hinit];
        cbn in Hinit; injection Hinit as <-;
        exists d, o1, o; eexists _, _;
        repeat split; try reflexivity; try exact Ho;
        try (unfold __str__; cbn; by rewrite Ho)
    end.
Qed.


Local Arguments __init__ : simpl never.

Lemma of_splits_entity (name diff o : string) (vs : list string) :
  of_splits (entityCompoundId name diff) o vs
  = if (1 <? length vs)%nat
    then if negb (Z.of_nat (length (delete 1%nat vs)) =? 2)
         then Raise (ObjectWithIdNotFoundException o)
         else __init__ (entityCompoundId name diff) None (delete 1%nat vs)
    else Raise (ObjectWithIdNotFoundException o).
Proof.
  unfold of_splits. cbn -[Nat.ltb Z.of_nat].
  destruct (1 <? length vs)%nat; [|done]. cbn -[Z.of_nat].
  by change (Z.of_nat 3 - 1) with 2.
Qed.

(** X6. [parse] does not compare the differentiator in the string with
    the one of the class: the string form of an identifier of one entity
    class, built from plain local ids, parses for every other entity
    class as the identifier of that class with the same local ids. *)
Theorem parse_other_entity_class (cls1 cls2 : class) (ds x s : string) (self1 : instance) :
  cls1 ∈ entity_classes -> cls2 ∈ entity_classes ->
  plain ds = true -> plain x = true ->
  __init__ cls1 None [ds; x] = Ok self1 ->
  __str__ self1 = Ok s ->
  parse cls2 s = __init__ cls2 None [ds; x].
Proof.
  intros H1 H2 Hds Hx Hinit Hstr.
  destruct (init_entity cls1 ds x self1 H1 Hinit)
    as (d & o1 & o & idField & prefix & _ & Hd & _ & Ho & Hstr' & _).
  assert (s = o) as -> by congruence.
  destruct (entity_class_shape cls2 H2) as (name & diff & -> & _).
  rewrite (parse_obfuscated _ [ds; d; x]); [|by repeat constructor|exact Ho].
  by rewrite of_splits_entity.
Qed.

(** X7. A string that holds another number of values than the class has
    fields is reported as not found: so is the identifier of a dataset
    given where an entity is meant, and an entity's where a dataset is
    meant. *)
Theorem parse_wrong_arity (cls : class) (vs : list string) (o : string) :
  cls ∈ classes ->
  Forall (fun v => plain v = true) vs ->
  obfuscate (join (encode <$> vs)) = Ok o ->
  length vs <> length (fields cls) ->
  parse cls o = Raise (ObjectWithIdNotFoundException o).
Proof.
  intros Hin Hp Ho Hlen. rewrite (parse_obfuscated cls vs o Hp Ho).
  unfold classes in Hin. apply elem_of_cons in Hin as [->|Hin].
  - unfold of_splits. cbn -[Z.of_nat]. cbn in Hlen.
    destruct (Z.eqb_spec (Z.of_nat (length vs)) (Z.of_nat 1)); [lia|done].
  - destruct (entity_class_shape cls Hin) as (name & diff & -> & _).
    rewrite of_splits_entity. cbn in Hlen.
    destruct (Nat.ltb_spec 1 (length vs)) as [Hlt|]; [|done].
    rewrite length_delete by (apply lookup_lt_is_Some; lia).
    destruct (Z.eqb_spec (Z.of_nat (length vs - 1)) 2); [lia|done].
Qed.

(** X8. The container ids of an entity identifier: [dataset_id] is the
    string form of the identifier of its dataset, and the last container
    id is the string form of the identifier itself. *)
Theorem container_ids (cls : class) (ds x : string) (self : instance) :
  cls ∈ entity_classes ->
  __init__ cls None [ds; x] = Ok self ->
  getattr self "dataset_id" = str_of_new DatasetCompoundId [ds] /\
  exists idFieldName prefix,
    last (containerIds cls) = Some (idFieldName, prefix) /\
    getattr self idFieldName = __str__ self.
Proof.
  intros Hin Hinit.
  destruct (init_entity cls ds x self Hin Hinit)
    as (d & o1 & o & idField & prefix & _ & _ & Ho1 & _ & Hstr & Hds & Hlast & Hid & _).
  split.
  - rewrite Hds. unfold str_of_new, __init__. cbn.
    change (negb (Z.of_nat 1 =? Z.of_nat 1 - Z.of_nat 0)) with false. cbn iota.
    rewrite Ho1. cbn. unfold __str__. cbn. by rewrite Ho1.
  - exists idField, prefix. split; [done|]. by rewrite Hid, Hstr.
Qed.

(** X9. An identifier built under the identifier of its dataset is the
    identifier built from the full list of local ids. *)
Theorem init_with_parent (cls : class) (ds x : string) (parent : instance) :
  cls ∈ entity_classes ->
  __init__ DatasetCompoundId None [ds] = Ok parent ->
  __init__ cls (Some parent) [x] = __init__ cls None [ds; x].
Proof.
  intros Hin Hparent. unfold __init__ in Hparent. cbn in Hparent.
  destruct (obfuscate (join [encode ds])) as [o1|e1] eqn:Ho1; [|discriminate Hparent].
  cbn in Hparent. injection Hparent as <-.
  unfold entity_classes, classes in Hin. cbn [tail] in Hin.
  each_class Hin; reflexivity.
Qed.

(** X10. With another number of local ids than the class has fields of
    its own, [__init__] raises ValueError. *)
Theorem init_wrong_count (cls : class) (localIds : list string) :
  cls ∈ classes ->
  length localIds <> local_id_count cls ->
  __init__ cls None localIds = Raise (Builtin ValueError).
Proof.
  intros Hin Hlen. unfold classes in Hin.
  apply elem_of_cons in Hin as [->|Hin].
  - unfold __init__. cbn -[Z.of_nat]. cbn in Hlen.
    destruct (Z.eqb_spec (Z.of_nat (length localIds)) (Z.of_nat 1 - Z.of_nat 0)); [lia|done].
  - destruct (entity_class_shape cls Hin) as (name & diff & -> & _).
    unfold __init__. cbn -[Z.of_nat]. cbn in Hlen.
    match goal with
    | |- (if negb (?a =? ?b) then _ else _) = _ =>
        destruct (Z.eqb_spec a b) as [E|E]; [|done]
    end.
    rewrite length_app, length_take in E. cbn [length] in E.
    rewrite length_drop in E. lia.
Qed.

End ClassShapes.

Lemma parse_other_entity_class_witness :
  CompoundId.parse CompoundId.EnrollmentCompoundId "WyJkcyIsInBhdCIsInAgMSJd"
  = CompoundId.__init__ CompoundId.EnrollmentCompoundId None ["ds"; "p 1"].
Proof.
  apply (parse_other_entity_class CompoundId.PatientCompoundId CompoundId.EnrollmentCompoundId
           "ds" "p 1" "WyJkcyIsInBhdCIsInAgMSJd" example_patient_id).
  - unfold entity_classes, classes. left.
  - unfold entity_classes, classes. right. left.
  - reflexivity.
  - reflexivity.
  - reflexivity.
  - reflexivity.
Defined.

Lemma parse_wrong_arity_witness :
  CompoundId.parse CompoundId.PatientCompoundId "WyJkcyJd"
  = Raise (ObjectWithIdNotFoundException "WyJkcyJd").
Proof.
  apply (parse_wrong_arity CompoundId.PatientCompoundId ["ds"] "WyJkcyJd").
  - unfold classes. right. left.
  - repeat constructor.
  - reflexivity.
  - discriminate.
Defined.

Lemma container_ids_witness :
  CompoundId.getattr example_patient_id "dataset_id"
  = Spec.str_of_new CompoundId.DatasetCompoundId ["ds"] /\
  exists idFieldName prefix,
    last (CompoundId.containerIds CompoundId.PatientCompoundId) = Some (idFieldName, prefix) /\
    CompoundId.getattr example_patient_id idFieldName = CompoundId.__str__ example_patient_id.
Proof.
  apply (container_ids CompoundId.PatientCompoundId "ds" "p 1" example_patient_id).
  - unfold entity_classes, classes. left.
  - reflexivity.
Defined.

Lemma init_with_parent_witness :
  CompoundId.__init__ CompoundId.PatientCompoundId (Some example_dataset_id) ["p 1"]
  = CompoundId.__init__ CompoundId.PatientCompoundId None ["ds"; "p 1"].
Proof.
  apply (init_with_parent CompoundId.PatientCompoundId "ds" "p 1" example_dataset_id).
  - unfold entity_classes, classes. left.
  - reflexivity.
Defined.

Lemma init_wrong_count_witness :
  CompoundId.__init__ CompoundId.PatientCompoundId None ["ds"] = Raise (Builtin ValueError).
Proof.
  apply (init_wrong_count CompoundId.PatientCompoundId ["ds"]).
  - unfold classes. right. left.
  - discriminate.
Defined.

End MoreIdentifiers.

(** ** The filter engine: operators, errors and the scan *)

Section OperatorProperties.
Variable get_close_matches : string -> list string -> list string.

Local Abbreviation check_filter := (FilterEngine.check_filter get_close_matches).
Local Abbreviation comparison_loop := (FilterEngine.comparison_loop get_close_matches).
Local Abbreviation comparisonGenerator := (FilterEngine.comparisonGenerator get_close_matches).

Lemma lower_ascii_idemp (c : ascii) : lower_ascii (lower_ascii c) = lower_ascii c.
Proof.
  unfold lower_ascii.
  destruct ((65 <=? N_of_ascii c)%N && (N_of_ascii c <=? 90)%N) eqn:Hc; [|by rewrite Hc].
  apply andb_prop in Hc as [H1 H2]. apply N.leb_le in H1, H2.
  rewrite N_ascii_embedding by lia.
  destruct (N.leb_spec (N_of_ascii c + 32) 90); [lia|]. by rewrite andb_false_r.
Qed.

Lemma lower_idemp (s : string) : lower (lower s) = lower s.
Proof. induction s as [|c s IH]; [done|]. cbn. by rewrite lower_ascii_idemp, IH. Qed.

Lemma check_filter_lower obj f : check_filter obj (lower_operator f) = check_filter obj f.
Proof.
  unfold FilterEngine.check_filter, lower_operator.
  destruct f as [field [operator|] [value|] values]; cbn; try done.
  by rewrite lower_idemp.
Qed.

(** X11. The operator of a filter is looked up in lower case, so the
    case of its letters does not matter: a filter list and the list with
    every operator lower-cased give the same outcome on every object. *)
Theorem comparisonGenerator_operator_case (obj : DatamodelObject) (fs : list valid_filter) :
  comparisonGenerator obj (lower_operator <$> fs) = comparisonGenerator obj fs.
Proof.
  unfold FilterEngine.comparisonGenerator. f_equal.
  induction fs as [|f fs IH]; [done|].
  cbn [fmap list_fmap FilterEngine.comparison_loop].
  change (list_fmap _ _ lower_operator fs) with (lower_operator <$> fs).
  by rewrite check_filter_lower, IH.
Qed.

Lemma ops_raise operator op v w e :
  dict_get operator ops = Some op -> op v w = Raise e -> e = Builtin TypeError.
Proof.
  unfold ops. cbn [dict_get]. intros Hop He.
  repeat match type of Hop with
         | (if ?b then _ else _) = _ => destruct b
         end;
    simplify_eq;
    unfold op_gt, op_ge, op_lt, op_le, op_eq, op_ne, op_contains in He;
    repeat case_match; simplify_eq; done.
Qed.

Lemma mapper_raise obj field e :
  mapper get_close_matches obj field = Raise e -> filter_error e = true.
Proof. unfold mapper. repeat case_match; intros; simplify_eq; done. Qed.

Lemma getitem_raise {A} (o : option A) e : getitem o = Raise e -> e = Builtin KeyError.
Proof. destruct o; cbn; congruence. Qed.

Lemma getitem_ok {A} (o : option A) a : getitem o = Ok a -> o = Some a.
Proof. destruct o; cbn; congruence. Qed.

Lemma filter_error_except e : filter_error e = true -> filter_error (comparison_except e) = true.
Proof. by destruct e. Qed.

Lemma check_filter_raise obj f e :
  check_filter obj f = Raise e ->
  filter_error (comparison_except e) = true.
Proof.
  unfold FilterEngine.check_filter. intros H.
  repeat match type of H with
         | context [match ?x with _ => _ end] => destruct x eqn:?
         | context [bind ?x _] => destruct x eqn:?; cbn [bind] in H
         end; simplify_eq;
    repeat match goal with
           | H : getitem _ = Raise _ |- _ => apply getitem_raise in H; subst
           | H : getitem _ = Ok _ |- _ => apply getitem_ok in H
           | H : mapper _ _ _ = Raise _ |- _ => apply mapper_raise in H
           | H : dict_get _ ops = Some ?op, H' : ?op _ _ = Raise _ |- _ =>
               apply (ops_raise _ _ _ _ _ H) in H'; subst
           end; try done; by apply filter_error_except.
Qed.

(** X12. Whatever the filters are, [comparisonGenerator] raises nothing
    but the four error classes of the filter engine: a bad input type,
    a bad filter key, and the two bad field names. *)
Theorem comparisonGenerator_errors (obj : DatamodelObject) (fs : list valid_filter) (e : exn) :
  comparisonGenerator obj fs = Raise e -> filter_error e = true.
Proof.
  unfold FilterEngine.comparisonGenerator, try_except.
  destruct (comparison_loop obj fs) as [b|e'] eqn:Hloop; [done|].
  intros [= <-]. revert Hloop.
  induction fs as [|f fs IH]; [done|]. cbn [FilterEngine.comparison_loop].
  destruct (check_filter obj f) as [[]|e''] eqn:Hf; cbn [bind].
  - exact IH.
  - done.
  - intros [= <-]. by apply (check_filter_raise obj f).
Qed.

Local Arguments dict_get : simpl never.

Lemma comparison_loop_raise obj pre f rest e :
  Forall (fun g => check_filter obj g = Ok true) pre ->
  check_filter obj f = Raise e ->
  comparison_loop obj (pre ++ f :: rest) = Raise e.
Proof.
  induction 1 as [|g pre Hg _ IH]; cbn; intros Hf.
  - by rewrite Hf.
  - rewrite Hg. cbn. by apply IH.
Qed.

(** X13. Which error a scalar filter gives, when the filters before it
    pass. An operator that is missing or, in lower case, not a key of
    [ops] is a bad filter key, whatever the field and the object are:
    the operator is looked up first. With a known operator, a field the
    object has no getter for is reported by [mapper] as a bad field
    name, with the close match when there is one. *)
Theorem comparisonGenerator_operator_first (obj : DatamodelObject)
    (pre rest : list valid_filter) (f : valid_filter) (value : pyval) :
  Forall (fun g => check_filter obj g = Ok true) pre ->
  f_value f = Some value ->
  (from_option (fun operator => dict_get (lower operator) ops) None (f_operator f) = None ->
   comparisonGenerator obj (pre ++ f :: rest) = Raise BadFilterKeyException) /\
  (forall operator op field,
     f_operator f = Some operator -> dict_get (lower operator) ops = Some op ->
     f_field f = Some field -> _objectAttr obj !! field = None ->
     comparisonGenerator obj (pre ++ f :: rest)
     = match get_close_matches field (fst <$> map_to_list (_objectAttr obj)) with
       | closeMatch :: _ => Raise (BadFieldNameException field closeMatch)
       | [] => Raise (BadFieldNameNoCloseMatchException field)
       end).
Proof.
  intros Hpre Hv. unfold FilterEngine.comparisonGenerator. split.
  - intros Hop.
    rewrite (comparison_loop_raise obj pre f rest (Builtin KeyError)); [done|done|].
    unfold FilterEngine.check_filter. rewrite Hv.
    destruct (f_operator f) as [operator|]; [|done]. cbn in Hop |- *.
    by rewrite Hop.
  - intros operator op field Ho Hop Hf Hattr.
    assert (forall e, mapper get_close_matches obj field = Raise e ->
                      check_filter obj f = Raise e) as Hc.
    { intros e He. unfold FilterEngine.check_filter.
      rewrite Hv, Ho. cbn. rewrite Hop, Hf. cbn. by rewrite He. }
    unfold mapper in Hc. rewrite Hattr in Hc.
    destruct (get_close_matches field _) as [|closeMatch ?] eqn:Hm.
    + by rewrite (comparison_loop_raise obj pre f rest _ Hpre (Hc _ eq_refl)).
    + by rewrite (comparison_loop_raise obj pre f rest _ Hpre (Hc _ eq_refl)).
Qed.

End OperatorProperties.

Section ScanProperties.
Variable get_close_matches : string -> list string -> list string.

Local Abbreviation comparisonGenerator := (FilterEngine.comparisonGenerator get_close_matches).
Local Abbreviation scan := (FilterEngine.scan get_close_matches).
Local Abbreviation qualified := (qualified get_close_matches).

Lemma scan_ok (fs : list valid_filter) (objs : list DatamodelObject) :
  Forall (fun obj => exists b, comparisonGenerator obj fs = Ok b) objs ->
  forall results scanned,
    scan fs objs results scanned
    = (Ok (results ++ List.filter (qualified fs) objs), scanned ++ objs).
Proof.
  induction 1 as [|obj objs [b Hb] _ IH]; intros results scanned; cbn.
  - by rewrite !app_nil_r.
  - unfold Spec.qualified at 1. rewrite Hb. rewrite IH.
    destruct b; by rewrite <- !app_assoc.
Qed.

(** X14. The scan of a search generator keeps exactly the objects for
    which [comparisonGenerator] returns True, in the order of the
    collection, having looked at every object; and the first object on
    which the comparison raises ends the scan with that error, the
    objects after it not being looked at. *)
Theorem scan_keeps_qualified (fs : list valid_filter) (objs : list DatamodelObject) :
  (Forall (fun obj => exists b, comparisonGenerator obj fs = Ok b) objs ->
   scan fs objs [] [] = (Ok (List.filter (qualified fs) objs), objs)) /\
  (forall pre obj rest e,
     objs = pre ++ obj :: rest ->
     Forall (fun obj => exists b, comparisonGenerator obj fs = Ok b) pre ->
     comparisonGenerator obj fs = Raise e ->
     scan fs objs [] [] = (Raise e, pre ++ [obj])).
Proof.
  split.
  - intros Hall. by rewrite scan_ok.
  - intros pre obj rest e -> Hpre He.
    assert (forall results scanned,
      scan fs (pre ++ obj :: rest) results scanned = (Raise e, scanned ++ pre ++ [obj])) as H.
    { induction Hpre as [|o pre [b Hb] _ IH]; intros results scanned; cbn.
      - by rewrite He.
      - rewrite Hb, IH. by rewrite <- app_assoc. }
    apply (H [] []).
Qed.

End ScanProperties.

Lemma comparisonGenerator_errors_witness :
  filter_error BadFilterKeyException = true.
Proof.
  exact (comparisonGenerator_errors no_close_matches example_patient
           [bad_operator_filter] BadFilterKeyException eq_refl).
Defined.

Lemma comparisonGenerator_operator_first_witness :
  comparisonGenerator no_close_matches example_patient
    (example_filters ++ bad_operator_filter :: [bad_field_filter])
  = Raise BadFilterKeyException.
Proof.
  refine (proj1 (comparisonGenerator_operator_first no_close_matches example_patient
                   example_filters [bad_field_filter] bad_operator_filter
                   (VStr "female") _ eq_refl) eq_refl).
  repeat constructor.
Defined.

(** ** Searches over lists, page by page *)

Section ListGenerators.
Context {Obj Elt : Type}.
Implicit Types g : Paging.generator Obj Elt.

Import Paging.

Lemma list_getitem_item_at (d : Obj) (l : list Obj) (i : Z) :
  - Z.of_nat (length l) <= i < Z.of_nat (length l) ->
  list_getitem l i = Ok (item_at d l i).
Proof.
  intros Hi. unfold list_getitem, item_at.
  set (j := if i <? 0 then i + Z.of_nat (length l) else i).
  assert (0 <= j < Z.of_nat (length l)) as Hj.
  { unfold j. destruct (Z.ltb_spec i 0); lia. }
  destruct (Z.leb_spec 0 j); [|lia]. destruct (Z.ltb_spec j (Z.of_nat (length l))); [|lia].
  cbn. destruct (l !! Z.to_nat j) as [a|] eqn:Hl.
  - f_equal. symmetry. by apply nth_lookup_Some with (d := d) in Hl.
  - apply lookup_ge_None in Hl. lia.
Qed.

Lemma list_getitem_below (l : list Obj) (i : Z) :
  i < - Z.of_nat (length l) -> list_getitem l i = Raise (Builtin IndexError).
Proof.
  intros Hi. unfold list_getitem.
  destruct (Z.ltb_spec i 0); [|lia].
  destruct (Z.leb_spec 0 (i + Z.of_nat (length l))); [lia|done].
Qed.

Lemma item_at_seqZ (d : Obj) (l : list Obj) :
  item_at d l <$> seqZ 0 (Z.of_nat (length l)) = l.
Proof.
  apply list_eq. intros i. rewrite list_lookup_fmap.
  destruct (l !! i) as [a|] eqn:Hl.
  - pose proof (lookup_lt_Some _ _ _ Hl) as Hlt.
    rewrite lookup_seqZ_lt by lia. cbn. f_equal.
    unfold item_at. destruct (Z.ltb_spec (0 + Z.of_nat i) 0); [lia|].
    replace (Z.to_nat (0 + Z.of_nat i)) with i by lia.
    by apply nth_lookup_Some.
  - apply lookup_ge_None in Hl. rewrite lookup_seqZ_ge by lia. done.
Qed.

Lemma item_at_negative (d : Obj) (l : list Obj) (k : nat) :
  (k <= length l)%nat ->
  item_at d l <$> seqZ (- Z.of_nat k) (Z.of_nat k) = drop (length l - k) l.
Proof.
  intros Hk. apply list_eq. intros i. rewrite list_lookup_fmap, lookup_drop.
  destruct (decide (i < k)%nat) as [Hi|Hi].
  - rewrite lookup_seqZ_lt by lia. cbn.
    unfold item_at. destruct (Z.ltb_spec (- Z.of_nat k + Z.of_nat i) 0); [|lia].
    replace (Z.to_nat (- Z.of_nat k + Z.of_nat i + Z.of_nat (length l)))
      with (length l - k + i)%nat by lia.
    destruct (l !! (length l - k + i)%nat) as [a|] eqn:Hl.
    + f_equal. by apply nth_lookup_Some.
    + apply lookup_ge_None in Hl. lia.
  - rewrite lookup_seqZ_ge by lia. cbn. symmetry. apply lookup_ge_None. lia.
Qed.

Lemma items_from_negative (d : Obj) (l : list Obj) (s : Z) :
  - Z.of_nat (length l) <= s <= 0 ->
  item_at d l <$> seqZ s (Z.of_nat (length l) - s)
  = drop (length l - Z.to_nat (- s)) l ++ l.
Proof.
  intros Hs.
  replace (Z.of_nat (length l) - s)
    with (Z.of_nat (Z.to_nat (- s)) + Z.of_nat (length l)) by lia.
  rewrite seqZ_app, fmap_app by lia.
  replace (s + Z.of_nat (Z.to_nat (- s))) with 0 by lia.
  rewrite item_at_seqZ. f_equal.
  replace s with (- Z.of_nat (Z.to_nat (- s))) at 1 by lia.
  apply item_at_negative. lia.
Qed.

Lemma next_step_in g fetch s :
  (s < gen_numObjects g -> gen_getByIndexMethod g s = Ok (fetch s)) ->
  start_index g = Ok s ->
  next g = if s <? gen_numObjects g
           then Ok (Some (yielded g fetch s, resume g (s + 1)))
           else Ok None.
Proof.
  intros Hf Hs. unfold next. rewrite Hs. cbn.
  destruct (Z.ltb_spec s (gen_numObjects g)); [|done]. by rewrite Hf.
Qed.

Lemma drain_yields_in g fetch :
  forall (fuel : nat) (s : Z),
    (forall i, s <= i < gen_numObjects g -> gen_getByIndexMethod g i = Ok (fetch i)) ->
    start_index g = Ok s ->
    (Z.to_nat (gen_numObjects g - s) < fuel)%nat ->
    drain fuel g
    = Some (Ok (yielded g fetch <$> seqZ s (gen_numObjects g - s))).
Proof.
  intros fuel. revert g.
  induction fuel as [|fuel IH]; intros g s Hf Hs Hfuel; [lia|].
  cbn. rewrite (next_step_in g fetch s); [|intros; apply Hf; lia|done].
  destruct (Z.ltb_spec s (gen_numObjects g)) as [Hlt|Hge].
  - rewrite (IH (resume g (s + 1)) (s + 1)); [| |done|cbn; lia].
    2:{ intros i Hi. apply Hf. cbn in Hi. lia. }
    rewrite (seqZ_cons s) by lia. cbn.
    replace (Z.pred (gen_numObjects g - s)) with (gen_numObjects g - (s + 1)) by lia.
    replace (Z.succ s) with (s + 1) by lia.
    reflexivity.
  - by rewrite seqZ_nil by lia.
Qed.

Section ListPageProperties.
Variable isFull : Z -> list Elt -> bool.
Variable defaultPageSize : Z.

Local Abbreviation fill := (Paging.fill isFull).
Local Abbreviation runSearchRequest :=
  (Paging.runSearchRequest isFull defaultPageSize).
Local Abbreviation follow := (Paging.follow isFull defaultPageSize).
Local Abbreviation all_pages := (Paging.all_pages isFull defaultPageSize).

Lemma fill_page_in g fetch (pageSize : Z) :
  forall (fuel : nat) (s : Z) (values : list Elt) (tok : option string),
    (forall i, s <= i < gen_numObjects g -> gen_getByIndexMethod g i = Ok (fetch i)) ->
    start_index g = Ok s ->
    (Z.to_nat (gen_numObjects g - s) < fuel)%nat ->
    exists k : Z,
      0 <= k /\ (s < gen_numObjects g -> 1 <= k /\ s + k <= gen_numObjects g) /\
      (gen_numObjects g <= s -> k = 0) /\
      fill fuel pageSize g values tok
      = Some (Ok {| resp_values :=
                      values ++ ((fun i => gen_emit g (fetch i)) <$> seqZ s k);
                    resp_nextPageToken :=
                      if k =? 0 then tok else token_at (gen_numObjects g) (s + k) |}).
Proof.
  intros fuel. revert g.
  induction fuel as [|fuel IH]; intros g s values tok Hf Hs Hfuel; [lia|].
  cbn. rewrite (next_step_in g fetch s); [|intros; apply Hf; lia|done].
  destruct (Z.ltb_spec s (gen_numObjects g)) as [Hlt|Hge].
  - unfold yielded. fold (token_at (gen_numObjects g) (s + 1)).
    destruct (isFull _ _).
    + exists 1. split; [lia|]. split; [lia|]. split; [lia|].
      by rewrite (seqZ_cons s), seqZ_nil by lia.
    + destruct (IH (resume g (s + 1)) (s + 1)
                  (values ++ [gen_emit g (fetch s)])
                  (token_at (gen_numObjects g) (s + 1)))
        as (k & Hk0 & Hk1 & Hk2 & ->); [|done|cbn; lia|].
      { intros i Hi. apply Hf. cbn in Hi. lia. }
      cbn in Hk1, Hk2.
      exists (k + 1). split; [lia|]. split; [lia|]. split; [lia|].
      cbn. rewrite (seqZ_cons s (k + 1)) by lia.
      replace (Z.pred (k + 1)) with k by lia.
      replace (Z.succ s) with (s + 1) by lia.
      rewrite <- app_assoc. cbn.
      replace (s + (k + 1)) with (s + 1 + k) by lia.
      destruct (Z.eqb_spec (k + 1) 0); [lia|].
      destruct (Z.eqb_spec k 0) as [->|Hk]; [|done].
      by rewrite Z.add_0_r.
  - exists 0. split; [lia|]. split; [lia|]. split; [lia|].
    by rewrite seqZ_nil, app_nil_r by lia.
Qed.

Lemma runSearchRequest_page_list
    (objectGenerator : SearchRequest -> result (generator Obj Elt))
    (request0 : SearchRequest) (objs : list Obj) (emit : Obj -> Elt) (d : Obj)
    (fuel : nat) (request : SearchRequest) (s : Z) :
  pages_of_list objectGenerator request0 objs emit ->
  dataset_id request = dataset_id request0 -> filters request = filters request0 ->
  0 <= page_size request -> (page_size request = 0 -> 0 <= defaultPageSize) ->
  (page_token request = EmptyString /\ s = 0 \/ page_token request = str_of_int s) ->
  - Z.of_nat (length objs) <= s ->
  (Z.to_nat (Z.of_nat (length objs) - s) < fuel)%nat ->
  exists k : Z,
    0 <= k /\ (s < Z.of_nat (length objs) -> 1 <= k /\ s + k <= Z.of_nat (length objs)) /\
    (Z.of_nat (length objs) <= s -> k = 0) /\
    runSearchRequest fuel request objectGenerator
    = Some (Ok {| resp_values := (fun i => emit (item_at d objs i)) <$> seqZ s k;
                  resp_nextPageToken :=
                    if k =? 0 then None else token_at (Z.of_nat (length objs)) (s + k) |}).
Proof.
  intros Hog Hds Hfs Hp Hd Htok Hlow Hfuel. unfold Paging.runSearchRequest.
  set (request' := if page_size request =? 0
                   then set_page_size request defaultPageSize else request).
  assert (page_token request' = page_token request /\
          dataset_id request' = dataset_id request /\
          filters request' = filters request) as (Htok' & Hds' & Hfs').
  { unfold request'. by destruct (page_size request =? 0). }
  assert (0 <= page_size request') as Hp'.
  { unfold request'. destruct (Z.eqb_spec (page_size request) 0); cbn; auto. }
  destruct (Z.ltb_spec (page_size request') 0) as [|_]; [lia|].
  destruct (Hog request') as (g & -> & Hgt & HgN & Hgf & Hge & Hgs); [congruence..|].
  assert (start_index g = Ok s) as Hs.
  { destruct Htok as [[Ht ->]|Ht].
    - apply start_index_empty; congruence.
    - apply start_index_token; congruence. }
  destruct (fill_page_in g (item_at d objs) (page_size request') fuel s [] None)
    as (k & Hk0 & Hk1 & Hk2 & ->); [|done|by rewrite HgN|].
  { intros i Hi. rewrite Hgf. apply list_getitem_item_at. lia. }
  rewrite HgN, Hge in *. exists k. done.
Qed.

Lemma follow_pages_list
    (objectGenerator : SearchRequest -> result (generator Obj Elt))
    (request0 : SearchRequest) (objs : list Obj) (emit : Obj -> Elt) (d : Obj) :
  pages_of_list objectGenerator request0 objs emit ->
  forall (fuel : nat) (s : Z) (request : SearchRequest) (responses : list Elt),
    dataset_id request = dataset_id request0 -> filters request = filters request0 ->
    0 <= page_size request -> (page_size request = 0 -> 0 <= defaultPageSize) ->
    - Z.of_nat (length objs) <= s ->
    (Z.to_nat (Z.of_nat (length objs) - s) + 1 < fuel)%nat ->
    follow fuel request objectGenerator responses (token_at (Z.of_nat (length objs)) s)
    = Some (Ok (responses ++ ((fun i => emit (item_at d objs i))
                               <$> seqZ s (Z.of_nat (length objs) - s)))).
Proof.
  intros Hog fuel.
  induction fuel as [|fuel IH]; intros s request responses Hds Hfs Hp Hd Hlow Hfuel; [lia|].
  cbn. unfold token_at at 1.
  destruct (Z.ltb_spec s (Z.of_nat (length objs))) as [Hlt|Hge].
  - destruct (str_of_int_nonempty s) as (c & t & Hs). rewrite Hs.
    destruct (runSearchRequest_page_list objectGenerator request0 objs emit d fuel
                (set_page_token request (String c t)) s Hog)
      as (k & Hk0 & Hk1 & Hk2 & ->); cbn; auto; [lia|].
    destruct (Hk1 Hlt) as [Hk3 Hk4].
    destruct (Z.eqb_spec k 0); [lia|].
    rewrite IH by (cbn; auto; lia).
    rewrite <- app_assoc, <- fmap_app, <- seqZ_app by lia.
    by replace (k + (Z.of_nat (length objs) - (s + k)))
      with (Z.of_nat (length objs) - s) by lia.
  - by rewrite seqZ_nil, app_nil_r by lia.
Qed.

Lemma all_pages_list
    (objectGenerator : SearchRequest -> result (generator Obj Elt))
    (objs : list Obj) (emit : Obj -> Elt) (fuel : nat) (request : SearchRequest) :
  pages_of_list objectGenerator request objs emit ->
  page_token request = EmptyString ->
  0 <= page_size request -> (page_size request = 0 -> 0 <= defaultPageSize) ->
  (length objs + 1 < fuel)%nat ->
  all_pages fuel request objectGenerator = Some (Ok (emit <$> objs)).
Proof.
  intros Hog Htok Hp Hd Hfuel.
  destruct objs as [|d objs'] eqn:Hobjs.
  - (* nothing to page over: one empty page *)
    unfold Paging.all_pages, Paging.runSearchRequest.
    set (request' := if page_size request =? 0
                     then set_page_size request defaultPageSize else request).
    assert (page_token request' = page_token request /\
            dataset_id request' = dataset_id request /\
            filters request' = filters request) as (Htok' & Hds' & Hfs').
    { unfold request'. by destruct (page_size request =? 0). }
    assert (0 <= page_size request') as Hp'.
    { unfold request'. destruct (Z.eqb_spec (page_size request) 0); cbn; auto. }
    destruct (Z.ltb_spec (page_size request') 0) as [|_]; [lia|].
    destruct (Hog request') as (g & -> & Hgt & HgN & Hgf & Hge & Hgs); [congruence..|].
    destruct fuel as [|fuel]; [cbn in Hfuel; lia|]. cbn.
    unfold next. rewrite start_index_empty by congruence. cbn.
    rewrite HgN. cbn. done.
  - rewrite <- Hobjs in *. clear Hobjs objs'.
    unfold Paging.all_pages.
    destruct (runSearchRequest_page_list objectGenerator request objs emit d fuel
                request 0 Hog)
      as (k & Hk0 & Hk1 & Hk2 & ->); auto; [lia..|]. cbn.
    assert (emit <$> objs
            = (fun i => emit (item_at d objs i)) <$> seqZ 0 (Z.of_nat (length objs))) as ->.
    { rewrite <- (item_at_seqZ d objs) at 1. by rewrite <- list_fmap_compose. }
    destruct (Z.eqb_spec k 0) as [->|Hk].
    + destruct fuel; [lia|]. cbn.
      destruct (Z.le_gt_cases (Z.of_nat (length objs)) 0); [by rewrite !seqZ_nil by lia|lia].
    + assert (0 < Z.of_nat (length objs)) as HN by lia. destruct (Hk1 HN) as [Hk3 Hk4].
      rewrite (follow_pages_list objectGenerator request objs emit d Hog) by (auto; lia).
      rewrite <- fmap_app, <- seqZ_app by lia.
      by replace (k + (Z.of_nat (length objs) - (0 + k))) with (Z.of_nat (length objs)) by lia.
Qed.

End ListPageProperties.
End ListGenerators.

Section SearchPages.
Variable get_close_matches : string -> list string -> list string.
Context {Elt : Type}.
Variable toProtocolElement : DatamodelObject -> Z -> Elt.
Variable repo : DataRepository.
Variable isFull : Z -> list Elt -> bool.
Variable defaultPageSize : Z.

Local Abbreviation comparisonGenerator := (FilterEngine.comparisonGenerator get_close_matches).
Local Abbreviation searchGenerator :=
  (FilterEngine.searchGenerator get_close_matches toProtocolElement repo).
Local Abbreviation qualified := (qualified get_close_matches).

Lemma searchGenerator_pages (collection : entity) (request : SearchRequest)
    (access_map : gmap string Z) (dataset : Dataset) (tier : Z) :
  getDataset repo (dataset_id request) = Ok dataset ->
  access_map !! getLocalId dataset = Some tier ->
  Forall (fun f => well_formed f = true) (filters request) ->
  Forall (fun obj => exists b,
            comparisonGenerator obj (materialize <$> filters request) = Ok b)
         (ds_entities dataset collection) ->
  pages_of_list (fun r => (searchGenerator collection r access_map).1) request
    (List.filter (qualified (materialize <$> filters request))
       (ds_entities dataset collection))
    (fun o => toProtocolElement o tier).
Proof.
  intros Hds Htier Hwf Hcmp r Hr1 Hr2. eexists. split.
  - unfold FilterEngine.searchGenerator, getUserAccessTier, filtersValidator.
    rewrite Hr1, Hds, Htier, Hr2, (validate_all_ok _ Hwf).
    rewrite (scan_ok get_close_matches _ _ Hcmp). cbn. reflexivity.
  - done.
Qed.

(** X15. A search end point, followed through its page tokens from the
    empty token until none is returned, gives exactly the objects of the
    collection that qualify under the request's filters, once each and
    in the order of the collection, each in its wire form at the tier
    the access map gives the user for the data set; this for every page
    size and wherever the response builder cuts the pages. *)
Theorem search_all_pages (collection : entity) (request : SearchRequest)
    (access_map : gmap string Z) (dataset : Dataset) (tier : Z) (fuel : nat) :
  getDataset repo (dataset_id request) = Ok dataset ->
  access_map !! getLocalId dataset = Some tier ->
  Forall (fun f => well_formed f = true) (filters request) ->
  Forall (fun obj => exists b,
            comparisonGenerator obj (materialize <$> filters request) = Ok b)
         (ds_entities dataset collection) ->
  page_token request = EmptyString ->
  0 <= page_size request -> (page_size request = 0 -> 0 <= defaultPageSize) ->
  (length (ds_entities dataset collection) + 1 < fuel)%nat ->
  Paging.all_pages isFull defaultPageSize fuel request
    (fun r => (searchGenerator collection r access_map).1)
  = Some (Ok ((fun o => toProtocolElement o tier)
                <$> List.filter (qualified (materialize <$> filters request))
                      (ds_entities dataset collection))).
Proof.
  intros Hds Htier Hwf Hcmp Htok Hp Hd Hfuel.
  apply all_pages_list; try done.
  - by apply searchGenerator_pages with (dataset := dataset).
  - pose proof (filter_length (qualified (materialize <$> filters request))
                  (ds_entities dataset collection)). lia.
Qed.

End SearchPages.

Section PageTokenBounds.
Context {Obj Elt : Type}.
Variable toProtocolElement : Obj -> Z -> Elt.
Variable isFull : Z -> list Elt -> bool.
Variable defaultPageSize : Z.

Import Paging.

(** X16. A page token at or past the end of the list is no error: the
    page is empty and carries no token. *)
Theorem page_token_past_end (objectList : list Obj) (tier : Z)
    (request : SearchRequest) (s : Z) (fuel : nat) :
  page_token request = str_of_int s ->
  Z.of_nat (length objectList) <= s ->
  0 <= page_size request -> (page_size request = 0 -> 0 <= defaultPageSize) ->
  (0 < fuel)%nat ->
  runSearchRequest isFull defaultPageSize fuel request
    (fun r => Ok (_objectListGenerator toProtocolElement r objectList tier))
  = Some (Ok {| resp_values := []; resp_nextPageToken := None |}).
Proof.
  intros Htok Hs Hp Hd Hfuel. unfold runSearchRequest.
  set (request' := if page_size request =? 0
                   then set_page_size request defaultPageSize else request).
  assert (page_token request' = page_token request) as Htok'.
  { unfold request'. by destruct (page_size request =? 0). }
  assert (0 <= page_size request') as Hp'.
  { unfold request'. destruct (Z.eqb_spec (page_size request) 0); cbn; auto. }
  destruct (Z.ltb_spec (page_size request') 0) as [|_]; [lia|].
  destruct fuel as [|fuel]; [lia|]. cbn [fill].
  unfold next. rewrite (start_index_token _ s); [|done|cbn; congruence]. cbn.
  destruct (Z.ltb_spec s (Z.of_nat (length objectList))); [lia|done].
Qed.

(** X17. A page token that is a negative number is taken as an index
    from the end of the list. Within the length of the list the
    generator yields the last objects from there on and then the whole
    list from its start; further down the first step raises
    IndexError. *)
Theorem negative_page_token (objectList : list Obj) (tier : Z)
    (request : SearchRequest) (s : Z) (fuel : nat) :
  page_token request = str_of_int s ->
  s < 0 ->
  (Z.to_nat (Z.of_nat (length objectList) - s) < fuel)%nat ->
  drain fuel (_objectListGenerator toProtocolElement request objectList tier)
  = if s <? - Z.of_nat (length objectList)
    then Some (Raise (Builtin IndexError))
    else Some (Ok (zip ((fun o => toProtocolElement o tier)
                          <$> (drop (length objectList - Z.to_nat (- s)) objectList
                               ++ objectList))
                       (token_at (Z.of_nat (length objectList))
                          <$> seqZ (s + 1) (Z.of_nat (length objectList) - s)))).
Proof.
  intros Htok Hs Hfuel.
  assert (start_index (_objectListGenerator toProtocolElement request objectList tier)
          = Ok s) as Hstart by (by apply start_index_token).
  destruct (Z.ltb_spec s (- Z.of_nat (length objectList))) as [Hlow|Hlow].
  - destruct fuel as [|fuel]; [lia|]. cbn [drain].
    unfold next. rewrite Hstart. cbn.
    destruct (Z.ltb_spec s (Z.of_nat (length objectList))); [|lia].
    by rewrite list_getitem_below.
  - assert (d : Obj) by (destruct objectList; [cbn in Hlow; lia|assumption]).
    set (g := _objectListGenerator toProtocolElement request objectList tier) in *.
    rewrite (drain_yields_in g (item_at d objectList) fuel s); [|..|done|done].
    2:{ intros i Hi. apply list_getitem_item_at. cbn in Hi. lia. }
    do 2 f_equal. cbn [gen_numObjects g _objectListGenerator _topLevelObjectGenerator].
    rewrite <- (items_from_negative d objectList s) by lia.
    unfold yielded. cbn [gen_emit gen_numObjects g _objectListGenerator _topLevelObjectGenerator].
    generalize (Z.of_nat (length objectList) - s). intros m.
    apply list_eq. intros i.
    rewrite lookup_zip_with, !list_lookup_fmap.
    destruct (seqZ s m !! i) as [j|] eqn:Hj; cbn.
    + apply lookup_seqZ in Hj as [-> Hi].
      rewrite lookup_seqZ_lt by lia. cbn. unfold token_at.
      by replace (s + 1 + Z.of_nat i) with (s + Z.of_nat i + 1) by lia.
    + done.
Qed.

End PageTokenBounds.

Lemma search_all_pages_witness :
  Paging.all_pages full_at_page_size 10 5 example_request
    (fun r => (searchGenerator no_close_matches (fun o tier => (_localId o, tier))
                 example_data_repo Patients r example_access_map).1)
  = Some (Ok [("patient 1", 4)]).
Proof.
  apply (search_all_pages no_close_matches (fun o tier => (_localId o, tier))
           example_data_repo full_at_page_size 10 Patients example_request
           example_access_map example_dataset 4 5).
  - reflexivity.
  - reflexivity.
  - repeat constructor.
  - repeat constructor. by exists true.
  - reflexivity.
  - done.
  - done.
  - cbn. lia.
Defined.

Lemma page_token_past_end_witness :
  Paging.runSearchRequest full_at_page_size 10 1
    {| dataset_id := EmptyString; page_size := 2; page_token := "3"; filters := [] |}
    (fun r => Ok (Paging._objectListGenerator (fun (o : Z) (_ : Z) => o) r [10; 20; 30] 0))
  = Some (Ok {| Paging.resp_values := []; Paging.resp_nextPageToken := None |}).
Proof.
  apply (page_token_past_end (fun (o : Z) (_ : Z) => o) full_at_page_size 10 [10; 20; 30] 0
           {| dataset_id := EmptyString; page_size := 2; page_token := "3"; filters := [] |}
           3 1).
  - reflexivity.
  - done.
  - done.
  - done.
  - lia.
Defined.

Lemma negative_page_token_witness :
  Paging.drain 10
    (Paging._objectListGenerator (fun (o : Z) (_ : Z) => o)
       {| dataset_id := EmptyString; page_size := 0; page_token := "-2"; filters := [] |}
       [10; 20; 30] 0)
  = Some (Ok [(20, Some "-1"); (30, Some "0"); (10, Some "1"); (20, Some "2"); (30, None)]).
Proof.
  apply (negative_page_token (fun (o : Z) (_ : Z) => o) [10; 20; 30] 0
           {| dataset_id := EmptyString; page_size := 0; page_token := "-2"; filters := [] |}
           (-2) 10).
  - reflexivity.
  - done.
  - cbn. lia.
Defined.

(** ** The logic tree: union, negation, and where keys come from *)

Section MoreLogic.
Import Query.

Section JsonInduction.
Variable P : json -> Prop.
Hypothesis HNull : P JNull.
Hypothesis HBool : forall b, P (JBool b).
Hypothesis HNum : forall z, P (JNum z).
Hypothesis HStr : forall s, P (JStr s).
Hypothesis HList : forall l, Forall P l -> P (JList l).
Hypothesis HDict : forall d, Forall (fun kv => P kv.2) d -> P (JDict d).

Lemma json_nested_ind (v : json) : P v.
Proof.
  revert v.
  exact (fix ind (v : json) : P v :=
    match v with
    | JNull => HNull
    | JBool b => HBool b
    | JNum z => HNum z
    | JStr s => HStr s
    | JList l =>
        HList l ((fix go (l : list json) : Forall P l :=
                    match l with
                    | [] => Forall_nil_2 P
                    | x :: l' => Forall_cons_2 P x l' (ind x) (go l')
                    end) l)
    | JDict d =>
        HDict d ((fix go (d : list (string * json)) : Forall (fun kv => P kv.2) d :=
                    match d with
                    | [] => Forall_nil_2 _
                    | kv :: d' =>
                        Forall_cons_2 (fun kv => P kv.2) kv d' (ind kv.2) (go d')
                    end) d)
    end).
Qed.
End JsonInduction.

Section LogicMore.
Variable runSearch : string -> SearchRequest -> gmap string Z -> result response.
Variable repo : DataRepository.
Variable responses : list (string * list row).
Variable dataset_id : string.
Variable access_map : gmap string Z.

Local Abbreviation eval logic :=
  (logicHandler runSearch repo logic responses dataset_id access_map).
Local Abbreviation key_set :=
  (Spec.key_set runSearch repo responses dataset_id access_map).
Local Abbreviation in_responses := (in_responses responses).
Local Abbreviation in_patients := (in_patients runSearch dataset_id access_map).

(** The children of an operator node, evaluated in order. *)
Lemma or_node (children : list json) :
  Forall (fun c => exists s, eval c = Ok s) children ->
  eval (JDict [("or", JList children)]) = Ok (or_branch (key_set <$> children)).
Proof.
  intros Hall. cbn. unfold logic_node. cbn.
  rewrite (bool_decide_eq_true_2 ("or" ∈ ["and"; "or"])) by (by right; left).
  match goal with
  | |- (let* results_arr := ?each children in _) = _ =>
      assert (each children = Ok (key_set <$> children)) as ->
  end; [|done].
  induction Hall as [|c cs [s Hs] _ IH]; cbn; [done|].
  rewrite IH. unfold Spec.key_set. by rewrite Hs.
Qed.

Lemma or_branch_spec (results_arr : list (gset pyval)) (p : pyval) :
  p ∈ or_branch results_arr <-> exists s, s ∈ results_arr /\ p ∈ s.
Proof.
  unfold or_branch.
  assert (forall acc : gset pyval,
    p ∈ foldl (fun patient_set id_set => patient_set ∪ id_set) acc results_arr
    <-> p ∈ acc \/ exists s, s ∈ results_arr /\ p ∈ s) as H.
  { induction results_arr as [|x l IH]; intros acc; cbn.
    - split; [auto|]. intros [?|(s & Hs & _)]; [done|]. by apply elem_of_nil in Hs.
    - rewrite IH, elem_of_union. split.
      + intros [[?|?]|(s & Hs & Hp)]; [auto| |].
        * right. exists x. split; [left|done].
        * right. exists s. split; [by right|done].
      + intros [?|(s & Hs & Hp)]; [auto|].
        apply elem_of_cons in Hs as [->|Hs]; [auto|]. right. eauto. }
  rewrite H. split; [|auto]. intros [Hp|?]; [|done]. by apply elem_of_empty in Hp.
Qed.

(** X18. An [or] node evaluates to the union of the sets of its children:
    a key is in the result iff it is in the set of some child; the
    result is the same under every permutation of the children, and with
    no children it is the empty set. *)
Theorem or_is_union (children : list json) (sets : list (gset pyval)) :
  Forall2 (fun c s => eval c = Ok s) children sets ->
  (exists r, eval (JDict [("or", JList children)]) = Ok r /\
             forall p, p ∈ r <-> exists s, s ∈ sets /\ p ∈ s) /\
  (forall children', children' ≡ₚ children ->
     eval (JDict [("or", JList children')]) = eval (JDict [("or", JList children)])).
Proof.
  intros Hall.
  assert (Forall (fun c => exists s, eval c = Ok s) children /\
          key_set <$> children = sets) as [Hok Hsets].
  { induction Hall as [|c s cs ss Hc _ [IH1 IH2]]; cbn; [done|]. split.
    - constructor; eauto.
    - unfold Spec.key_set at 1. rewrite Hc. by f_equal. }
  split.
  - rewrite or_node by done. rewrite Hsets. eexists. split; [done|].
    apply or_branch_spec.
  - intros children' Hperm.
    rewrite !or_node; [|done|by rewrite Hperm]. f_equal.
    apply set_eq. intros p. rewrite !or_branch_spec.
    by setoid_rewrite Hperm.
Qed.

(** X19. An [and] node whose children all evaluate raises IndexError
    exactly when it has no children at all; no handler catches it. *)
Theorem and_without_operands (children : list json) :
  Forall (fun c => exists s, eval c = Ok s) children ->
  (eval (JDict [("and", JList children)]) = Raise (Builtin IndexError)
   <-> children = []).
Proof.
  intros Hall.
  pose proof (and_node runSearch repo responses dataset_id access_map children Hall) as Hand.
  cbv beta in Hand. rewrite Hand.
  split.
  - intros Hraise. destruct children as [|c cs]; [done|].
    destruct (and_branch_spec (key_set <$> c :: cs)) as (r & Hr & _); [done|].
    congruence.
  - by intros ->.
Qed.

Lemma id_node (id : json) :
  eval (JDict [("id", id)])
  = id_branch runSearch repo responses dataset_id access_map id false.
Proof. reflexivity. Qed.

Lemma id_negate_node (id negate : json) :
  eval (JDict [("id", id); ("negate", negate)])
  = id_branch runSearch repo responses dataset_id access_map id (truthy negate) /\
  eval (JDict [("negate", negate); ("id", id)])
  = id_branch runSearch repo responses dataset_id access_map id (truthy negate).
Proof. split; reflexivity. Qed.

(** X20. Negation. When the plain [id] node evaluates to [s] and the
    patients the user may see are [all], the node with a true [negate]
    evaluates to the ids of [all] that are not in [s], and with a false
    [negate] to [s] itself; the order of the two keys does not matter. *)
Theorem negate_is_complement (id negate : json) (s all : gset pyval)
    (id_list_all : list json) :
  eval (JDict [("id", id)]) = Ok s ->
  getAllPatientId runSearch dataset_id access_map = Ok id_list_all ->
  set_of id_list_all = Ok all ->
  eval (JDict [("id", id); ("negate", negate)])
  = Ok (if truthy negate then all ∖ s else s) /\
  eval (JDict [("negate", negate); ("id", id)])
  = eval (JDict [("id", id); ("negate", negate)]).
Proof.
  intros Hs Hall Hset. destruct (id_negate_node id negate) as [-> ->].
  split; [|done]. rewrite id_node in Hs.
  unfold id_branch in *. destruct (truthy negate); [|done].
  unfold try_except in *.
  repeat match type of Hs with
         | context [bind ?x _] => destruct x eqn:?; cbn [bind] in Hs |- *
         end; simplify_eq.
  rewrite Hall. cbn [bind]. by rewrite Hset.
Qed.

(** X21. A negated [id] node on a data set whose patient search returns
    no [patients] key. The KeyError of [getAllPatientId] is raised inside
    the [try] of the id branch, so it is reported as an id that matches
    no component, although the id does match one. *)
Theorem negate_without_patients (id negate : json) (s : gset pyval) (all_pt : response) :
  eval (JDict [("id", id)]) = Ok s ->
  runSearch "patients"
    {| Datamodel.dataset_id := dataset_id; page_size := 0;
       page_token := EmptyString; filters := [] |} access_map = Ok all_pt ->
  dict_get "patients" (resp_tables all_pt) = None ->
  truthy negate = true ->
  eval (JDict [("id", id); ("negate", negate)])
  = Raise (InvalidLogicException "Given id does not match a component").
Proof.
  intros Hs Hall Hnone Hneg. destruct (id_negate_node id negate) as [-> _].
  rewrite id_node in Hs. rewrite Hneg.
  unfold id_branch in *. unfold try_except in *.
  repeat match type of Hs with
         | context [bind ?x _] => destruct x eqn:?; cbn [bind] in Hs |- *
         end; simplify_eq.
  unfold getAllPatientId. rewrite Hall. cbn. by rewrite Hnone.
Qed.

(** The evaluation of the children of an operator node. *)
Lemma children_sets (l : list json) (results_arr : list (gset pyval)) :
  (fix each (l : list json) : result (list (gset pyval)) :=
     match l with
     | [] => Ok []
     | logic_obj :: l' =>
         let* r := eval logic_obj in
         let* rs := each l' in
         Ok (r :: rs)
     end) l = Ok results_arr ->
  Forall2 (fun c s => eval c = Ok s) l results_arr.
Proof.
  revert results_arr. induction l as [|c l IH]; intros results_arr; cbn.
  - intros [= <-]. constructor.
  - destruct (eval c) as [r|] eqn:Hc; [|done]. cbn.
    match goal with |- (let* rs := ?e in _) = _ -> _ => destruct e as [rs|] eqn:Hrs end;
      [|done].
    cbn. intros [= <-]. constructor; [done|]. by apply IH.
Qed.

Lemma and_branch_subset (results_arr : list (gset pyval)) (r : gset pyval) (p : pyval) :
  and_branch results_arr = Ok r -> p ∈ r -> exists s, s ∈ results_arr /\ p ∈ s.
Proof.
  intros Hr Hp. destruct results_arr as [|x l].
  - discriminate Hr.
  - destruct (and_branch_spec (x :: l)) as (r' & Hr' & Hspec); [done|].
    assert (r' = r) as -> by congruence.
    exists x. split; [left|]. apply Hspec; [done|left].
Qed.

Lemma dict_get_elem {A} (k : string) (d : list (string * A)) (v : A) :
  dict_get k d = Some v -> (k, v) ∈ d.
Proof.
  induction d as [|[k' v'] d IH]; cbn; [done|].
  destruct (String.eqb_spec k k') as [->|_].
  - intros [= ->]. left.
  - intros H. right. by apply IH.
Qed.

Lemma id_set_known (rows all_rows : list row) (key : string) :
  (key, all_rows) ∈ responses -> rows ⊆ all_rows ->
  forall id_set s,
    (fix collect (rows : list row) (id_set : gset pyval) : result (gset pyval) :=
       match rows with
       | [] => Ok id_set
       | response :: rows' =>
           let* patient_id := getResponsePatientId repo response dataset_id in
           let* x := hashable patient_id in
           collect rows' (id_set ∪ {[x]})
       end) rows id_set = Ok s ->
    forall x, x ∈ s -> x ∈ id_set \/ in_responses x.
Proof.
  intros Hkey. induction rows as [|response rows IH]; intros Hsub id_set s; cbn.
  - intros [= <-]. auto.
  - destruct (getResponsePatientId repo response dataset_id) as [patient_id|] eqn:Hpid;
      [|done]. cbn.
    destruct (hashable patient_id) as [y|] eqn:Hy; [|done]. cbn.
    intros Hs x Hx.
    destruct (IH ltac:(set_solver) _ _ Hs x Hx) as [Hin|Hin]; [|by right].
    apply elem_of_union in Hin as [Hin|Hin]; [by left|].
    apply elem_of_singleton in Hin as ->. right.
    exists key, all_rows, response, patient_id. repeat split; try done.
    + apply Hsub. left.
    + unfold getResponsePatientId in Hpid.
      destruct (dict_get "patientId" response) as [v|]; [congruence|].
      destruct (dict_get "variantSetId" response); [|done].
      by destruct (getDataset repo dataset_id).
Qed.

Lemma set_of_elem (l : list json) (all : gset pyval) (x : pyval) :
  set_of l = Ok all -> x ∈ all -> exists v, v ∈ l /\ hashable v = Ok x.
Proof.
  revert all. induction l as [|v l IH]; intros all; cbn.
  - intros [= <-] Hx. by apply elem_of_empty in Hx.
  - destruct (hashable v) as [y|] eqn:Hy; [|done]. cbn.
    destruct (set_of l) as [s|]; [|done]. cbn. intros [= <-] Hx.
    apply elem_of_union in Hx as [Hx|Hx].
    + apply elem_of_singleton in Hx as ->. exists v. split; [left|done].
    + destruct (IH s eq_refl Hx) as (v' & Hv' & Hh). exists v'. split; [by right|done].
Qed.

Lemma id_branch_known (id : json) (logic_negate : bool) (s : gset pyval) :
  id_branch runSearch repo responses dataset_id access_map id logic_negate = Ok s ->
  forall x, x ∈ s -> in_responses x \/ in_patients x.
Proof.
  unfold id_branch, try_except. intros Hs x Hx.
  match type of Hs with context [bind ?k _] => destruct k as [key|] eqn:Hkey end;
    [|done]. cbn [bind] in Hs.
  destruct (dict_get key responses) as [rows|] eqn:Hrows; [|done]. cbn [getitem bind] in Hs.
  match type of Hs with context [bind ?c _] => destruct c as [id_set|] eqn:Hcollect end;
    [|done]. cbn [bind] in Hs.
  assert (forall y, y ∈ id_set -> in_responses y) as Hids.
  { intros y Hy.
    destruct (id_set_known rows rows key (dict_get_elem _ _ _ Hrows) ltac:(done)
                _ _ Hcollect y Hy) as [Hin|Hin]; [by apply elem_of_empty in Hin|done]. }
  destruct logic_negate.
  - destruct (getAllPatientId runSearch dataset_id access_map) as [id_list_all|] eqn:Hall;
      [|done]. cbn [bind] in Hs.
    destruct (set_of id_list_all) as [all|] eqn:Hset; [|done]. cbn [bind] in Hs.
    injection Hs as <-. apply elem_of_difference in Hx as [Hx _]. right.
    destruct (set_of_elem _ _ _ Hset Hx) as (v & Hv & Hh).
    by exists id_list_all, v.
  - injection Hs as <-. left. by apply Hids.
Qed.

Lemma children_known (l : list json) (results_arr : list (gset pyval)) :
  Forall2 (fun c s => eval c = Ok s) l results_arr ->
  Forall (fun c => forall s, eval c = Ok s ->
            forall x, x ∈ s -> in_responses x \/ in_patients x) l ->
  Forall (fun s' => forall z, z ∈ s' -> in_responses z \/ in_patients z) results_arr.
Proof.
  induction 1 as [|c s' l' ss Hcs _ IH']; intros Hl; [constructor|].
  inversion Hl as [|? ? Hc' Hl']; subst.
  constructor; [by apply Hc'|by apply IH'].
Qed.

(** X22. The join never invents a key. Whatever the logic tree is, every
    key of the set it evaluates to is the [patientId] of a row of some
    component's response, or, under a negation, the id of a patient the
    user may see. *)
Theorem logicHandler_known_keys (logic : json) (s : gset pyval) :
  eval logic = Ok s ->
  forall x, x ∈ s -> in_responses x \/ in_patients x.
Proof.
  revert s.
  enough (Hnested :
    (forall s, eval logic = Ok s -> forall x, x ∈ s -> in_responses x \/ in_patients x) /\
    (forall l, logic = JList l ->
       Forall (fun c => forall s, eval c = Ok s ->
                 forall x, x ∈ s -> in_responses x \/ in_patients x) l))
    by apply Hnested.
  induction logic as [| | | |l IH|d IH] using json_nested_ind.
  1-3: split; [intros ? H; discriminate H|done].
  - split; [|done]. intros s0 H. cbn in H. unfold logic_of_str in H.
    by destruct (_ || _).
  - split; [intros s0 H; cbn in H; by destruct (_ || _)|].
    intros l' [= <-]. eapply Forall_impl; [exact IH|]. by intros c [Hc _].
  - split; [|done]. intros s Hs x Hx.
    assert (forall logic_key v logic_negate r,
      (logic_key, v) ∈ d ->
      logic_node runSearch repo responses dataset_id access_map logic_key v logic_negate
        match v with
        | JList l =>
            (fix each (l : list json) : result (list (gset pyval)) :=
               match l with
               | [] => Ok []
               | logic_obj :: l' =>
                   let* r := eval logic_obj in
                   let* rs := each l' in
                   Ok (r :: rs)
               end) l
        | _ => iterate_scalar v
        end = Ok r ->
      forall x, x ∈ r -> in_responses x \/ in_patients x) as Hnode.
    { intros logic_key v logic_negate r Hin Hr y Hy.
      unfold logic_node in Hr.
      destruct (bool_decide (logic_key ∈ ["and"; "or"])).
      - match type of Hr with context [bind ?c _] =>
          destruct c as [results_arr|] eqn:Hchildren end; [|done].
        cbn [bind] in Hr.
        assert (Forall (fun s' => forall z, z ∈ s' -> in_responses z \/ in_patients z)
                  results_arr) as Hknown.
        { rewrite Forall_forall in IH. specialize (IH _ Hin). cbn in IH.
          destruct IH as [_ IHl].
          destruct v as [| | | |l|d']; cbn in Hchildren.
          1-3: discriminate Hchildren.
          - destruct s0; [|discriminate Hchildren]. injection Hchildren as <-. constructor.
          - apply children_sets in Hchildren.
            by apply (children_known l results_arr Hchildren), IHl.
          - destruct d' as [|[k ?] ?]; [injection Hchildren as <-; constructor|].
            unfold logic_of_str in Hchildren. by destruct (_ || _). }
        rewrite Forall_forall in Hknown.
        destruct (String.eqb logic_key "or").
        + injection Hr as <-. apply or_branch_spec in Hy as (s' & Hs' & Hy').
          by apply (Hknown s').
        + destruct (and_branch_subset _ _ _ Hr Hy) as (s' & Hs' & Hy').
          by apply (Hknown s').
      - destruct (String.eqb logic_key "id"); [|done].
        by apply (id_branch_known v logic_negate r). }
    destruct d as [|[k1 v1] [|[k2 v2] [|]]]; cbn in Hs; try done.
    + eapply (Hnode k1 v1 false s); [left|exact Hs|exact Hx].
    + destruct (String.eqb k1 "id" && String.eqb k2 "negate").
      * unfold logic_node in Hs. cbn in Hs. by apply (id_branch_known v1 (truthy v2) s).
      * destruct (String.eqb k1 "negate" && String.eqb k2 "id"); [|done].
        unfold logic_node in Hs. cbn in Hs. by apply (id_branch_known v2 (truthy v1) s).
Qed.

End LogicMore.

Lemma or_is_union_witness :
  (exists r,
     Query.logicHandler no_search example_repo
       (JDict [("or", JList example_children)]) example_responses "dataset1" ∅ = Ok r /\
     forall p, p ∈ r <-> exists s, s ∈ example_sets /\ p ∈ s) /\
  (forall children', children' ≡ₚ example_children ->
     Query.logicHandler no_search example_repo
       (JDict [("or", JList children')]) example_responses "dataset1" ∅
     = Query.logicHandler no_search example_repo
         (JDict [("or", JList example_children)]) example_responses "dataset1" ∅).
Proof.
  apply (or_is_union no_search example_repo example_responses "dataset1" ∅
           example_children example_sets).
  repeat constructor.
Defined.

Lemma and_without_operands_witness :
  Query.logicHandler no_search example_repo
    (JDict [("and", JList [])]) example_responses "dataset1" ∅
  = Raise (Builtin IndexError)
  <-> @nil json = [].
Proof.
  apply (and_without_operands no_search example_repo example_responses "dataset1" ∅ []).
  constructor.
Defined.

Lemma negate_is_complement_witness :
  Query.logicHandler three_patients example_repo
    (JDict [("id", JStr "B"); ("negate", JBool true)]) example_responses "dataset1" ∅
  = Ok (if truthy (JBool true)
        then ({[ VStr "p1" ]} ∪ ({[ VStr "p2" ]} ∪ ({[ VStr "p3" ]} ∪ ∅))) ∖ (∅ ∪ {[ VStr "p2" ]})
        else ∅ ∪ {[ VStr "p2" ]}) /\
  Query.logicHandler three_patients example_repo
    (JDict [("negate", JBool true); ("id", JStr "B")]) example_responses "dataset1" ∅
  = Query.logicHandler three_patients example_repo
      (JDict [("id", JStr "B"); ("negate", JBool true)]) example_responses "dataset1" ∅.
Proof.
  apply (negate_is_complement three_patients example_repo example_responses "dataset1" ∅
           (JStr "B") (JBool true) _ _ [JStr "p1"; JStr "p2"; JStr "p3"]).
  - reflexivity.
  - reflexivity.
  - reflexivity.
Defined.

Lemma negate_without_patients_witness :
  Query.logicHandler no_search example_repo
    (JDict [("id", JStr "B"); ("negate", JBool true)]) example_responses "dataset1" ∅
  = Raise (InvalidLogicException "Given id does not match a component").
Proof.
  apply (negate_without_patients no_search example_repo example_responses "dataset1" ∅
           (JStr "B") (JBool true) (∅ ∪ {[ VStr "p2" ]})
           {| Query.resp_tables := []; Query.resp_nextPageToken := None |}).
  - reflexivity.
  - reflexivity.
  - reflexivity.
  - reflexivity.
Defined.

Lemma logicHandler_known_keys_witness :
  Query.logicHandler no_search example_repo (JDict [("id", JStr "B")])
    example_responses "dataset1" ∅ = Ok (∅ ∪ {[ VStr "p2" ]}) /\
  forall x, x ∈ (∅ ∪ {[ VStr "p2" ]} : gset pyval) ->
    in_responses example_responses x \/ in_patients no_search "dataset1" ∅ x.
Proof.
  split; [reflexivity|].
  apply (logicHandler_known_keys no_search example_repo example_responses "dataset1" ∅
           (JDict [("id", JStr "B")])).
  reflexivity.
Defined.

End MoreLogic.

(** ** Fields and counts *)

Section MoreResults.
Import Query.

Section FieldHandlerProperties.

Lemma project_fold (field : list string) (entry : row) (k : string) : forall acc : row,
  dict_get k (foldl (fun field_obj k =>
                       match dict_get k entry with
                       | Some v => dict_set k v field_obj
                       | None => field_obj
                       end) acc field)
  = if bool_decide (k ∈ field)
    then match dict_get k entry with
         | Some v => Some v
         | None => dict_get k acc
         end
    else dict_get k acc.
Proof.
  induction field as [|k0 field IH]; intros acc; cbn [foldl].
  - done.
  - rewrite IH. destruct (decide (k ∈ field)) as [Hin|Hin].
    + rewrite !bool_decide_eq_true_2 by (done || by right).
      destruct (dict_get k entry) as [v|] eqn:Hk; [done|].
      destruct (dict_get k0 entry) as [v0|] eqn:Hk0; [|done].
      rewrite dict_get_set. destruct (String.eqb_spec k k0) as [->|]; [congruence|done].
    + rewrite (bool_decide_eq_false_2 (k ∈ field)) by done.
      destruct (String.eqb_spec k k0) as [->|Hne].
      * rewrite bool_decide_eq_true_2 by left.
        destruct (dict_get k0 entry) as [v0|] eqn:Hk0; [|done].
        by rewrite dict_get_set, String.eqb_refl.
      * rewrite bool_decide_eq_false_2 by (intros [->|?]%elem_of_cons; done).
        destruct (dict_get k0 entry) as [v0|] eqn:Hk0; [|done].
        rewrite dict_get_set. by destruct (String.eqb_spec k k0).
Qed.

Lemma project_lookup (field : list string) (entry : row) (k : string) :
  dict_get k (project field entry)
  = if bool_decide (k ∈ field) then dict_get k entry else None.
Proof.
  unfold project. rewrite project_fold. cbn.
  destruct (bool_decide (k ∈ field)); [|done]. by destruct (dict_get k entry).
Qed.

Lemma foldl_ext_in {A B} (f g : A -> B -> A) (l : list B) :
  (forall a b, b ∈ l -> f a b = g a b) ->
  forall a, foldl f a l = foldl g a l.
Proof.
  induction l as [|b l IH]; intros Hfg a; [done|]. cbn.
  rewrite Hfg by left. apply IH. intros a' b' Hb'. apply Hfg. by right.
Qed.

Lemma project_idemp (field : list string) (entry : row) :
  project field (project field entry) = project field entry.
Proof.
  unfold project at 1 3. apply foldl_ext_in. intros acc k Hk.
  by rewrite project_lookup, bool_decide_eq_true_2.
Qed.

Lemma filter_idemp {A} (p : A -> bool) (l : list A) :
  List.filter p (List.filter p l) = List.filter p l.
Proof.
  induction l as [|a l IH]; [done|]. cbn.
  destruct (p a) eqn:Hp; [|done]. cbn. by rewrite Hp, IH.
Qed.

Lemma project_filtered (field : list string) (p : row -> bool) (l : list row) :
  project field <$> List.filter p (project field <$> l)
  = List.filter p (project field <$> l).
Proof.
  induction l as [|e l IH]; [done|]. cbn.
  destruct (p (project field e)); [|done]. cbn. by rewrite project_idemp, IH.
Qed.

Lemma project_NoDup (field : list string) (entry : row) : NoDup (project field entry).*1.
Proof.
  unfold project.
  enough (forall acc : row,
            NoDup acc.*1 ->
            NoDup (foldl (fun field_obj k =>
                            match dict_get k entry with
                            | Some v => dict_set k v field_obj
                            | None => field_obj
                            end) acc field).*1) as H by (apply H; constructor).
  induction field as [|k field IH]; intros acc Hacc; cbn; [done|].
  apply IH. destruct (dict_get k entry); [by apply dict_set_NoDup|done].
Qed.

(** X23. What [fieldHandler] returns. Each row of the table is cut down
    to the keys that are both in the fields list and in the row, each
    once and with the row's value; the rows left with no key are dropped,
    the others keep their order; the response holds this table alone, or
    no table at all when no row is left, and the page token of the
    results when it is not empty. Projecting a response that is already
    projected on the same fields changes nothing. *)
Theorem fieldHandler_projection (table : string) (json_results : response)
    (field : list string) :
  (exists projected : list row,
     Forall2 (fun entry field_obj : row =>
                NoDup field_obj.*1 /\
                forall k, dict_get k field_obj
                          = if bool_decide (k ∈ field) then dict_get k entry else None)
       (default [] (dict_get table (resp_tables json_results))) projected /\
     fieldHandler table json_results field
     = {| resp_tables :=
            match List.filter (fun field_obj : row => negb (Nat.eqb (length field_obj) 0))
                    projected with
            | [] => []
            | field_obj :: filtered_results => [(table, field_obj :: filtered_results)]
            end;
          resp_nextPageToken :=
            if truthy_token (resp_nextPageToken json_results)
            then resp_nextPageToken json_results else None |}) /\
  fieldHandler table (fieldHandler table json_results field) field
  = fieldHandler table json_results field.
Proof.
  split.
  - exists (project field <$> default [] (dict_get table (resp_tables json_results))).
    split.
    + apply Forall2_fmap_r, Forall_Forall2_diag, Forall_forall. intros entry _.
      split; [apply project_NoDup|]. intros k. apply project_lookup.
    + unfold fieldHandler. f_equal.
      by destruct (List.filter _ _).
  - unfold fieldHandler. cbn [resp_tables resp_nextPageToken].
    set (json_array := default [] (dict_get table (resp_tables json_results))).
    match goal with
    | |- context [List.filter ?p (project field <$> json_array)] =>
        set (nonempty := p);
        set (filtered := List.filter nonempty (project field <$> json_array))
    end.
    assert (project field <$> filtered = filtered) as Hproj
      by apply project_filtered.
    assert (List.filter nonempty filtered = filtered) as Hfilter by apply filter_idemp.
    f_equal.
    + destruct filtered as [|r rs] eqn:Hf; [done|].
      cbn [dict_get]. rewrite String.eqb_refl. cbn [default from_option id].
      by rewrite Hproj, Hfilter.
    + by destruct (truthy_token (resp_nextPageToken json_results)) eqn:Ht; cbn; rewrite ?Ht.
Qed.

End FieldHandlerProperties.

Section EpsilonProperties.

Lemma dict_set_nonempty {A} (k : string) (x : A) (d : list (string * A)) :
  dict_set k x d <> [].
Proof. destruct d as [|[k' y] d]; cbn; [done|]. by destruct (String.eqb k k'). Qed.

Lemma count_item_empty field c item c' :
  count_item field c item = Ok c' ->
  (c' = [] <-> c = [] /\ bool_decide (item.1 ∈ field) = false).
Proof.
  destruct item as [k v]. unfold count_item. cbn [fst].
  destruct (bool_decide (k ∈ field)).
  - destruct (bucket_key v) as [v'|]; [|done]. cbn. intros [= <-].
    split; [|by intros [_ ?]]. intros H. by apply dict_set_nonempty in H.
  - intros [= <-]. split; [done|by intros [? _]].
Qed.

Lemma count_items_empty field items : forall c c',
  count_items field c items = Ok c' ->
  (c' = [] <-> c = [] /\ existsb (fun kv => bool_decide (kv.1 ∈ field)) items = false).
Proof.
  induction items as [|item items IH]; cbn; intros c c'.
  - intros [= <-]. split; [done|by intros [? _]].
  - destruct (count_item field c item) as [c1|] eqn:H1; [|done]. cbn. intros H.
    rewrite (IH _ _ H), (count_item_empty _ _ _ _ H1), orb_false_iff. tauto.
Qed.

Lemma count_entries_empty field entries : forall c c',
  count_entries field c entries = Ok c' ->
  (c' = [] <-> c = [] /\ carries field entries = false).
Proof.
  unfold carries. induction entries as [|entry entries IH]; cbn; intros c c'.
  - intros [= <-]. split; [done|by intros [? _]].
  - destruct (count_items field c entry) as [c1|] eqn:H1; [|done]. cbn. intros H.
    rewrite (IH _ _ H), (count_items_empty _ _ _ _ H1), orb_false_iff. tauto.
Qed.

(** X24. A count query on a backend with a differential-privacy epsilon,
    over rows whose requested values can be counted (a dict, or a list
    with something else than strings, is a TypeError before). As soon as
    one row of the table carries a requested field, the aggregation
    raises NameError: [countHelper] refers to a name [DP] that the
    module binds nowhere. With no such row the name is not reached, and
    the response is the table with no counts. *)
Theorem aggregation_with_epsilon (_dpEpsilon : option Z) (table : string)
    (json_results : response) (field : list string) (entries : list row) (c : counts) :
  let table' := if String.eqb table "variantsByGene" then "variants" else table in
  dpEpsilon_set _dpEpsilon = true ->
  dict_get table' (resp_tables json_results) = Some entries ->
  field_value_counts_of table' json_results field = Ok c ->
  aggregationHandler _dpEpsilon table json_results field
  = if carries field entries
    then Raise (Builtin NameError)
    else Ok {| resp_tables := [(table', [])];
               resp_nextPageToken := resp_nextPageToken json_results |}.
Proof.
  intros table' Heps Hentries Hc. unfold aggregationHandler. fold table'.
  rewrite Hc. cbn [bind]. unfold countHelper. rewrite Heps.
  unfold field_value_counts_of in Hc. rewrite Hentries in Hc. cbn [getitem bind] in Hc.
  destruct (count_entries field [] entries) as [c0|e] eqn:Hcount.
  - assert (c0 = c) as -> by congruence.
    pose proof (count_entries_empty _ _ _ _ Hcount) as Hempty.
    destruct (carries field entries).
    + destruct c; [|done]. destruct (proj1 Hempty eq_refl) as [_ ?]. done.
    + destruct c; [done|]. discriminate (proj2 Hempty (conj eq_refl eq_refl)).
  - pose proof (count_entries_raise _ _ _ _ Hcount) as ->. discriminate Hc.
Qed.

End EpsilonProperties.

Lemma aggregation_with_epsilon_witness :
  Query.aggregationHandler (Some 1) "samples"
    {| Query.resp_tables := [("samples", [ [("sampleType", JStr "blood")] ])];
       Query.resp_nextPageToken := None |}
    ["sampleType"]
  = if carries ["sampleType"] [ [("sampleType", JStr "blood")] ]
    then Raise (Builtin NameError)
    else Ok {| Query.resp_tables := [("samples", [])];
               Query.resp_nextPageToken := None |}.
Proof.
  apply (aggregation_with_epsilon (Some 1) "samples"
           {| Query.resp_tables := [("samples", [ [("sampleType", JStr "blood")] ])];
              Query.resp_nextPageToken := None |}
           ["sampleType"] [ [("sampleType", JStr "blood")] ]
           [("sampleType", [(JStr "blood", 1)])]).
  - reflexivity.
  - reflexivity.
  - reflexivity.
Defined.

End MoreResults.

(** ** Registries and the data repository *)

Section RegistryProperties.
Import Registry.
Context {Obj : Type}.
Variable getId : Obj -> result string.
Variable getName : Obj -> string.
Variable NotFoundException : string -> exn.
Variable NameNotFoundException : string -> exn.

Lemma lookup_all_Forall2 (m : gmap string Obj) (ids : list string) : forall objs,
  lookup_all m ids = Ok objs <-> Forall2 (fun id_ o => m !! id_ = Some o) ids objs.
Proof.
  induction ids as [|id_ ids IH]; intros objs; cbn.
  - split; [intros [= <-]; constructor|by intros ->%Forall2_nil_inv_l].
  - destruct (m !! id_) as [o|] eqn:Hm; cbn.
    + destruct (lookup_all m ids) as [os|e] eqn:Hall; cbn.
      * split.
        -- intros [= <-]. constructor; [done|by apply IH].
        -- intros (o' & os' & Ho' & Hos' & ->)%Forall2_cons_inv_l.
           apply IH in Hos'. congruence.
      * split; [done|].
        intros (o' & os' & Ho' & Hos' & ->)%Forall2_cons_inv_l.
        apply IH in Hos'. congruence.
    + split; [done|].
      intros (o' & os' & Ho' & Hos' & ->)%Forall2_cons_inv_l. congruence.
Qed.

Lemma getByIndex_getAll (self : registry Obj) (objs : list Obj) (index : Z) :
  getAll self = Ok objs ->
  getNum self = length objs /\ getByIndex self index = list_getitem objs index.
Proof.
  unfold getAll, getNum, getByIndex. intros H%lookup_all_Forall2.
  pose proof (Forall2_length _ _ _ H) as Hlen. split; [done|].
  unfold list_getitem. rewrite Hlen.
  set (n := Z.of_nat (length objs)). set (j := if index <? 0 then index + n else index).
  destruct ((0 <=? j) && (j <? n)) eqn:Hj; [|done].
  destruct (_ids self !! Z.to_nat j) as [id_|] eqn:Hid.
  - destruct (Forall2_lookup_l _ _ _ _ _ H Hid) as (o & -> & Ho). cbn. by rewrite Ho.
  - apply lookup_ge_None in Hid. subst n. lia.
Qed.

(** X25. Adding to a registry and reading back. When every listed id of
    the registry resolves, adding an object makes it the one found under
    its id and under its name, leaves the other ids and names as they
    were, and appends it to the listing; an object already listed under
    the same id is replaced at its old places too, so that the new object
    then shows more than once. *)
Theorem add_then_get (self : registry Obj) (obj : Obj) (id_ : string) (objs : list Obj) :
  getId obj = Ok id_ ->
  getAll self = Ok objs ->
  exists self',
    add getId getName self obj = Ok self' /\
    get NotFoundException self' id_ = Ok obj /\
    getByName NameNotFoundException self' (getName obj) = Ok obj /\
    (forall id', id' <> id_ ->
       get NotFoundException self' id' = get NotFoundException self id') /\
    (forall name, name <> getName obj ->
       getByName NameNotFoundException self' name
       = getByName NameNotFoundException self name) /\
    getAll self'
    = Ok (zip_with (fun id' o => if decide (id' = id_) then obj else o) (_ids self) objs
          ++ [obj]) /\
    getByIndex self' (Z.of_nat (getNum self)) = Ok obj /\
    getByIndex self' (-1) = Ok obj.
Proof.
  intros Hid Hall. unfold add. rewrite Hid. cbn [bind].
  eexists. split; [done|].
  assert (getAll {| _ids := _ids self ++ [id_];
                    _idMap := <[id_:=obj]> (_idMap self);
                    _nameMap := <[getName obj:=obj]> (_nameMap self) |}
          = Ok (zip_with (fun id' o => if decide (id' = id_) then obj else o)
                  (_ids self) objs ++ [obj])) as Hall'.
  { unfold getAll in *. cbn [_ids _idMap]. apply lookup_all_Forall2.
    apply lookup_all_Forall2 in Hall. apply Forall2_app.
    - clear Hid. induction Hall as [|id' o ids os Ho Hos IH]; cbn; constructor; [|done].
      destruct (decide (id' = id_)) as [->|Hne].
      + by rewrite lookup_insert_eq.
      + by rewrite lookup_insert_ne.
    - constructor; [|constructor]. by rewrite lookup_insert_eq. }
  pose proof (getByIndex_getAll _ _ (Z.of_nat (getNum self)) Hall') as [_ Hi].
  pose proof (getByIndex_getAll _ _ (-1) Hall') as [_ Hl].
  pose proof (getByIndex_getAll _ _ 0 Hall) as [Hn _].
  assert (length (zip_with (fun id' o => if decide (id' = id_) then obj else o)
                    (_ids self) objs) = length objs) as Hlen.
  { rewrite length_zip_with. unfold getNum in Hn. lia. }
  repeat split.
  - unfold get. cbn. by rewrite lookup_insert_eq.
  - unfold getByName. cbn. by rewrite lookup_insert_eq.
  - intros id' Hne. unfold get. cbn. by rewrite lookup_insert_ne.
  - intros name Hne. unfold getByName. cbn. by rewrite lookup_insert_ne.
  - done.
  - rewrite Hi. unfold list_getitem. rewrite length_app, Hlen, Hn. cbn [length].
    destruct (Z.ltb_spec (Z.of_nat (length objs)) 0); [lia|].
    rewrite (proj2 (andb_true_iff _ _)) by (split; [apply Z.leb_le|apply Z.ltb_lt]; lia).
    rewrite Nat2Z.id, lookup_app_r by lia. by rewrite Hlen, Nat.sub_diag.
  - rewrite Hl. unfold list_getitem. rewrite length_app, Hlen. cbn [length].
    change (-1 <? 0) with true. cbv iota.
    rewrite (proj2 (andb_true_iff _ _)) by (split; [apply Z.leb_le|apply Z.ltb_lt]; lia).
    rewrite lookup_app_r by lia.
    replace (Z.to_nat (-1 + Z.of_nat (length objs + 1)) - _)%nat with 0%nat by lia. done.
Qed.

End RegistryProperties.

Lemma add_then_get_witness :
  exists self',
    Datarepo.addDataset Registry.empty example_dataset = Ok self' /\
    Registry.get DatasetNotFoundException self' "WyJkcyJd" = Ok example_dataset /\
    Registry.getByName name_not_found self' "ds" = Ok example_dataset /\
    (forall id', id' <> "WyJkcyJd" ->
       Registry.get DatasetNotFoundException self' id'
       = Registry.get DatasetNotFoundException Registry.empty id') /\
    (forall name, name <> "ds" ->
       Registry.getByName name_not_found self' name
       = Registry.getByName name_not_found Registry.empty name) /\
    Registry.getAll self' = Ok ([] ++ [example_dataset]) /\
    Registry.getByIndex self' 0 = Ok example_dataset /\
    Registry.getByIndex self' (-1) = Ok example_dataset.
Proof.
  exact (add_then_get Datarepo.getId getLocalId DatasetNotFoundException
           name_not_found Registry.empty example_dataset "WyJkcyJd" []
           eq_refl eq_refl).
Defined.

Lemma getDataset_to_DataRepository (self : Datarepo.AbstractDataRepository) (id_ : string) :
  Datamodel.getDataset (Datarepo.to_DataRepository self) id_ = Datarepo.getDataset self id_.
Proof. reflexivity. Qed.

(** [TestAbstractBackend.testAddOneDataset] *)
Example testAddOneDataset :
  Datarepo.getNumDatasets Registry.empty = 0%nat /\
  Datarepo.getDatasets Registry.empty = Ok [] /\
  Datarepo.addDataset Registry.empty example_dataset = Ok one_dataset_repo /\
  Datarepo.getNumDatasets one_dataset_repo = 1%nat /\
  Datarepo.getDatasets one_dataset_repo = Ok [example_dataset] /\
  Datarepo.getDatasetByIndex one_dataset_repo 0 = Ok example_dataset /\
  Datarepo.getDatasetByName name_not_found one_dataset_repo "ds" = Ok example_dataset /\
  Datarepo.getDataset one_dataset_repo "WyJkcyJd" = Ok example_dataset.
Proof. repeat split. Qed.

(** [testGetDatasetBadId] and [testGetDatasetByIndexBadIndex] *)
Example testGetDatasetBadId :
  Datarepo.getDataset Registry.empty EmptyString = Raise (DatasetNotFoundException EmptyString) /\
  Datarepo.getDataset Registry.empty "NO SUCH ID"
  = Raise (DatasetNotFoundException "NO SUCH ID") /\
  Datarepo.getDatasetByIndex Registry.empty 0 = Raise (Builtin IndexError) /\
  Datarepo.getDatasetByIndex one_dataset_repo 1 = Raise (Builtin IndexError).
Proof. repeat split. Qed.

(** ** The datasets search *)

Section DatasetSearchProperties.
Import Registry Datarepo DatasetSearch.
Context {Elt : Type}.
Variable toProtocolElement : Dataset -> Z -> Elt.
Variable isFull : Z -> list Elt -> bool.
Variable defaultPageSize : Z.

Lemma fill_generic {Obj} (fuel : nat) : forall pageSize (g : Paging.generator Obj Elt) values tok,
  fill Paging.next isFull fuel pageSize g values tok
  = Paging.fill isFull fuel pageSize g values tok.
Proof.
  induction fuel as [|fuel IH]; intros; cbn; [done|].
  destruct (Paging.next g) as [[[[obj tok'] g']|]|e]; [|done|done].
  by rewrite IH.
Qed.

Lemma getAuthzDatasetByIndex_at (repo : AbstractDataRepository) access_map pre d rest :
  getDatasets repo = Ok (pre ++ d :: rest) ->
  getAuthzDatasetByIndex repo (Z.of_nat (length pre)) access_map
  = Ok (if authorised access_map d then Some d else None).
Proof.
  intros Hall. unfold getDatasets in Hall.
  pose proof (getByIndex_getAll _ _ (Z.of_nat (length pre)) Hall) as [_ Hi].
  unfold getByIndex in Hi. unfold getAuthzDatasetByIndex.
  assert (list_getitem (pre ++ d :: rest) (Z.of_nat (length pre)) = Ok d) as Hd.
  { unfold list_getitem. rewrite length_app. cbn [length].
    destruct (Z.ltb_spec (Z.of_nat (length pre)) 0); [lia|].
    rewrite (proj2 (andb_true_iff _ _)) by (split; [apply Z.leb_le|apply Z.ltb_lt]; lia).
    rewrite Nat2Z.id, lookup_app_r by lia. by rewrite Nat.sub_diag. }
  rewrite Hd in Hi.
  destruct (list_getitem (_ids repo) (Z.of_nat (length pre))) as [id_|e]; [|done].
  cbn [bind] in *. by rewrite Hi.
Qed.

Lemma advance_resume (g : generator) (a : Z) (n : nat) : forall currentIndex,
  advance toProtocolElement (resume g a) n currentIndex
  = advance toProtocolElement g n currentIndex.
Proof.
  induction n as [|n IH]; intros currentIndex; cbn; [done|].
  destruct (currentIndex <? gen_numObjects g); [|done].
  destruct (gen_getDatasetMethod g currentIndex (gen_access_map g)) as [[dataset|]|e];
    cbn; [done|apply IH|done].
Qed.

Section Pages.
Variable repo : AbstractDataRepository.
Variable request : SearchRequest.
Variable access_map : gmap string Z.
Variable datasets : list Dataset.
Hypothesis Hdatasets : getDatasets repo = Ok datasets.

Local Abbreviation g0 := (datasetsGenerator repo request access_map).
Local Abbreviation emit := (fun d : Dataset => toProtocolElement d 0).
Local Abbreviation visible := (List.filter (authorised access_map)).

Lemma numObjects_datasets : gen_numObjects g0 = Z.of_nat (length datasets).
Proof.
  destruct (getByIndex_getAll _ _ 0 Hdatasets) as [Hn _].
  cbn. unfold getNumDatasets. by rewrite Hn.
Qed.

Lemma fill_datasets (pageSize : Z) (rest : list Dataset) : forall pre fuel values tok,
  datasets = pre ++ rest ->
  (length rest < fuel)%nat ->
  exists k,
    (k <= length (visible rest))%nat /\
    fill (next toProtocolElement) isFull fuel pageSize
      (resume g0 (Z.of_nat (length pre))) values tok
    = Some (Ok {| Paging.resp_values := values ++ (emit <$> take k (visible rest));
                  Paging.resp_nextPageToken := match k with O => tok | S _ => None end |}) /\
    (forall j, (0 < j < k)%nat ->
       isFull pageSize (values ++ (emit <$> take j (visible rest))) = false) /\
    ((k < length (visible rest))%nat ->
       (0 < k)%nat /\ isFull pageSize (values ++ (emit <$> take k (visible rest))) = true).
Proof.
  induction rest as [|d rest IH]; intros pre fuel values tok Hds Hfuel.
  - exists 0%nat. destruct fuel as [|fuel]; [cbn in Hfuel; lia|].
    cbn [fill]. unfold next. cbn [gen_numObjects gen_currentIndex resume].
    fold (gen_numObjects g0). rewrite numObjects_datasets, Hds, length_app. cbn [length].
    replace (Z.to_nat _) with 0%nat by lia. cbn. rewrite app_nil_r.
    repeat split; (done || lia).
  - destruct fuel as [|fuel]; [cbn in Hfuel; lia|]. cbn [length] in Hfuel.
    assert (next toProtocolElement (resume g0 (Z.of_nat (length pre)))
            = if authorised access_map d
              then Ok (Some ((emit d, None), resume g0 (Z.of_nat (length (pre ++ [d])))))
              else next toProtocolElement (resume g0 (Z.of_nat (length (pre ++ [d]))))) as Hnext.
    { unfold next. rewrite !advance_resume. cbn [gen_numObjects gen_currentIndex resume].
      fold (gen_numObjects g0). rewrite numObjects_datasets, Hds, !length_app. cbn [length].
      replace (Z.to_nat (Z.of_nat (length pre + S (length rest)) - Z.of_nat (length pre)))
        with (S (length rest)) by lia.
      replace (Z.to_nat (Z.of_nat (length pre + S (length rest))
                         - Z.of_nat (length pre + 1)))
        with (length rest) by lia.
      cbn [advance gen_numObjects gen_getDatasetMethod gen_access_map resume].
      fold (gen_numObjects g0). rewrite numObjects_datasets, Hds, length_app. cbn [length].
      destruct (Z.ltb_spec (Z.of_nat (length pre)) (Z.of_nat (length pre + S (length rest))));
        [|lia].
      change (gen_getDatasetMethod g0) with (getAuthzDatasetByIndex repo).
      change (gen_access_map g0) with access_map.
      rewrite Hds in Hdatasets.
      rewrite (getAuthzDatasetByIndex_at _ _ _ _ _ Hdatasets). cbn [bind].
      replace (Z.of_nat (length pre) + 1) with (Z.of_nat (length pre + 1)) by lia.
      by destruct (authorised access_map d). }
    assert (datasets = (pre ++ [d]) ++ rest) as Hds' by (by rewrite <- app_assoc).
    cbn [List.filter]. destruct (authorised access_map d) eqn:Hauth.
    + cbn [fill]. rewrite Hnext.
      destruct (isFull pageSize (values ++ [emit d])) eqn:Hfull.
      * exists 1%nat. cbn [length take fmap list_fmap]. rewrite take_0. cbn.
        repeat split; (done || lia).
      * destruct (IH (pre ++ [d]) fuel (values ++ [emit d]) None Hds' ltac:(lia))
          as (k & Hk & Hfill & Hbelow & Hat).
        exists (S k). cbn [length take fmap list_fmap].
        rewrite Hfill, <- !app_assoc. cbn [app].
        split; [lia|]. split; [by destruct k|]. split.
        -- intros [|j] Hj; [lia|]. cbn [take fmap list_fmap].
           destruct j as [|j].
           ++ by rewrite take_0.
           ++ specialize (Hbelow (S j) ltac:(lia)). by rewrite <- app_assoc in Hbelow.
        -- intros Hlt. split; [lia|].
           destruct (Hat ltac:(lia)) as [_ Hfull']. by rewrite <- app_assoc in Hfull'.
    + assert (fill (next toProtocolElement) isFull (S fuel) pageSize
                (resume g0 (Z.of_nat (length pre))) values tok
              = fill (next toProtocolElement) isFull (S fuel) pageSize
                  (resume g0 (Z.of_nat (length (pre ++ [d])))) values tok) as ->.
      { cbn [fill]. by rewrite Hnext. }
      apply IH; [done|lia].
Qed.

End Pages.

(** X26. The datasets search. On a repository whose listed ids all
    resolve, the page holds datasets named in the access map only, in
    the order of the repository and each at tier 0, up to the first
    point where the response builder is full; it never carries a
    continuation token, also when it was cut short, and the page token
    of the request is not read. *)
Theorem search_datasets_page (repo : AbstractDataRepository) (request : SearchRequest)
    (access_map : gmap string Z) (datasets : list Dataset) (fuel : nat) :
  let pageSize := if page_size request =? 0 then defaultPageSize else page_size request in
  let visible := List.filter (authorised access_map) datasets in
  getDatasets repo = Ok datasets ->
  0 <= pageSize ->
  (length datasets < fuel)%nat ->
  exists k,
    (k <= length visible)%nat /\
    runSearchDatasets toProtocolElement isFull defaultPageSize repo fuel request access_map
    = Some (Ok {| Paging.resp_values := (fun d => toProtocolElement d 0) <$> take k visible;
                  Paging.resp_nextPageToken := None |}) /\
    (forall j, (0 < j < k)%nat ->
       isFull pageSize ((fun d => toProtocolElement d 0) <$> take j visible) = false) /\
    ((k < length visible)%nat ->
       (0 < k)%nat /\
       isFull pageSize ((fun d => toProtocolElement d 0) <$> take k visible) = true).
Proof.
  intros pageSize visible Hall Hsize Hfuel.
  destruct (fill_datasets repo request access_map datasets Hall pageSize
              datasets [] fuel [] None eq_refl Hfuel) as (k & Hk & Hfill & Hbelow & Hat).
  exists k. split; [done|]. split; [|by split].
  unfold runSearchDatasets, runSearchRequest.
  assert (page_size (if page_size request =? 0
                     then set_page_size request defaultPageSize else request) = pageSize) as ->.
  { subst pageSize. by destruct (page_size request =? 0). }
  destruct (Z.ltb_spec pageSize 0); [lia|].
  cbn [length Z.of_nat app] in Hfill.
  transitivity (fill (next toProtocolElement) isFull fuel pageSize
                  (resume (datasetsGenerator repo request access_map) 0) [] None); [done|].
  etransitivity; [exact Hfill|]. by destruct k.
Qed.

End DatasetSearchProperties.

Lemma search_datasets_page_witness :
  exists k,
    (k <= 1)%nat /\
    DatasetSearch.runSearchDatasets (fun d tier => (getLocalId d, tier))
      full_at_page_size 10 one_dataset_repo 5 example_request example_access_map
    = Some (Ok {| Paging.resp_values :=
                    (fun d => (getLocalId d, 0)) <$> take k [example_dataset];
                  Paging.resp_nextPageToken := None |}) /\
    (forall j, (0 < j < k)%nat ->
       full_at_page_size 1 ((fun d => (getLocalId d, 0)) <$> take j [example_dataset])
       = false) /\
    ((k < 1)%nat ->
       (0 < k)%nat /\
       full_at_page_size 1 ((fun d => (getLocalId d, 0)) <$> take k [example_dataset])
       = true).
Proof.
  apply (search_datasets_page (fun d tier => (getLocalId d, tier)) full_at_page_size 10
           one_dataset_repo example_request example_access_map [example_dataset] 5).
  - reflexivity.
  - done.
  - cbn. lia.
Defined.

(** ** The get end points *)

Section GetProperties.
Import CompoundId GetRequests.
Context {Obj Elt : Type}.
Variable serialize : Obj -> Z -> Elt.
Variable getEntity : entity -> Dataset -> string -> result Obj.
Variable repo : DataRepository.

Local Arguments obfuscate : simpl never.
Local Arguments join : simpl never.
Local Arguments encode : simpl never.
Local Arguments parse : simpl never.
Local Arguments __init__ : simpl never.

Lemma compoundIdClass_entity (kind : entity) (cls : class) :
  compoundIdClass kind = Some cls -> cls ∈ entity_classes.
Proof.
  unfold entity_classes, classes. cbn [tail]. rewrite !elem_of_cons.
  destruct kind; intros [= <-]; tauto.
Qed.

(** X27. A get request on the identifier of an entity. The end points of
    chemotherapies, radiotherapies, surgeries, immunotherapies, cell
    transplants, slides, studies and lab tests raise AttributeError on
    every identifier, before anything is looked up: the class they name
    is defined nowhere. The end point of each other kind takes the
    identifier of any entity kind with plain local ids; it looks up the
    dataset named in the identifier, then the tier of the user for that
    dataset, and only then asks the dataset for the entity, under the
    identifier as it was given. So a user without access is answered
    with the authorisation error whether the entity exists or not. *)
Theorem runGet_resolves (kind : entity) (id_ : string) (access_map : gmap string Z) :
  (kind ∈ classless <-> compoundIdClass kind = None) /\
  (kind ∈ classless ->
   runGet serialize getEntity repo kind id_ access_map = Raise (Builtin AttributeError)) /\
  (forall (cls1 cls2 : class) (ds x : string) (self1 self2 : instance),
     compoundIdClass kind = Some cls2 ->
     cls1 ∈ entity_classes ->
     plain ds = true -> plain x = true ->
     __init__ cls1 None [ds; x] = Ok self1 ->
     __str__ self1 = Ok id_ ->
     __init__ cls2 None [ds; x] = Ok self2 ->
     exists dataset_id,
       str_of_new DatasetCompoundId [ds] = Ok dataset_id /\
       runGet serialize getEntity repo kind id_ access_map
       = let* dataset := Datamodel.getDataset repo dataset_id in
         let* tier := getUserAccessTier dataset access_map in
         let* obj := getEntity kind dataset id_ in
         Ok (serialize obj tier)).
Proof.
  assert (kind ∈ classless <-> compoundIdClass kind = None) as Hnone.
  { unfold classless. rewrite !elem_of_cons, elem_of_nil.
    destruct kind; cbn; intuition congruence. }
  split; [done|]. split.
  - intros Hk%Hnone. unfold runGet. by rewrite Hk.
  - intros cls1 cls2 ds x self1 self2 Hcls H1 Hds Hx Hinit1 Hstr Hinit2.
    pose proof (compoundIdClass_entity kind cls2 Hcls) as H2.
    destruct (init_entity cls1 ds x self1 H1 Hinit1)
      as (d & o1 & o & idField & prefix & _ & Hd & Ho1 & Ho & Hstr' & _).
    assert (id_ = o) as -> by congruence.
    destruct (init_entity cls2 ds x self2 H2 Hinit2)
      as (d2 & o1' & o2 & idField2 & prefix2 & _ & _ & Ho1' & _ & _ & Hdsid & _).
    assert (o1' = o1) as -> by congruence.
    exists o1. split.
    + unfold str_of_new, __init__. cbn.
      change (negb (Z.of_nat 1 =? Z.of_nat 1 - Z.of_nat 0)) with false. cbn iota.
      rewrite Ho1. cbn. unfold __str__. cbn. by rewrite Ho1.
    + unfold runGet. rewrite Hcls. cbn [bind].
      destruct (entity_class_shape cls2 H2) as (name & diff & -> & _).
      rewrite (parse_obfuscated _ [ds; d; x] o); [|by repeat constructor|exact Ho].
      rewrite of_splits_entity.
      change (delete 1%nat [ds; d; x]) with [ds; x].
      change (1 <? length [ds; d; x])%nat with true.
      change (negb (Z.of_nat (length [ds; x]) =? 2)) with false. cbn iota.
      rewrite Hinit2. cbn [bind]. by rewrite Hdsid.
Qed.

End GetProperties.

Lemma runGet_resolves_witness :
  GetRequests.runGet (fun (o : DatamodelObject) tier => (_localId o, tier))
    (fun kind dataset _ => list_getitem (ds_entities dataset kind) 0)
    example_data_repo Chemotherapies "WyJkcyIsInBhdCIsInAgMSJd" example_access_map
  = Raise (Builtin AttributeError) /\
  exists dataset_id,
    str_of_new CompoundId.DatasetCompoundId ["ds"] = Ok dataset_id /\
    GetRequests.runGet (fun (o : DatamodelObject) tier => (_localId o, tier))
      (fun kind dataset _ => list_getitem (ds_entities dataset kind) 0)
      example_data_repo Enrollments "WyJkcyIsInBhdCIsInAgMSJd" example_access_map
    = let* dataset := Datamodel.getDataset example_data_repo dataset_id in
      let* tier := getUserAccessTier dataset example_access_map in
      let* obj := list_getitem (ds_entities dataset Enrollments) 0 in
      Ok (_localId obj, tier).
Proof.
  split.
  - apply (proj1 (proj2 (runGet_resolves
                           (fun (o : DatamodelObject) tier => (_localId o, tier))
                           (fun kind dataset _ => list_getitem (ds_entities dataset kind) 0)
                           example_data_repo Chemotherapies "WyJkcyIsInBhdCIsInAgMSJd"
                           example_access_map))).
    unfold classless. left.
  - apply (proj2 (proj2 (runGet_resolves
                           (fun (o : DatamodelObject) tier => (_localId o, tier))
                           (fun kind dataset _ => list_getitem (ds_entities dataset kind) 0)
                           example_data_repo Enrollments "WyJkcyIsInBhdCIsInAgMSJd"
                           example_access_map))
             CompoundId.PatientCompoundId CompoundId.EnrollmentCompoundId
             "ds" "p 1" example_patient_id example_enrollment_id).
    + reflexivity.
    + unfold entity_classes, classes. left.
    + reflexivity.
    + reflexivity.
    + reflexivity.
    + reflexivity.
    + reflexivity.
Defined.

(** ** Attributes and tiers *)

Section AttributeProperties.
Import Attributes.

Lemma validate_true_iff (attribute_name : string)
    (attributes : list (string * json)) (tier : Z) :
  validateAttribute attribute_name attributes tier = Ok true <->
  endswith attribute_name "Tier" = false /\
  exists level, release_level attribute_name attributes = Some level /\ level <= tier.
Proof.
  unfold validateAttribute, release_level.
  destruct (endswith attribute_name "Tier"); [by split; [|intros [? _]]|].
  destruct (dict_get (attribute_name ++ "Tier") attributes) as [obj|]; cbn;
    [|split; [done|by intros [_ (? & ? & _)]]].
  destruct obj as [|b|n|s|l|d]; cbn;
    try (split; [done|by intros [_ (? & ? & _)]]).
  - destruct s; cbn; (split; [done|by intros [_ (? & ? & _)]]).
  - destruct l as [|first l]; cbn; [split; [done|by intros [_ (? & ? & _)]]|].
    destruct first as [|b|n|s|l'|d]; cbn;
      try (split; [done|by intros [_ (? & ? & _)]]).
    destruct (dict_get "int32Value" d) as [level|]; cbn;
      [|split; [done|by intros [_ (? & ? & _)]]].
    destruct level as [|b|n|s|l'|d']; cbn;
      try (split; [done|by intros [_ (? & ? & _)]]).
    + split.
      * intros [= Hlt]. split; [done|]. eexists. split; [done|].
        apply negb_true_iff, Z.ltb_ge in Hlt. done.
      * intros [_ (level & [= <-] & Hle)]. f_equal.
        by apply negb_true_iff, Z.ltb_ge.
    + split.
      * intros [= Hlt]. split; [done|]. eexists. split; [done|].
        by apply negb_true_iff, Z.ltb_ge in Hlt.
      * intros [_ (level & [= <-] & Hle)]. f_equal.
        by apply negb_true_iff, Z.ltb_ge.
Qed.

(** X28. An attribute is released exactly to the tiers from its level on:
    [validateAttribute] answers True when the name does not end in
    [Tier], the attributes hold a companion [<name>Tier] whose first
    element is a dict with an integer [int32Value], and that level is at
    most the tier of the user. It follows that what is released at one
    tier is released at every higher one. *)
Theorem validateAttribute_threshold (attribute_name : string)
    (attributes : list (string * json)) (tier : Z) :
  (validateAttribute attribute_name attributes tier = Ok true <->
   endswith attribute_name "Tier" = false /\
   exists level, release_level attribute_name attributes = Some level /\ level <= tier) /\
  (forall tier', tier <= tier' ->
     validateAttribute attribute_name attributes tier = Ok true ->
     validateAttribute attribute_name attributes tier' = Ok true).
Proof.
  split; [apply validate_true_iff|].
  intros tier' Hle [Hname (level & Hlevel & Hl)]%validate_true_iff.
  apply validate_true_iff. split; [done|]. exists level. split; [done|lia].
Qed.

Lemma validate_released (attribute_name : string)
    (attributes : list (string * json)) (tier : Z) (valid : bool) :
  validateAttribute attribute_name attributes tier = Ok valid ->
  valid = released attributes tier attribute_name.
Proof.
  intros H. unfold released. destruct valid.
  - apply validate_true_iff in H as [-> (level & -> & Hle)]. cbn.
    symmetry. by apply Z.leb_le.
  - destruct (endswith attribute_name "Tier") eqn:Hname; [done|]. cbn.
    destruct (release_level attribute_name attributes) as [level|] eqn:Hlevel; [|done].
    destruct (Z.leb_spec level tier) as [Hle|]; [|done].
    assert (validateAttribute attribute_name attributes tier = Ok true) as H'
      by (apply validate_true_iff; eauto).
    congruence.
Qed.

Lemma serialize_loop_log (attributes : list (string * json)) (tier : Z)
    (rest : list (string * json)) : forall msg msg',
  serialize_loop attributes rest msg tier = Ok msg' ->
  exists log,
    msg' = msg ++ log /\
    log.*1 = List.filter (released attributes tier) rest.*1 /\
    Forall (fun entry => exists attribute,
              (entry.1, attribute) ∈ rest /\ values_of attribute = Ok entry.2) log.
Proof.
  induction rest as [|[name attribute] rest IH]; intros msg msg'; cbn [serialize_loop].
  - intros [= <-]. exists []. by rewrite app_nil_r.
  - destruct (validateAttribute name attributes tier) as [valid|e] eqn:Hvalid; [|done].
    cbn [bind]. apply validate_released in Hvalid. cbn [fmap list_fmap fst List.filter].
    rewrite <- Hvalid. destruct valid.
    + destruct (values_of attribute) as [values|e] eqn:Hvalues; [|done]. cbn [bind].
      intros (log & -> & Hnames & Hlog)%IH.
      exists ((name, values) :: log). rewrite <- app_assoc. split; [done|].
      split; [cbn; by rewrite Hnames|].
      constructor.
      * exists attribute. split; [left|done].
      * eapply Forall_impl; [exact Hlog|].
        intros entry (a & Hin & Ha). exists a. split; [by right|done].
    + intros (log & -> & Hnames & Hlog)%IH. exists log. split; [done|].
      split; [done|].
      eapply Forall_impl; [exact Hlog|].
      intros entry (a & Hin & Ha). exists a. split; [by right|done].
Qed.

(** X29. What [serializeMetadataAttributes] writes. When it returns, the
    message has gained one entry for each attribute that is released at
    the tier, in the order of the attributes, with the values of the
    dicts of that attribute; a name that ends in [Tier], and an
    attribute without a level, is never written. *)
Theorem serializeMetadataAttributes_released (attributes : list (string * json))
    (msg msg' : message) (tier : Z) :
  serializeMetadataAttributes attributes msg tier = Ok msg' ->
  exists log,
    msg' = msg ++ log /\
    log.*1 = List.filter (released attributes tier) attributes.*1 /\
    Forall (fun entry => exists attribute,
              (entry.1, attribute) ∈ attributes /\ values_of attribute = Ok entry.2 /\
              endswith entry.1 "Tier" = false /\
              exists level, release_level entry.1 attributes = Some level /\
                            level <= tier) log.
Proof.
  intros (log & -> & Hnames & Hlog)%serialize_loop_log.
  exists log. split; [done|]. split; [done|].
  apply Forall_forall. intros [name values] Hin.
  rewrite Forall_forall in Hlog. destruct (Hlog _ Hin) as (a & Ha & Hv).
  exists a. split; [done|]. split; [done|].
  assert (name ∈ List.filter (released attributes tier) attributes.*1) as Hf.
  { rewrite <- Hnames. by apply (list_elem_of_fmap_2 fst _ (name, values)). }
  apply list_elem_of_In, filter_In in Hf as [_ Hrel]. unfold released in Hrel. cbn [fst].
  destruct (endswith name "Tier"); [done|]. split; [done|].
  destruct (release_level name attributes) as [level|]; [|done].
  exists level. split; [done|]. by apply Z.leb_le.
Qed.

End AttributeProperties.

Lemma serializeMetadataAttributes_released_witness :
  exists log,
    [("age", [JStr "63"])] = [] ++ log /\
    log.*1 = List.filter (released example_attributes 2) example_attributes.*1 /\
    Forall (fun entry => exists attribute,
              (entry.1, attribute) ∈ example_attributes /\
              Attributes.values_of attribute = Ok entry.2 /\
              Attributes.endswith entry.1 "Tier" = false /\
              exists level, release_level entry.1 example_attributes = Some level /\
                            level <= 2) log.
Proof.
  exact (serializeMetadataAttributes_released example_attributes []
           [("age", [JStr "63"])] 2 eq_refl).
Defined.

(** ** The components of an advanced query *)

Section ComponentProperties.
Import Query Components.
Variable endpoint : string -> row -> gmap string Z -> result response.

Local Arguments dict_set : simpl never.

Ltac shape_step Hname Hkey :=
  repeat first
    [ rewrite String.eqb_refl
    | match goal with
      | |- context [String.eqb ?a ?b] =>
          destruct (String.eqb_spec a b) as [E|_]; [by rewrite ?E in Hname|]
      end
    | progress change (list_getitem [?n] 0) with (Ok n)
    | progress cbn -[String.eqb]
    | rewrite Hkey ].

Lemma plan_step datasetId id key name body component :
  component_of id name body component ->
  hashable id = Ok key ->
  exists request, forall components requests idMapper,
    plan datasetId (component :: components) requests idMapper
    = plan datasetId components (key_set key request requests) (key_set key name idMapper).
Proof.
  intros [Hname [-> | ->]] Hkey;
    exists (default [("datasetId", datasetId)]
              ((fun f => dict_set "filters" f [("datasetId", datasetId)])
                 <$> dict_get "filters" body));
    intros components requests idMapper.
  - cbn -[String.eqb]. shape_step Hname Hkey.
    destruct (dict_get "filters" body) as [f|]; shape_step Hname Hkey; done.
  - cbn -[String.eqb]. shape_step Hname Hkey.
    destruct (dict_get "filters" body) as [f|]; shape_step Hname Hkey; done.
Qed.

Lemma plan_app datasetId (pre : list row) : forall requests idMapper,
  Forall well_shaped pre ->
  exists requests' idMapper', forall rest,
    plan datasetId (pre ++ rest) requests idMapper
    = plan datasetId rest requests' idMapper'.
Proof.
  induction pre as [|c pre IH]; intros requests idMapper Hpre.
  - by exists requests, idMapper.
  - inversion Hpre as [|? ? (id & key & name & body & Hc & Hkey) Hpre']; subst.
    destruct (plan_step datasetId id key name body c Hc Hkey) as [request Hstep].
    destruct (IH (key_set key request requests) (key_set key name idMapper) Hpre')
      as (requests' & idMapper' & H).
    exists requests', idMapper'. intros rest. cbn [app]. by rewrite Hstep, H.
Qed.

Lemma key_set_head {A} (key key' : pyval) (x y : A) (d : list (pyval * A)) :
  key' <> key ->
  key_set key' y ((key, x) :: d) = (key, x) :: key_set key' y d.
Proof. intros Hne. cbn. by rewrite bool_decide_eq_false_2. Qed.

Lemma key_get_set_ne {A} (key key' : pyval) (y : A) (d : list (pyval * A)) :
  key' <> key -> key_get key (key_set key' y d) = key_get key d.
Proof.
  intros Hne. induction d as [|[k v] d IH]; cbn.
  - by rewrite bool_decide_eq_false_2.
  - destruct (decide (key' = k)) as [->|Hk].
    + rewrite bool_decide_eq_true_2 by done. cbn.
      by rewrite !(bool_decide_eq_false_2 (key = k)) by done.
    + rewrite (bool_decide_eq_false_2 (key' = k)) by done. cbn.
      by rewrite IH.
Qed.

Lemma plan_keeps_head datasetId (rest : list row) (key : pyval) (request : row)
    (name : string) : forall requests idMapper,
  Forall well_shaped rest ->
  other_ids key rest ->
  key_get key idMapper = Some name ->
  exists requests' idMapper',
    plan datasetId rest ((key, request) :: requests) idMapper
    = Ok ((key, request) :: requests', idMapper') /\
    key_get key idMapper' = Some name.
Proof.
  induction rest as [|c rest IH]; intros requests idMapper Hrest Hother Hget.
  - by exists requests, idMapper.
  - inversion Hrest as [|? ? (id & key' & name' & body & Hc & Hkey) Hrest']; subst.
    inversion Hother as [|? ? Hne Hother']; subst.
    assert (key' <> key) as Hk.
    { intros ->. apply (Hne id); [|done].
      destruct Hc as [Hname [-> | ->]]; cbn -[String.eqb].
      - by rewrite String.eqb_refl.
      - destruct (String.eqb_spec "id" name') as [E|_]; [by rewrite E in Hname|].
        by rewrite String.eqb_refl. }
    destruct (plan_step datasetId id key' name' body c Hc Hkey) as [request' Hstep].
    rewrite Hstep, key_set_head by done.
    apply IH; [done|done|]. by rewrite key_get_set_ne.
Qed.

(** X30. What [componentsHandler] does with components it cannot use.
    After components of the expected shape, a component with another
    number of keys than two is a missing field name, and one with two
    keys of which none is [id] is a ValueError, whatever the end points
    do. And components of the expected shape, the first of which names a
    table that is not a key of [endpointMapper] (no other component
    having its id), end in the KeyError of the mapper before any end
    point is called: so it is for the six pipeline tables, which have
    search methods but no entry in the mapper. *)
Theorem componentsHandler_unusable (fuel : nat) (datasetId : json)
    (pre post : list row) (component : row) (access_map : gmap string Z) :
  Forall well_shaped pre ->
  (length component <> 2%nat ->
   componentsHandler endpoint fuel datasetId (pre ++ component :: post) access_map
   = Some (Raise (MissingFieldNameException "Missing or invalid component fields"))) /\
  (length component = 2%nat -> "id" ∉ component.*1 ->
   componentsHandler endpoint fuel datasetId (pre ++ component :: post) access_map
   = Some (Raise (Builtin ValueError))) /\
  (forall id key name body,
     component_of id name body component -> hashable id = Ok key ->
     Forall well_shaped post -> other_ids key post ->
     name ∉ endpointMapper_keys ->
     componentsHandler endpoint fuel datasetId (component :: post) access_map
     = Some (Raise (Builtin KeyError))).
Proof.
  intros Hpre. unfold componentsHandler.
  destruct (plan_app datasetId pre [] [] Hpre) as (requests & idMapper & Happ).
  split; [|split].
  - rewrite Happ. intros Hlen. cbn [plan]. rewrite length_fmap.
    destruct (Nat.eqb_spec (length component) 2); [done|]. done.
  - rewrite Happ. intros Hlen Hid. cbn [plan]. rewrite length_fmap, Hlen. cbn [Nat.eqb negb].
    destruct component as [|[k1 v1] [|[k2 v2] [|? ?]]]; try done.
    cbn -[String.eqb] in *.
    destruct (String.eqb_spec "id" k1) as [<-|_]; [by destruct Hid; left|].
    destruct (String.eqb_spec "id" k2) as [<-|_]; [by destruct Hid; right; left|].
    done.
  - intros id key name body Hc Hkey Hpost Hother Hname.
    destruct (plan_step datasetId id key name body component Hc Hkey) as [request Hstep].
    rewrite Hstep. cbn [key_set].
    destruct (plan_keeps_head datasetId post key request name [] [(key, name)]
                Hpost Hother) as (requests' & idMapper' & -> & Hget).
    { cbn. by rewrite bool_decide_eq_true_2. }
    unfold endpointCaller. cbn [endpointCaller_loop]. rewrite Hget. cbn [getitem].
    unfold call_one, call. by rewrite bool_decide_eq_false_2.
Qed.

End ComponentProperties.

Lemma componentsHandler_unusable_witness :
  Components.componentsHandler empty_endpoint 0 (JStr "WyJkcyJd")
    [three_key_component] ∅
  = Some (Raise (MissingFieldNameException "Missing or invalid component fields")) /\
  Components.componentsHandler empty_endpoint 0 (JStr "WyJkcyJd")
    [extractions_component] ∅
  = Some (Raise (Builtin KeyError)).
Proof.
  split.
  - apply (proj1 (componentsHandler_unusable empty_endpoint 0 (JStr "WyJkcyJd")
                    [] [] three_key_component ∅ (List.Forall_nil _))).
    discriminate.
  - apply (proj2 (proj2 (componentsHandler_unusable empty_endpoint 0 (JStr "WyJkcyJd")
                           [] [] extractions_component ∅ (List.Forall_nil _)))
             (JStr "A") (VStr "A") "extractions" [("filters", JList [])]).
    + split; [discriminate|by left].
    + reflexivity.
    + constructor.
    + constructor.
    + unfold Query.endpointMapper_keys. intros H.
      repeat (apply elem_of_cons in H as [H|H]; [discriminate H|]).
      by apply elem_of_nil in H.
Defined.
